(** * platilka: a shallow embedding of the orchestration code

    The development follows the layout of the Python package:
    - [Py]: the fragments of the Python runtime the code relies on
      (unicode strings, [str.strip], [str.find], slicing, [list.sort],
      the backtracking [re] engine restricted to the constructs the
      patterns of the package use);
    - [Re]: the backtracking matcher behind [re.findall];
    - [Rt], [Env]: exceptions, JSON values, and the world the services
      act on (the log of LLM calls, the log of agent runs, the list
      objects shared with callers);
    - [Models]: the pydantic records of [models.py] and
      [models/product.py] with their validators;
    - [ProductService], [BrowserService]: the two services under
      [services/];
    - [SutochnoService]: [sutochno_service.py];
    - [Api]: the route handlers of [api.py] over the two in-memory
      dictionaries;
    - [Spec], [Demo]: the notions the statements are phrased with, and a
      small concrete world to run the code in.

    What lies outside the repository (the LLM, the browser agent,
    [json.loads], pydantic's coercion of JSON data, [uuid4], the prompt
    builders of [platilka.utils.prompts]) is a field of the class
    [Env.External]: every statement holds for all of their behaviours.
    The definitions come first; the facts about them follow. *)

From Stdlib Require Import ZArith NArith Lia Bool Ascii String.
From stdpp Require Import base option list sorting gmap strings.

Set Default Proof Using "Type".
Open Scope Z_scope.

(* ===================================================================== *)
(** * The Python runtime fragments                                        *)
(* ===================================================================== *)

Module Py.

(** A Python [str] is a sequence of unicode code points. *)
Definition codepoint := N.
Definition str := list codepoint.

(** ** String literals

    Literals are written as Rocq strings, whose bytes are the UTF-8
    encoding of the text; [py] decodes them into code points. *)

Fixpoint utf8_decode (bs : list N) : str :=
  match bs with
  | [] => []
  | b0 :: r0 =>
      if (b0 <? 128)%N then b0 :: utf8_decode r0
      else match r0 with
           | [] => []
           | b1 :: r1 =>
               if (b0 <? 224)%N
               then ((b0 mod 32) * 64 + (b1 mod 64))%N :: utf8_decode r1
               else match r1 with
                    | [] => []
                    | b2 :: r2 =>
                        if (b0 <? 240)%N
                        then ((b0 mod 16) * 4096 + (b1 mod 64) * 64
                              + (b2 mod 64))%N :: utf8_decode r2
                        else match r2 with
                             | [] => []
                             | b3 :: r3 =>
                                 ((b0 mod 8) * 262144 + (b1 mod 64) * 4096
                                  + (b2 mod 64) * 64 + (b3 mod 64))%N
                                 :: utf8_decode r3
                             end
                    end
           end
  end.

Fixpoint bytes_of_string (s : string) : list N :=
  match s with
  | EmptyString => []
  | String a s' => N_of_ascii a :: bytes_of_string s'
  end.

Definition py (s : string) : str := utf8_decode (bytes_of_string s).

(** ** Character classes *)

(** [str.isspace] on one character, which is also what [\s] matches in a
    [str] pattern: the code points with bidirectional type WS, B or S, or
    category Zs. *)
Definition isspace (c : codepoint) : bool :=
  ((9 <=? c) && (c <=? 13) || (28 <=? c) && (c <=? 32)
   || (c =? 133) || (c =? 160) || (c =? 5760)
   || (8192 <=? c) && (c <=? 8202)
   || (c =? 8232) || (c =? 8233) || (c =? 8239) || (c =? 8287)
   || (c =? 12288))%N.

Definition BACKTICK : codepoint := 96%N.
Definition LBRACE : codepoint := 123%N.
Definition RBRACE : codepoint := 125%N.
Definition DQUOTE : codepoint := 34%N.
Definition SQUOTE : codepoint := 39%N.

(** [c in chars] for a character. *)
Definition char_in (chars : str) (c : codepoint) : bool :=
  existsb (N.eqb c) chars.

(** ** [str.strip] *)

Fixpoint dropwhile (p : codepoint -> bool) (s : str) : str :=
  match s with
  | [] => []
  | c :: s' => if p c then dropwhile p s' else s
  end.

Definition lstrip_by (p : codepoint -> bool) (s : str) : str := dropwhile p s.
Definition rstrip_by (p : codepoint -> bool) (s : str) : str :=
  rev (dropwhile p (rev s)).

(** [s.strip()] and [s.strip(chars)]: the left index advances while the
    character is in the set, then the right index retreats. *)
Definition strip_by (p : codepoint -> bool) (s : str) : str :=
  rstrip_by p (lstrip_by p s).

Definition strip (s : str) : str := strip_by isspace s.
Definition strip_chars (chars : str) (s : str) : str :=
  strip_by (char_in chars) s.

(** ** [str.find], [str.rfind], slicing *)

Fixpoint strip_prefix (sub s : str) : option str :=
  match sub with
  | [] => Some s
  | a :: sub' =>
      match s with
      | [] => None
      | c :: s' => if (a =? c)%N then strip_prefix sub' s' else None
      end
  end.

(** Lowest index at which [sub] occurs in [s], or [-1]. *)
Fixpoint find (s sub : str) : Z :=
  match strip_prefix sub s with
  | Some _ => 0
  | None =>
      match s with
      | [] => -1
      | _ :: s' => let i := find s' sub in if i <? 0 then -1 else i + 1
      end
  end.

(** Highest index at which [sub] occurs in [s], or [-1]. *)
Fixpoint rfind (s sub : str) : Z :=
  match s with
  | [] => match sub with [] => 0 | _ => -1 end
  | _ :: s' =>
      let i := rfind s' sub in
      if 0 <=? i then i + 1
      else match strip_prefix sub s with Some _ => 0 | None => -1 end
  end.

(** A slice bound as Python normalises it: negative bounds count from the
    end, and the result is clamped to [0, len]. *)
Definition clamp_index {A} (l : list A) (i : Z) : nat :=
  let n := Z.of_nat (length l) in
  let j := if i <? 0 then i + n else i in
  Z.to_nat (Z.max 0 (Z.min j n)).

(** [l[a:b]] *)
Definition slice {A} (l : list A) (a b : Z) : list A :=
  let lo := clamp_index l a in
  let hi := clamp_index l b in
  take (hi - lo) (drop lo l).

(** [l[:b]] *)
Definition slice_to {A} (l : list A) (b : Z) : list A :=
  take (clamp_index l b) l.

(** ** [list.sort(key=..., reverse=...)]

    The interpreter's sort compares keys with [<] only. What it does with
    keys that [<] does not order (a NaN among floats) depends on the run
    detection and the merges of its implementation, so it is kept
    abstract, with what holds of it whatever the keys are, and what it
    gives on keys that are ordered:
    - the result is a permutation of the list;
    - a list in which no element is followed by a smaller one is one run
      for the run detection, and is left as it is;
    - when [<] is a strict weak order on the keys that occur, the result
      is that of a stable sort, which the insertion sort below computes.
    With [reverse=True] the interpreter reverses the list, sorts it, and
    reverses the result, which keeps equal keys in their original
    order. *)
Section Sort.
Context {A K : Type} (key : A -> K) (lt : K -> K -> bool).

(** Insert [x], which stood before every element of [l]. *)
Fixpoint insert_sorted (x : A) (l : list A) : list A :=
  match l with
  | [] => [x]
  | y :: l' => if lt (key y) (key x) then y :: insert_sorted x l' else x :: l
  end.

Definition stable_sort (l : list A) : list A := foldr insert_sorted [] l.

(** No element is followed by a smaller one. *)
Fixpoint one_run (l : list A) : bool :=
  match l with
  | x :: (y :: _) as l' => negb (lt (key y) (key x)) && one_run l'
  | _ => true
  end.

(** [<] is a strict weak order on the keys of [l]: it is asymmetric, and
    "not less than" is transitive. *)
Definition ordered_keys (l : list A) : Prop :=
  (∀ a b, a ∈ l → b ∈ l → lt (key a) (key b) = true → lt (key b) (key a) = false)
  ∧ (∀ a b c, a ∈ l → b ∈ l → c ∈ l →
       lt (key a) (key b) = false → lt (key b) (key c) = false →
       lt (key a) (key c) = false).

End Sort.

Class Sorting := {
  sort : ∀ {A K : Type}, (A -> K) -> (K -> K -> bool) -> list A -> list A;
  sort_permutation :
    ∀ {A K : Type} (key : A -> K) (lt : K -> K -> bool) (l : list A),
      sort key lt l ≡ₚ l;
  sort_one_run :
    ∀ {A K : Type} (key : A -> K) (lt : K -> K -> bool) (l : list A),
      one_run key lt l = true → sort key lt l = l;
  sort_ordered :
    ∀ {A K : Type} (key : A -> K) (lt : K -> K -> bool) (l : list A),
      ordered_keys key lt l → sort key lt l = stable_sort key lt l;
}.

Definition list_sort `{Sorting} {A K : Type} (key : A -> K)
    (lt : K -> K -> bool) (reverse : bool) (l : list A) : list A :=
  if reverse then rev (sort key lt (rev l)) else sort key lt l.

(** The insertion sort is such a sort. *)
Definition insertion_sorting : Sorting.
Proof.
  refine {| sort := @stable_sort;
            sort_ordered := fun A K key lt l _ => eq_refl |}.
  - intros A K key lt l.
    induction l as [|x l IH]; simpl; [done|].
    fold (stable_sort key lt l). rewrite <- IH at 2.
    generalize (stable_sort key lt l). clear. intros l.
    induction l as [|y l IH]; simpl; [done|].
    destruct (lt (key y) (key x)); [|done].
    rewrite IH. apply Permutation_swap.
  - intros A K key lt l.
    induction l as [|x l IH]; [done|].
    destruct l as [|y l]; [done|].
    cbn [one_run]. intros [Hxy Hl]%andb_prop.
    change (stable_sort key lt (x :: y :: l))
      with (insert_sorted key lt x (stable_sort key lt (y :: l))).
    rewrite (IH Hl). cbn [insert_sorted].
    by apply negb_true_iff in Hxy as ->.
Defined.

End Py.

(* ===================================================================== *)
(** * The [re] engine                                                     *)
(* ===================================================================== *)

Module Re.
Import Py.

(** Character sets: a literal character, [\s], [\S] and a bracket
    expression joining two of them. *)
Inductive cset :=
| CChar (c : codepoint)
| CSpace
| CNotSpace
| CUnion (a b : cset).

Fixpoint cset_mem (cs : cset) (c : codepoint) : bool :=
  match cs with
  | CChar a => (a =? c)%N
  | CSpace => isspace c
  | CNotSpace => negb (isspace c)
  | CUnion a b => cset_mem a c || cset_mem b c
  end.

(** The pattern constructs the package uses. Repetition is only ever
    applied to a single character set ([\s*], [[\s\S]*], [[\s\S]*?]); the
    flag tells the greedy from the lazy form. *)
Inductive regex :=
| REmpty
| RSet (cs : cset)
| RCat (r1 r2 : regex)
| RStar (greedy : bool) (cs : cset)
| RGroup (r : regex).

(** A literal string as a pattern. *)
Fixpoint RLit (s : str) : regex :=
  match s with
  | [] => REmpty
  | c :: s' => RCat (RSet (CChar c)) (RLit s')
  end.

(** Backtracking matcher in continuation-passing style: alternatives are
    tried in the priority order of [re] (a greedy star first tries one more
    character, a lazy star first tries to stop), and the first alternative
    whose continuation succeeds wins. [cap] is the text of group 1. *)
Fixpoint rmatch {R} (r : regex) (s : str) (cap : option str)
    (k : str -> option str -> option R) : option R :=
  match r with
  | REmpty => k s cap
  | RSet cs =>
      match s with
      | c :: s' => if cset_mem cs c then k s' cap else None
      | [] => None
      end
  | RCat r1 r2 => rmatch r1 s cap (fun s1 cap1 => rmatch r2 s1 cap1 k)
  | RStar true cs =>
      (fix more (t : str) : option R :=
         match t with
         | c :: t' =>
             if cset_mem cs c
             then match more t' with Some x => Some x | None => k t cap end
             else k t cap
         | [] => k t cap
         end) s
  | RStar false cs =>
      (fix stop (t : str) : option R :=
         match k t cap with
         | Some x => Some x
         | None =>
             match t with
             | c :: t' => if cset_mem cs c then stop t' else None
             | [] => None
             end
         end) s
  | RGroup r1 =>
      rmatch r1 s cap
        (fun s1 _ => k s1 (Some (take (length s - length s1) s)))
  end.

(** The continuation that ends a match: the text of group 1 ([None] when
    the group took no part) and the input left after the match. *)
Definition finish (rest : str) (cap : option str)
  : option (option str * str) := Some (cap, rest).

(** A match anchored at the start of [s]. *)
Definition match_at (r : regex) (s : str) : option (option str * str) :=
  rmatch r s None finish.

(** [pattern.search]: the leftmost position at which the pattern matches. *)
Fixpoint search (r : regex) (s : str) : option (option str * str) :=
  match match_at r s with
  | Some m => Some m
  | None => match s with [] => None | _ :: s' => search r s' end
  end.

(** [re.findall] for a pattern with one group: the group's text for every
    non-overlapping match, scanning left to right. A group that did not
    take part yields the empty string; after an empty match the scan moves
    one character on. *)
Fixpoint findall_from (fuel : nat) (r : regex) (s : str) : list str :=
  match fuel with
  | O => []
  | S fuel' =>
      match search r s with
      | None => []
      | Some (cap, rest) =>
          default [] cap ::
          findall_from fuel' r
            (if (length rest <? length s)%nat then rest else tail rest)
      end
  end.

Definition findall (r : regex) (s : str) : list str :=
  findall_from (S (length s)) r s.

End Re.

(* ===================================================================== *)
(** * Exceptions, JSON values and the outside world                       *)
(* ===================================================================== *)

Module Rt.
Import Py.

(** Instances of [Exception]; [exn_str] is [str(e)]. *)
Inductive exn_class :=
| JSONDecodeError
| ValueError
| TypeError
| AttributeError
| IndexError
| OverflowError
| KeyError
| ValidationError
| ServiceError.

Record exn := Exn { exn_class_of : exn_class; exn_str : str }.

(** What evaluating an expression or a call gives. *)
Inductive outcome (A : Type) :=
| Return (a : A)
| Raise (e : exn).
Arguments Return {A} a.
Arguments Raise {A} e.

(** Sequencing of expressions: the first exception ends the evaluation. *)
#[global] Instance outcome_ret : MRet outcome := @Return.
#[global] Instance outcome_bind : MBind outcome :=
  fun A B f o => match o with Return a => f a | Raise e => Raise e end.

(** Python [float] values: IEEE doubles with the [<] the interpreter uses
    for them, the two constants the code mentions, and the [float(...)]
    conversions. They are kept abstract. *)
Class Floats := {
  float : Type;
  float_ltb : float -> float -> bool;
  float_zero : float;
  float_one : float;
  float_of_Z : Z -> outcome float;
  float_of_str : str -> outcome float;
}.

Section Values.
Context `{Floats}.

(** What [json.loads] produces. A dict is an association list with
    distinct keys, in insertion order. *)
#[warnings="-register-all"]
Inductive json :=
| JNull
| JBool (b : bool)
| JInt (z : Z)
| JFloat (f : float)
| JStr (s : str)
| JList (l : list json)
| JDict (d : list (str * json)).

Definition str_eqb (a b : str) : bool := bool_decide (a = b).

(** [d.get(key, default)] on a dict. *)
Fixpoint dict_get (d : list (str * json)) (key : str) (dflt : json) : json :=
  match d with
  | [] => dflt
  | (k, v) :: d' => if str_eqb k key then v else dict_get d' key dflt
  end.

(** [type(v).__name__] *)
Definition type_name (v : json) : str :=
  match v with
  | JNull => py "NoneType"
  | JBool _ => py "bool"
  | JInt _ => py "int"
  | JFloat _ => py "float"
  | JStr _ => py "str"
  | JList _ => py "list"
  | JDict _ => py "dict"
  end.

(** [data.get(key, default)] on an arbitrary value: only a dict has the
    method. *)
Definition get (data : json) (key : str) (dflt : json) : outcome json :=
  match data with
  | JDict d => Return (dict_get d key dflt)
  | _ =>
      Raise (Exn AttributeError
               (py "'" ++ type_name data
                ++ py "' object has no attribute 'get'"))
  end.

(** [float(v)] *)
Definition to_float (v : json) : outcome float :=
  match v with
  | JFloat f => Return f
  | JInt z => float_of_Z z
  | JBool b => Return (if b then float_one else float_zero)
  | JStr s => float_of_str s
  | JNull | JList _ | JDict _ =>
      Raise (Exn TypeError
               (py "float() argument must be a string or a real number, not '"
                ++ type_name v ++ py "'"))
  end.

(** Truthiness of an [Optional[str]]: [not response_json]. *)
Definition falsy (o : option str) : bool :=
  match o with
  | None => true
  | Some [] => true
  | Some (_ :: _) => false
  end.

End Values.

End Rt.

(* ===================================================================== *)
(** * The pydantic models                                                 *)
(* ===================================================================== *)

Module Models.
Import Py Rt.

(** [datetime.date]; ordered as the triple (year, month, day). *)
Record date := Date { year : Z; month : Z; day : Z }.

Definition date_ltb (a b : date) : bool :=
  (year a <? year b)
  || (year a =? year b)
     && ((month a <? month b) || (month a =? month b) && (day a <? day b)).

Definition date_eqb (a b : date) : bool :=
  (year a =? year b) && (month a =? month b) && (day a =? day b).

(** [a <= b] on dates *)
Definition date_leb (a b : date) : bool := date_ltb a b || date_eqb a b.

(** What a caller supplied for a field: nothing, something of the wrong
    shape, or a value of the field's type. *)
Inductive field (A : Type) :=
| Missing
| Invalid
| Given (a : A).
Arguments Missing {A}.
Arguments Invalid {A}.
Arguments Given {A} a.

(** A required field ([Field(...)]). *)
Definition required {A} (f : field A) : option A :=
  match f with Given a => Some a | _ => None end.

(** A field with a default: the default is taken as it is when nothing
    was supplied. *)
Definition defaulted {A} (dflt : A) (ok : A -> bool) (f : field A)
  : option A :=
  match f with
  | Missing => Some dflt
  | Invalid => None
  | Given a => if ok a then Some a else None
  end.

(** ** models.py *)

Inductive PaymentMethod := CARD | CASH | BANK_TRANSFER.

Record GuestInfo := {
  first_name : str;
  last_name : str;
  middle_name : option str;
  phone : str;
  email : str;
}.

Record PaymentInfo := {
  card_number : option str;
  card_holder : option str;
  expiry_month : option Z;
  expiry_year : option Z;
  cvv : option str;
  method : PaymentMethod;
}.

Record BookingRequest := {
  city : str;
  check_in : date;
  check_out : date;
  guests_count : Z;
  min_price : option Z;
  max_price : option Z;
  apartment_type : option str;
  amenities : option (list str);
  district : option str;
  guest_info : GuestInfo;
  payment_info : PaymentInfo;
}.

(** The keyword arguments (or JSON body) a [BookingRequest] is built from. *)
Record BookingRequestInput := {
  in_city : field str;
  in_check_in : field date;
  in_check_out : field date;
  in_guests_count : field Z;
  in_min_price : field (option Z);
  in_max_price : field (option Z);
  in_apartment_type : field (option str);
  in_amenities : field (option (list str));
  in_district : field (option str);
  in_guest_info : field GuestInfo;
  in_payment_info : field PaymentInfo;
}.

(** [@validator('check_out')]: [values] holds the fields validated before
    this one; [check_in] is in it only when it was itself valid. [None]
    stands for the [ValueError]. *)
Definition check_out_after_check_in (v : date) (values_check_in : option date)
  : option date :=
  match values_check_in with
  | Some ci => if date_leb v ci then None else Some v
  | None => Some v
  end.

(** [@validator('max_price')] *)
Definition max_price_greater_than_min (v : option Z)
    (values_min_price : option (option Z)) : option (option Z) :=
  match v, values_min_price with
  | Some x, Some (Some lo) => if x <=? lo then None else Some v
  | _, _ => Some v
  end.

Definition ge0 (o : option Z) : bool :=
  match o with Some x => 0 <=? x | None => true end.

(** Building a [BookingRequest] from keyword data: the fields are validated in declaration
    order, a field validator runs only on a value that passed the field's
    own checks, and the instance exists only when no field failed. *)
Definition BookingRequest_new (i : BookingRequestInput)
  : outcome BookingRequest :=
  let v_city := required (in_city i) in
  let v_check_in := required (in_check_in i) in
  let v_check_out :=
    match required (in_check_out i) with
    | Some v => check_out_after_check_in v v_check_in
    | None => None
    end in
  let v_guests :=
    defaulted 1 (fun g => (1 <=? g) && (g <=? 10)) (in_guests_count i) in
  let v_min := defaulted None ge0 (in_min_price i) in
  let v_max :=
    match in_max_price i with
    | Missing => Some None
    | Invalid => None
    | Given v =>
        if ge0 v then max_price_greater_than_min v v_min else None
    end in
  let v_apartment := defaulted None (fun _ => true) (in_apartment_type i) in
  let v_amenities := defaulted None (fun _ => true) (in_amenities i) in
  let v_district := defaulted None (fun _ => true) (in_district i) in
  let v_guest := required (in_guest_info i) in
  let v_payment := required (in_payment_info i) in
  match v_city, v_check_in, v_check_out, v_guests, v_min, v_max,
        v_apartment, v_amenities, v_district, v_guest, v_payment with
  | Some c, Some ci, Some co, Some g, Some lo, Some hi,
    Some ap, Some am, Some di, Some gi, Some pa =>
      Return {| city := c; check_in := ci; check_out := co;
                guests_count := g; min_price := lo; max_price := hi;
                apartment_type := ap; amenities := am; district := di;
                guest_info := gi; payment_info := pa |}
  | _, _, _, _, _, _, _, _, _, _, _ =>
      Raise (Exn ValidationError (py "validation error for BookingRequest"))
  end.

Record HotelAmenity := { amenity_name : str; available : bool }.

Section WithFloats.
Context `{Floats}.

Record HotelInfo := {
  hotel_id : str;
  title : str;
  description : option str;
  price_per_night : Z;
  total_price : Z;
  rating : option float;
  reviews_count : option Z;
  address : str;
  hotel_district : option str;
  rooms_count : option Z;
  guests_capacity : Z;
  hotel_amenities : list HotelAmenity;
  free_cancellation : bool;
  cancellation_policy : option str;
  photos : list str;
  url : str;
}.

Record HotelRecommendations := {
  hotels : list HotelInfo;
  total_found : Z;
  search_params : BookingRequest;
}.

Record BookingConfirmation := {
  hotel : HotelInfo;
  booking_request : BookingRequest;
  confirmed : bool;
}.

(** [confirmation.confirmed = value] *)
Definition set_confirmed (value : bool) (c : BookingConfirmation)
  : BookingConfirmation :=
  {| hotel := hotel c; booking_request := booking_request c;
     confirmed := value |}.

Record BookingResult := {
  success : bool;
  booking_id : option str;
  confirmation_number : option str;
  total_amount : Z;
  message : str;
  booking_url : option str;
}.

(** [Literal["searching", "completed", "error"]] *)
Inductive status_literal := Searching | Completed | Error.

Record SearchStatus := {
  status : status_literal;
  status_message : str;
  progress : option Z;
}.

Definition parse_status (s : str) : option status_literal :=
  if str_eqb s (py "searching") then Some Searching
  else if str_eqb s (py "completed") then Some Completed
  else if str_eqb s (py "error") then Some Error
  else None.

Definition progress_ok (p : option Z) : bool :=
  match p with Some x => (0 <=? x) && (x <=? 100) | None => true end.

(** [SearchStatus(status=..., message=..., progress=...)] *)
Definition SearchStatus_new (st : str) (msg : str) (pr : option Z)
  : outcome SearchStatus :=
  match parse_status st with
  | Some l =>
      if progress_ok pr
      then Return {| status := l; status_message := msg; progress := pr |}
      else Raise (Exn ValidationError (py "validation error for SearchStatus"))
  | None => Raise (Exn ValidationError (py "validation error for SearchStatus"))
  end.

(** ** models/product.py *)

Record PriceRange := {
  range_min_price : option float;
  range_max_price : option float;
  range_currency : str;
}.

Inductive ProductCategory :=
| ELECTRONICS | CLOTHING | HOME | BEAUTY | SPORTS | BOOKS | TOYS | FOOD | OTHER.

Record ProductRequest := {
  query : str;
  request_city : str;
  category : option ProductCategory;
  price_range : option PriceRange;
  brand : option str;
  features : option (list str);
  exclude_features : option (list str);
  marketplaces : option (list str);
  max_results : Z;
}.

Record Product := {
  name : str;
  product_description : option str;
  price : float;
  currency : str;
  image_url : option str;
  product_url : str;
  marketplace : str;
  product_rating : option float;
  product_reviews_count : option Z;
  product_features : option (list (str * json));
  availability : option str;
}.

Record ProductRecommendation := {
  product : Product;
  relevance_score : float;
  recommendation_reason : str;
}.

Record ProductRecommendationsResponse := {
  recommendations : list ProductRecommendation;
  query_details : ProductRequest;
  additional_questions : option (list str);
}.

End WithFloats.

End Models.

(* ===================================================================== *)
(** * The world the services run in                                       *)
(* ===================================================================== *)

Module Env.
Import Py Rt Models.

Section WithFloats.
Context `{Floats}.

(** An element of [evaluated_products]: [(product, score, reason)]. The
    reason is what [evaluate_product_relevance] returns for it: the
    value found in the LLM's JSON, which need not be a string. *)
Definition evaluated : Type := Product * float * json.

(** References to list objects. *)
Definition loc := positive.

Record World := {
  (** prompts passed to [llm.ainvoke] so far, the latest first *)
  llm_log : list str;
  (** tasks of the [agent.run()] calls so far, the latest first *)
  agent_log : list str;
  (** the list objects callers share with the services *)
  heap : gmap loc (list evaluated);
}.

(** What [agent.run()] returns: per history item, the
    [extracted_content] of each of its results. *)
Definition AgentHistoryList : Type := list (list json).

(** The arguments of the [Product(...)] call of [extract_product_info]. *)
Record ProductArgs := {
  arg_name : json;
  arg_description : json;
  arg_price : float;
  arg_currency : json;
  arg_image_url : json;
  arg_product_url : str;
  arg_marketplace : str;
  arg_rating : json;
  arg_reviews_count : json;
  arg_features : json;
  arg_availability : json;
}.

(** The services outside the repository. The LLM and the agent may answer
    differently each time: their reply depends on the calls made before. *)
Class External := {
  llm_reply : list str -> str -> outcome str;
  agent_reply : list str -> str -> outcome AgentHistoryList;
  json_loads : str -> outcome json;
  (** pydantic validation of constructor arguments that come from JSON *)
  Product_new : ProductArgs -> outcome Product;
  Product_of_json : json -> outcome Product;
  ProductRecommendation_new :
    Product -> json -> json -> outcome ProductRecommendation;
  additional_questions_of_json : json -> outcome (option (list str));
  (** [platilka.utils.prompts] and the serialisers *)
  get_generate_search_query_prompt : ProductRequest -> str;
  get_evaluate_product_relevance_prompt : ProductRequest -> str -> str;
  get_generate_recommendations_prompt : ProductRequest -> str -> Z -> str;
  model_dump_json : Product -> str;
  dumps_products : list evaluated -> str;
  (** the f-strings that describe the agent's tasks *)
  extraction_prompt : str -> ProductRequest -> str;
  search_task : BookingRequest -> str;
  booking_task : HotelInfo -> BookingRequest -> str;
  (** [urlparse(url).netloc] and the marketplace table *)
  _extract_marketplace_name : str -> outcome str;
  (** [str(uuid.uuid4())], by the number of identifiers drawn so far *)
  uuid4 : nat -> str;
  (** [repr(s)] of a string, which is what [str(KeyError(s))] gives *)
  repr_str : str -> str;
  (** [f"Найдено {len(result.hotels)} отелей"] *)
  found_message : nat -> str;
}.

(** Computations: they read and extend the world, and return or raise. *)
Definition M (A : Type) : Type := World -> outcome A * World.

Definition ret {A} (a : A) : M A := fun w => (Return a, w).
Definition raise {A} (e : exn) : M A := fun w => (Raise e, w).
Definition bind {A B} (m : M A) (f : A -> M B) : M B :=
  fun w => match m w with
           | (Return a, w') => f a w'
           | (Raise e, w') => (Raise e, w')
           end.

(** An expression that may raise but has no effect. *)
Definition lift {A} (o : outcome A) : M A := fun w => (o, w).

(** [try: body  except Exception as e: handler] *)
Definition try_except {A} (body : M A) (handler : exn -> M A) : M A :=
  fun w => match body w with
           | (Return a, w') => (Return a, w')
           | (Raise e, w') => handler e w'
           end.

(** A computation that leaves the world as it found it. *)
Definition steady {A} (m : M A) : Prop := ∀ w, (m w).2 = w.

Context `{External}.

(** [await self.llm.ainvoke([HumanMessage(content=prompt)])], giving
    [response.content]. *)
Definition ainvoke (prompt : str) : M str :=
  fun w => (llm_reply (llm_log w) prompt,
            {| llm_log := prompt :: llm_log w;
               agent_log := agent_log w;
               heap := heap w |}).

(** [Agent(task=task, ...)] followed by [await agent.run()]. *)
Definition agent_run (task : str) : M AgentHistoryList :=
  fun w => (agent_reply (agent_log w) task,
            {| llm_log := llm_log w;
               agent_log := task :: agent_log w;
               heap := heap w |}).

(** Reading a list object, and assigning its contents in place. *)
Definition read_list (l : loc) : M (list evaluated) :=
  fun w => (Return (default [] (heap w !! l)), w).

Definition write_list (l : loc) (xs : list evaluated) : M unit :=
  fun w => (Return tt,
            {| llm_log := llm_log w;
               agent_log := agent_log w;
               heap := <[l := xs]> (heap w) |}).

End WithFloats.

#[global] Instance M_ret `{Floats} : MRet M := @ret _.
#[global] Instance M_bind `{Floats} : MBind M := fun A B f m => bind m f.

End Env.

(* ===================================================================== *)
(** * services/product_service.py                                         *)
(* ===================================================================== *)

Module ProductService.
Import Py Re Rt Models Env.

(** [[\s\S]] *)
Definition ANY : cset := CUnion CSpace CNotSpace.

(** The opening and closing markers of a fenced block. *)
Definition FENCE : str := [BACKTICK; BACKTICK; BACKTICK].
Definition FENCE_JSON : str := FENCE ++ py "json".

(** [r"```json\s*([\s\S]*?)\s*```"] *)
Definition json_block_pattern : regex :=
  RCat (RLit FENCE_JSON)
    (RCat (RStar true CSpace)
       (RCat (RGroup (RStar false ANY))
          (RCat (RStar true CSpace) (RLit FENCE)))).

(** [r"(\{[\s\S]*\})"] *)
Definition json_object_pattern : regex :=
  RGroup (RCat (RSet (CChar LBRACE))
            (RCat (RStar true ANY) (RSet (CChar RBRACE)))).

Definition _extract_json_from_text (text : str) : option str :=
  match findall json_block_pattern text with
  | m :: _ => Some (strip m)
  | [] =>
      match findall json_object_pattern text with
      | m :: _ => Some (strip m)
      | [] => None
      end
  end.

Section Service.
Context `{External} `{!Sorting}.

Definition generate_search_query (request : ProductRequest) : M str :=
  let prompt := get_generate_search_query_prompt request in
  content ← ainvoke prompt;
  let search_query :=
    strip (strip_chars [SQUOTE] (strip_chars [DQUOTE] (strip content))) in
  mret search_query.

(** The statements of [evaluate_product_relevance] that follow the
    extraction inside its [try] block. *)
Definition parse_relevance (response_json : str) : outcome (float * json) :=
  data ← json_loads response_json;
  score ← get data (py "relevance_score") (JFloat float_zero);
  relevance_score ← to_float score;
  recommendation_reason ← get data (py "recommendation_reason") (JStr []);
  mret (relevance_score, recommendation_reason).

Definition evaluate_product_relevance (request : ProductRequest)
    (product : Product) : M (float * json) :=
  let prompt :=
    get_evaluate_product_relevance_prompt request (model_dump_json product) in
  content ← ainvoke prompt;
  try_except
    (match _extract_json_from_text content with
     | Some (c :: rest) => lift (parse_relevance (c :: rest))
     | _ =>
         mret (float_zero,
               JStr (py "Не удалось оценить релевантность товара"))
     end)
    (fun e =>
       mret (float_zero, JStr (py "Ошибка при оценке: " ++ exn_str e))).

(** [ProductRecommendation(product=..., relevance_score=...,
    recommendation_reason=...)] on a product: a float and a string are
    values of the declared types and are taken as they are; what the
    validation makes of any other value is the outside's. *)
Definition ProductRecommendation_of (a_product : Product)
    (a_score a_reason : json) : outcome ProductRecommendation :=
  match a_score, a_reason with
  | JFloat f, JStr s =>
      Return {| product := a_product;
                relevance_score := f;
                recommendation_reason := s |}
  | _, _ => ProductRecommendation_new a_product a_score a_reason
  end.

(** The loop of [_fallback_recommendations] that builds the
    recommendations. *)
Fixpoint recommend_all (top_products : list evaluated)
  : outcome (list ProductRecommendation) :=
  match top_products with
  | [] => mret []
  | x :: rest =>
      r ← ProductRecommendation_of x.1.1 (JFloat x.1.2) x.2;
      rs ← recommend_all rest;
      mret (r :: rs)
  end.

Definition _fallback_recommendations (request : ProductRequest)
    (evaluated_products : loc) : M ProductRecommendationsResponse :=
  (* evaluated_products.sort(key=lambda x: x[1], reverse=True) *)
  before ← read_list evaluated_products;
  write_list evaluated_products
    (list_sort (fun x : evaluated => x.1.2) float_ltb true before);;
  (* top_products = evaluated_products[:request.max_results] *)
  sorted ← read_list evaluated_products;
  let top_products := slice_to sorted (max_results request) in
  recommendations ← lift (recommend_all top_products);
  mret {| recommendations := recommendations;
          query_details := request;
          additional_questions := Some [] |}.

(** [for rec_data in v]: what iterating over a JSON value yields. *)
Definition iterate (v : json) : outcome (list json) :=
  match v with
  | JList l => Return l
  | JDict d => Return (map (fun kv => JStr kv.1) d)
  | JStr s => Return (map (fun c => JStr [c]) s)
  | _ =>
      Raise (Exn TypeError
               (py "'" ++ type_name v ++ py "' object is not iterable"))
  end.

(** One turn of the loop that collects the [ProductRecommendation]s. *)
Definition recommendation_of (rec_data : json)
  : outcome ProductRecommendation :=
  product_data ← get rec_data (py "product") (JDict []);
  product ← Product_of_json product_data;
  score ← get rec_data (py "relevance_score") (JFloat float_zero);
  reason ← get rec_data (py "recommendation_reason") (JStr []);
  ProductRecommendation_of product score reason.

Fixpoint collect (items : list json) : outcome (list ProductRecommendation) :=
  match items with
  | [] => mret []
  | rec_data :: items' =>
      r ← recommendation_of rec_data;
      rs ← collect items';
      mret (r :: rs)
  end.

(** The statements of [generate_recommendations] that follow the
    extraction inside its [try] block. *)
Definition parse_response (request : ProductRequest) (response_json : str)
  : outcome ProductRecommendationsResponse :=
  data ← json_loads response_json;
  recs ← get data (py "recommendations") (JList []);
  items ← iterate recs;
  recommendations ← collect items;
  questions ← get data (py "additional_questions") (JList []);
  additional ← additional_questions_of_json questions;
  mret {| recommendations := recommendations;
          query_details := request;
          additional_questions := additional |}.

Definition generate_recommendations (request : ProductRequest)
    (evaluated_products : loc) : M ProductRecommendationsResponse :=
  products ← read_list evaluated_products;
  let prompt :=
    get_generate_recommendations_prompt request (dumps_products products)
      (max_results request) in
  content ← ainvoke prompt;
  try_except
    (match _extract_json_from_text content with
     | Some (c :: rest) => lift (parse_response request (c :: rest))
     | _ => _fallback_recommendations request evaluated_products
     end)
    (fun e => _fallback_recommendations request evaluated_products).

End Service.

End ProductService.

(* ===================================================================== *)
(** * services/broswer_service.py                                         *)
(* ===================================================================== *)

Module BrowserService.
Import Py Rt Models Env.

Section Service.
Context `{External}.

(** [l[-1]] and [l[0]] *)
Definition last_item {A} (l : list A) : outcome A :=
  match last l with
  | Some x => Return x
  | None => Raise (Exn IndexError (py "list index out of range"))
  end.

Definition first_item {A} (l : list A) : outcome A :=
  match l with
  | x :: _ => Return x
  | [] => Raise (Exn IndexError (py "list index out of range"))
  end.

(** [try: body  except json.JSONDecodeError as e: handler], around
    statements without effect. *)
Definition try_except_json {A} (body : outcome A) (handler : exn -> outcome A)
  : outcome A :=
  match body with
  | Raise (Exn JSONDecodeError msg) => handler (Exn JSONDecodeError msg)
  | r => r
  end.

(** The JSON text inside the agent's answer; [None] is the early
    [return None]. *)
Definition locate_json (extracted_content : str) : option str :=
  let start_idx := find extracted_content [LBRACE] in
  let end_idx := rfind extracted_content [RBRACE] + 1 in
  if negb (start_idx =? -1) && negb (end_idx =? 0)
  then Some (slice extracted_content start_idx end_idx)
  else None.

(** The keyword arguments of [Product(...)], evaluated left to right. *)
Definition product_args (url : str) (product_data : json)
  : outcome ProductArgs :=
  a_name ← get product_data (py "name") (JStr []);
  a_description ← get product_data (py "description") JNull;
  raw_price ← get product_data (py "price") (JInt 0);
  a_price ← to_float raw_price;
  a_currency ← get product_data (py "currency") (JStr (py "RUB"));
  a_image_url ← get product_data (py "image_url") JNull;
  a_marketplace ← _extract_marketplace_name url;
  a_rating ← get product_data (py "rating") JNull;
  a_reviews_count ← get product_data (py "reviews_count") JNull;
  a_features ← get product_data (py "features") JNull;
  a_availability ← get product_data (py "availability") JNull;
  mret {| arg_name := a_name;
          arg_description := a_description;
          arg_price := a_price;
          arg_currency := a_currency;
          arg_image_url := a_image_url;
          arg_product_url := url;
          arg_marketplace := a_marketplace;
          arg_rating := a_rating;
          arg_reviews_count := a_reviews_count;
          arg_features := a_features;
          arg_availability := a_availability |}.

(** A coroutine of the service, as far as awaiting goes: it has ended,
    or it is suspended in [await agent.run()] for the task it gave the
    agent, and goes on with what the run ends with. *)
Inductive coro (A : Type) :=
| Ended (o : outcome A)
| AwaitRun (task : str) (k : outcome AgentHistoryList -> coro A).
Arguments Ended {A} o.
Arguments AwaitRun {A} task k.

(** [try: body  except Exception as e: handler] in a coroutine. *)
Fixpoint coro_try {A} (body : coro A) (handler : exn -> coro A) : coro A :=
  match body with
  | Ended (Return a) => Ended (Return a)
  | Ended (Raise e) => handler e
  | AwaitRun task k => AwaitRun task (fun o => coro_try (k o) handler)
  end.

(** [await c] by a caller that does nothing else meanwhile: every run
    the coroutine awaits is started when it is reached. *)
Fixpoint await {A} (c : coro A) : M A :=
  match c with
  | Ended o => lift o
  | AwaitRun task k =>
      fun w => let r := agent_run task w in await (k r.1) r.2
  end.

(** The statements of [extract_product_info] that follow
    [await agent.run()]. *)
Definition read_product (url : str) (result : AgentHistoryList)
  : outcome (option Product) :=
  (* result.history[-1].result[0].extracted_content *)
  item ← last_item result;
  extracted_content ← first_item item;
  try_except_json
    (found ←
       match extracted_content with
       | JStr content =>
           match locate_json content with
           | Some json_str =>
               product_data ← json_loads json_str;
               mret (Some product_data)
           | None => mret None
           end
       | other => mret (Some other)
       end;
     match found with
     | None => mret None
     | Some product_data =>
         args ← product_args url product_data;
         product ← Product_new args;
         mret (Some product)
     end)
    (fun e => Raise e).

(** The coroutine [extract_product_info(url, request)]. *)
Definition extract_product_info_coro (url : str) (request : ProductRequest)
  : coro (option Product) :=
  coro_try
    (AwaitRun (extraction_prompt url request)
       (fun o => Ended (result ← o; read_product url result)))
    (fun e => Ended (Raise e)).

(** [await self.extract_product_info(url, request)] *)
Definition extract_product_info (url : str) (request : ProductRequest)
  : M (option Product) :=
  await (extract_product_info_coro url request).

(** The inner coroutine of [extract_multiple_products]. *)
Definition extract_single_product (request : ProductRequest) (url : str)
  : coro (option Product) :=
  coro_try (extract_product_info_coro url request)
    (fun e => Ended (Return None)).

(** A task of the event loop: its coroutine has ended, or it is suspended
    while the agent runs on [task]; [reply] is what that run will end
    with. *)
Inductive task_state (A : Type) :=
| Done (o : outcome A)
| Running (task : str) (reply : outcome AgentHistoryList)
    (k : outcome AgentHistoryList -> coro A).
Arguments Done {A} o.
Arguments Running {A} task reply k.

(** The tasks of a [gather], and the exception of the task that was the
    first to raise. *)
Record gathering (A : Type) := Gathering {
  tasks : list (task_state A);
  raised : option exn;
}.
Arguments Gathering {A} tasks raised.
Arguments tasks {A} g.
Arguments raised {A} g.

(** A step of a task: its coroutine goes on until it ends or awaits a
    run, which starts the agent. *)
Definition step {A} (c : coro A) (w : World) : task_state A * World :=
  match c with
  | Ended o => (Done o, w)
  | AwaitRun task k =>
      let r := agent_run task w in (Running task r.1 k, r.2)
  end.

(** The exception a task ended with, unless one was raised before. *)
Definition note {A} (before : option exn) (t : task_state A) : option exn :=
  match before, t with
  | None, Done (Raise e) => Some e
  | _, _ => before
  end.

(** What [asyncio.gather] sets going: it wraps every coroutine in a
    task, and the loop gives the tasks their first step in the order
    given. No run that was awaited can end before that: the first steps
    are all in the loop's queue when the caller is suspended, and the
    loop looks at what has ended only after them. *)
Fixpoint launch_from {A} (started : gathering A) (coros : list (coro A))
    (w : World) : gathering A * World :=
  match coros with
  | [] => (started, w)
  | c :: coros' =>
      let r := step c w in
      launch_from
        {| tasks := tasks started ++ [r.1];
           raised := note (raised started) r.1 |}
        coros' r.2
  end.

Definition launch {A} (coros : list (coro A)) (w : World)
  : gathering A * World :=
  launch_from {| tasks := []; raised := None |} coros w.

(** The run task [i] waits for ends, and the task takes its next step. *)
Definition resume {A} (i : nat) (s : gathering A * World)
  : gathering A * World :=
  match tasks s.1 !! i with
  | Some (Running _ reply k) =>
      let r := step (k reply) s.2 in
      ({| tasks := <[i := r.1]> (tasks s.1);
          raised := note (raised s.1) r.1 |}, r.2)
  | _ => s
  end.

(** The runs that are under way at once. *)
Fixpoint in_flight {A} (ts : list (task_state A)) : nat :=
  match ts with
  | [] => 0
  | Running _ _ _ :: ts' => S (in_flight ts')
  | Done _ :: ts' => in_flight ts'
  end.

(** The results of the tasks, when all of them have returned. *)
Fixpoint returned {A} (ts : list (task_state A)) : option (list A) :=
  match ts with
  | [] => Some []
  | Done (Return a) :: ts' => cons a <$> returned ts'
  | _ :: _ => None
  end.

(** [await asyncio.gather] over the coroutines, with
    [return_exceptions=False], the runs
    ending in the order [order] (task numbers, from 0), which the outside
    decides: the first exception a task raises is raised at once; the
    results come back, in the order of the coroutines, when every task
    has returned; [None] when the caller is still suspended after the
    runs of [order] have ended. *)
Definition gather {A} (coros : list (coro A)) (order : list nat) (w : World)
  : option (outcome (list A)) * World :=
  let s := foldl (fun s i => resume i s) (launch coros w) order in
  (match raised s.1 with
   | Some e => Some (Raise e)
   | None => Return <$> returned (tasks s.1)
   end, s.2).

Definition extract_multiple_products (urls : list str)
    (request : ProductRequest) (order : list nat) (w : World)
  : option (outcome (list Product)) * World :=
  let coros := map (extract_single_product request) urls in
  let r := gather coros order w in
  (match r.1 with
   | Some (Return results) =>
       (* [product for product in results if product is not None] *)
       Some (Return (omap (fun product => product) results))
   | Some (Raise e) => Some (Raise e)
   | None => None
   end, r.2).

End Service.

Arguments Ended {_ _} _.
Arguments AwaitRun {_ _} _ _.
Arguments Done {_ _} _.
Arguments Running {_ _} _ _ _.
Arguments Gathering {_ _} _ _.
Arguments tasks {_ _} _.
Arguments raised {_ _} _.

End BrowserService.

(* ===================================================================== *)
(** * sutochno_service.py                                                 *)
(* ===================================================================== *)

Module SutochnoService.
Import Py Rt Models Env.

Section Service.
Context `{External}.

(** The instance: [self.agent] is [None] until [init_agent_with_task]
    creates one; an agent carries its task. *)
Record Service := { agent : option str }.

Definition init_agent_with_task (self : Service) (task : str) : Service :=
  {| agent := Some task |}.

Definition _parse_search_results (agent_result : AgentHistoryList)
    (booking_request : BookingRequest) : M (list HotelInfo) :=
  let hotels := [] in
  try_except (mret tt) (fun e => mret tt);;
  mret hotels.

Definition _parse_booking_result (agent_result : AgentHistoryList)
    (hotel : HotelInfo) (booking_request : BookingRequest) : M BookingResult :=
  try_except
    (mret {| success := false;
             booking_id := None;
             confirmation_number := None;
             total_amount := total_price hotel;
             message :=
               py "Парсинг результата бронирования пока не реализован";
             booking_url := None |})
    (fun e =>
       mret {| success := false;
               booking_id := None;
               confirmation_number := None;
               total_amount := total_price hotel;
               message := py "Ошибка при парсинге результата: " ++ exn_str e;
               booking_url := None |}).

Definition search_hotels (self : Service) (booking_request : BookingRequest)
  : M (HotelRecommendations * Service) :=
  try_except
    (let self' := init_agent_with_task self (search_task booking_request) in
     result ← agent_run (search_task booking_request);
     hotels ← _parse_search_results result booking_request;
     mret ({| hotels := hotels;
              total_found := Z.of_nat (length hotels);
              search_params := booking_request |}, self'))
    (fun e => raise e).

Definition book_hotel (self : Service) (hotel : HotelInfo)
    (booking_request : BookingRequest) : M (BookingResult * Service) :=
  try_except
    ((* self.agent.task = booking_task *)
     match agent self with
     | None =>
         raise (Exn AttributeError
                  (py "'NoneType' object has no attribute 'task'"))
     | Some _ =>
         let self' := {| agent := Some (booking_task hotel booking_request) |} in
         result ← agent_run (booking_task hotel booking_request);
         booking_result ← _parse_booking_result result hotel booking_request;
         mret (booking_result, self')
     end)
    (fun e =>
       mret ({| success := false;
                booking_id := None;
                confirmation_number := None;
                total_amount := total_price hotel;
                message := py "Ошибка при бронировании: " ++ exn_str e;
                booking_url := None |}, self)).

End Service.

End SutochnoService.

(* ===================================================================== *)
(** * api.py                                                              *)
(* ===================================================================== *)

Module Api.
Import Py Rt Models Env.

(** What a route handler does: it returns a body, raises an
    [HTTPException], or fails with another exception. *)
Inductive response (A : Type) :=
| Ok (body : A)
| HTTPException (status_code : Z) (detail : str)
| Failed (e : exn).
Arguments Ok {A} body.
Arguments HTTPException {A} status_code detail.
Arguments Failed {A} e.

Section Handlers.
Context `{External}.

(** The dictionary stored under a task identifier. *)
Record TaskData := {
  task_status : str;
  task_progress : Z;
  task_message : str;
  task_booking_request : BookingRequest;
  task_result : option HotelRecommendations;
  task_error : option str;
  task_created_at : Z;
}.

(** The module-level state: the two dictionaries, the number of
    identifiers drawn from [uuid4], and the background tasks that were
    added and have not run yet. A [BookingConfirmation] is referenced from
    [booking_confirmations] only, so the dictionary holds the object. *)
Record Stores := {
  search_tasks : gmap str TaskData;
  booking_confirmations : gmap str BookingConfirmation;
  uuids_drawn : nat;
  background : list (str * BookingRequest);
}.

(** The service a handler receives through [Depends]. *)
Record ServiceObj := {
  svc_search_hotels : BookingRequest -> M HotelRecommendations;
  svc_book_hotel : HotelInfo -> BookingRequest -> M BookingResult;
}.

(** [async with SutochnoService() as service: yield service]: every
    request gets an instance of its own, whose [agent] is still [None]. *)
Definition get_sutochno_service : ServiceObj :=
  let self := {| SutochnoService.agent := None |} in
  {| svc_search_hotels :=
       fun booking_request =>
         r ← SutochnoService.search_hotels self booking_request; mret r.1;
     svc_book_hotel :=
       fun hotel booking_request =>
         r ← SutochnoService.book_hotel self hotel booking_request;
         mret r.1 |}.

(** [search_tasks[task_id][...] = ...]; no handler removes a key. *)
Definition update_task (task_id : str) (f : TaskData -> TaskData)
    (st : Stores) : Stores :=
  {| search_tasks := alter f task_id (search_tasks st);
     booking_confirmations := booking_confirmations st;
     uuids_drawn := uuids_drawn st;
     background := background st |}.

Definition set_status (v : str) (t : TaskData) : TaskData :=
  {| task_status := v; task_progress := task_progress t;
     task_message := task_message t;
     task_booking_request := task_booking_request t;
     task_result := task_result t; task_error := task_error t;
     task_created_at := task_created_at t |}.

Definition set_progress (v : Z) (t : TaskData) : TaskData :=
  {| task_status := task_status t; task_progress := v;
     task_message := task_message t;
     task_booking_request := task_booking_request t;
     task_result := task_result t; task_error := task_error t;
     task_created_at := task_created_at t |}.

Definition set_message (v : str) (t : TaskData) : TaskData :=
  {| task_status := task_status t; task_progress := task_progress t;
     task_message := v;
     task_booking_request := task_booking_request t;
     task_result := task_result t; task_error := task_error t;
     task_created_at := task_created_at t |}.

Definition set_result (v : option HotelRecommendations) (t : TaskData)
  : TaskData :=
  {| task_status := task_status t; task_progress := task_progress t;
     task_message := task_message t;
     task_booking_request := task_booking_request t;
     task_result := v; task_error := task_error t;
     task_created_at := task_created_at t |}.

Definition set_error (v : option str) (t : TaskData) : TaskData :=
  {| task_status := task_status t; task_progress := task_progress t;
     task_message := task_message t;
     task_booking_request := task_booking_request t;
     task_result := task_result t; task_error := v;
     task_created_at := task_created_at t |}.

(** [POST /search/start]; [today] and [now] are the clock readings. *)
Definition start_search (booking_request : BookingRequest)
    (today : date) (now : Z) (st : Stores) : response (str * str) * Stores :=
  if date_leb (check_in booking_request) today
  then (HTTPException 400
          (py "Дата заезда должна быть не раньше завтрашнего дня"), st)
  else if date_leb (check_out booking_request) (check_in booking_request)
  then (HTTPException 400
          (py "Дата выезда должна быть позже даты заезда"), st)
  else
    let task_id := uuid4 (uuids_drawn st) in
    let task :=
      {| task_status := py "searching";
         task_progress := 0;
         task_message := py "Начинаем поиск отелей...";
         task_booking_request := booking_request;
         task_result := None;
         task_error := None;
         task_created_at := now |} in
    (Ok (task_id, py "Поиск запущен"),
     {| search_tasks := <[task_id := task]> (search_tasks st);
        booking_confirmations := booking_confirmations st;
        uuids_drawn := S (uuids_drawn st);
        background := background st ++ [(task_id, booking_request)] |}).

(** The background task. On a [task_id] that is not stored, the first
    assignment raises [KeyError] in the [try], and the first assignment
    of the handler raises it once more: the service is not called. *)
Definition perform_search (task_id : str) (booking_request : BookingRequest)
    (service : ServiceObj) (st : Stores) : M Stores :=
  match search_tasks st !! task_id with
  | None => raise (Exn KeyError (repr_str task_id))
  | Some _ =>
      let st1 := update_task task_id (set_progress 10) st in
      let st2 := update_task task_id (set_message (py "Открываем браузер...")) st1 in
      let st3 := update_task task_id (set_progress 30) st2 in
      let st4 :=
        update_task task_id (set_message (py "Ищем отели на sutochno.ru...")) st3 in
      try_except
        (result ← svc_search_hotels service booking_request;
         let st5 := update_task task_id (set_status (py "completed")) st4 in
         let st6 := update_task task_id (set_progress 100) st5 in
         let st7 :=
           update_task task_id
             (set_message (found_message (length (hotels result)))) st6 in
         mret (update_task task_id (set_result (Some result)) st7))
        (fun e =>
           let st5 := update_task task_id (set_status (py "error")) st4 in
           let st6 :=
             update_task task_id
               (set_message (py "Ошибка при поиске: " ++ exn_str e)) st5 in
           mret (update_task task_id (set_error (Some (exn_str e))) st6))
  end.

(** [GET /search/{task_id}/status] *)
Definition get_search_status (task_id : str) (st : Stores)
  : response SearchStatus :=
  match search_tasks st !! task_id with
  | None => HTTPException 404 (py "Задача поиска не найдена")
  | Some task_data =>
      match SearchStatus_new (task_status task_data) (task_message task_data)
              (Some (task_progress task_data)) with
      | Return s => Ok s
      | Raise e => Failed e
      end
  end.

(** [GET /search/{task_id}/results] *)
Definition get_search_results (task_id : str) (st : Stores)
  : response HotelRecommendations :=
  match search_tasks st !! task_id with
  | None => HTTPException 404 (py "Задача поиска не найдена")
  | Some task_data =>
      if str_eqb (task_status task_data) (py "searching")
      then HTTPException 202 (py "Поиск еще выполняется")
      else if str_eqb (task_status task_data) (py "error")
      then HTTPException 500
             (py "Ошибка при поиске: " ++ default (py "None") (task_error task_data))
      else match task_result task_data with
           | None => HTTPException 404 (py "Результаты не найдены")
           | Some result => Ok result
           end
  end.

(** [POST /booking/confirm] *)
Definition confirm_booking (hotel_id_arg task_id : str)
    (booking_request : BookingRequest) (st : Stores)
  : response (str * BookingConfirmation) * Stores :=
  match search_tasks st !! task_id with
  | None => (HTTPException 404 (py "Задача поиска не найдена"), st)
  | Some task_data =>
      match str_eqb (task_status task_data) (py "completed"),
            task_result task_data with
      | true, Some result =>
          match List.find (fun h => str_eqb (hotel_id h) hotel_id_arg)
                  (hotels result) with
          | None =>
              (HTTPException 404 (py "Отель не найден в результатах поиска"),
               st)
          | Some selected_hotel =>
              let confirmation_id := uuid4 (uuids_drawn st) in
              let confirmation :=
                {| hotel := selected_hotel;
                   booking_request := booking_request;
                   confirmed := false |} in
              (Ok (confirmation_id, confirmation),
               {| search_tasks := search_tasks st;
                  booking_confirmations :=
                    <[confirmation_id := confirmation]>
                      (booking_confirmations st);
                  uuids_drawn := S (uuids_drawn st);
                  background := background st |})
          end
      | _, _ =>
          (HTTPException 400
             (py "Поиск не завершен или отсутствуют результаты"), st)
      end
  end.

(** [POST /booking/{confirmation_id}/execute] *)
Definition execute_booking (confirmation_id : str) (service : ServiceObj)
    (st : Stores) : M (response BookingResult * Stores) :=
  match booking_confirmations st !! confirmation_id with
  | None =>
      mret (HTTPException 404 (py "Подтверждение бронирования не найдено"),
            st)
  | Some confirmation =>
      try_except
        (result ←
           svc_book_hotel service (hotel confirmation)
             (booking_request confirmation);
         (* confirmation.confirmed = True *)
         let st' :=
           {| search_tasks := search_tasks st;
              booking_confirmations :=
                <[confirmation_id := set_confirmed true confirmation]>
                  (booking_confirmations st);
              uuids_drawn := uuids_drawn st;
              background := background st |} in
         mret (Ok result, st'))
        (fun e => mret (HTTPException 500 (exn_str e), st))
  end.

(** [GET /booking/{confirmation_id}] *)
Definition get_booking_confirmation (confirmation_id : str) (st : Stores)
  : response BookingConfirmation :=
  match booking_confirmations st !! confirmation_id with
  | None => HTTPException 404 (py "Подтверждение бронирования не найдено")
  | Some confirmation => Ok confirmation
  end.

(** [DELETE /search/{task_id}] *)
Definition cancel_search (task_id : str) (st : Stores)
  : response str * Stores :=
  match search_tasks st !! task_id with
  | None => (HTTPException 404 (py "Задача поиска не найдена"), st)
  | Some _ =>
      let st1 := update_task task_id (set_status (py "cancelled")) st in
      let st2 :=
        update_task task_id (set_message (py "Поиск отменен пользователем"))
          st1 in
      (Ok (py "Поиск отменен"), st2)
  end.

End Handlers.

End Api.

(* ===================================================================== *)
(** * Reference notions the statements are phrased with                   *)
(* ===================================================================== *)

Module Spec.
Import Py Re Rt Models Env ProductService.

(** [sub] occurs in [s] between [pre] and [post], and nowhere further
    left (resp. further right). *)
Definition first_occurrence (sub s pre post : str) : Prop :=
  s = pre ++ sub ++ post ∧
  ∀ pre' post', s = pre' ++ sub ++ post' → (length pre ≤ length pre')%nat.

Definition last_occurrence (sub s pre post : str) : Prop :=
  s = pre ++ sub ++ post ∧
  ∀ pre' post', s = pre' ++ sub ++ post' → (length pre' ≤ length pre)%nat.

(** The text holds a fenced block: the opening marker followed, somewhere
    later, by the closing one. *)
Definition has_block (text : str) : Prop :=
  ∃ pre body post, text = pre ++ FENCE_JSON ++ body ++ FENCE ++ post.

(** The text holds an opening brace and, later, a closing one. *)
Definition has_object (text : str) : Prop :=
  ∃ pre mid post, text = pre ++ [LBRACE] ++ mid ++ [RBRACE] ++ post.

(** [s.partition(sub)] and [s.rpartition(sub)], as options: the text
    before and after the first (last) occurrence of [sub]. *)
Fixpoint split_first (sub s : str) : option (str * str) :=
  match strip_prefix sub s with
  | Some r => Some ([], r)
  | None =>
      match s with
      | [] => None
      | c :: s' =>
          match split_first sub s' with
          | Some (p, r) => Some (c :: p, r)
          | None => None
          end
      end
  end.

Fixpoint split_last (sub s : str) : option (str * str) :=
  match s with
  | [] => match strip_prefix sub [] with Some r => Some ([], r) | None => None end
  | c :: s' =>
      match split_last sub s' with
      | Some (p, r) => Some (c :: p, r)
      | None =>
          match strip_prefix sub s with
          | Some r => Some ([], r)
          | None => None
          end
      end
  end.

(** The characters [generate_search_query] may trim: whitespace and the
    two quote characters. *)
Definition trimmed (c : codepoint) : bool :=
  isspace c || (c =? DQUOTE)%N || (c =? SQUOTE)%N.

(** Whether [u], after leading whitespace, goes on with the closing
    marker, and what follows it; and the first position of [t] from which
    that is so. *)
Definition closes (u : str) : option str :=
  strip_prefix FENCE (dropwhile isspace u).

Fixpoint first_close (t : str) : option (nat * str) :=
  match closes t with
  | Some rest => Some (O, rest)
  | None =>
      match t with
      | [] => None
      | _ :: t' =>
          match first_close t' with
          | Some (n, rest) => Some (S n, rest)
          | None => None
          end
      end
  end.

Section Recommendations.
Context `{External} `{!Sorting}.

(** The score of an evaluated triple. *)
Definition score (x : evaluated) : float := x.1.2.

(** The recommendation carries the triple's product, score and reason
    unchanged. *)
Definition carries (x : evaluated) (r : ProductRecommendation) : Prop :=
  product r = x.1.1
  ∧ relevance_score r = x.1.2
  ∧ x.2 = JStr (recommendation_reason r).

(** The reason of the triple is a string, as the annotation of
    [evaluated_products] promises. *)
Definition reason_is_str (x : evaluated) : Prop := ∃ s, x.2 = JStr s.

(** No triple is followed by one with a greater score. *)
Definition descending (xs : list evaluated) : Prop :=
  StronglySorted (λ a b, float_ltb (score a) (score b) = false) xs.

(** The scores of the triples compare as numbers do: on them [<] is
    asymmetric and "not less than" is transitive. A NaN among scores
    that differ breaks it. *)
Definition comparable_scores (xs : list evaluated) : Prop :=
  ordered_keys score float_ltb xs.

(** The LLM's answer sends [generate_recommendations] to the fallback: no
    JSON text is found in it (or an empty one), or the statements that
    parse it raise. *)
Definition takes_fallback (request : ProductRequest) (content : str) : Prop :=
  match _extract_json_from_text content with
  | Some (c :: rest) => ∃ e, parse_response request (c :: rest) = Raise e
  | _ => True
  end.

End Recommendations.

Section Extractions.
Context `{External}.

(** What each per-URL extraction does, the tasks being started one after
    the other. *)
Fixpoint extraction_outcomes (request : ProductRequest) (urls : list str)
    (w : World) : list (outcome (option Product)) :=
  match urls with
  | [] => []
  | url :: urls' =>
      let r := BrowserService.extract_product_info url request w in
      r.1 :: extraction_outcomes request urls' r.2
  end.

(** The world after one extraction: the agent has run once more. *)
Definition after_extraction (url : str) (request : ProductRequest)
    (w : World) : World :=
  {| llm_log := llm_log w;
     agent_log := extraction_prompt url request :: agent_log w;
     heap := heap w |}.

(** The product of an extraction that succeeded. *)
Definition succeeded (o : outcome (option Product)) : option Product :=
  match o with
  | Return (Some p) => Some p
  | _ => None
  end.

End Extractions.

End Spec.

(* ===================================================================== *)
(** * A small world to run the services in                                *)
(* ===================================================================== *)

Module Demo.
Import Py Rt Models Env.

(** Scores that are integers. *)
Definition floats : Floats :=
  {| float := Z;
     float_ltb := Z.ltb;
     float_zero := 0;
     float_one := 1;
     float_of_Z := Return;
     float_of_str :=
       fun _ => Raise (Exn ValueError (py "could not convert string to float")) |}.

(** Scores that are integers or NaN ([None]), which is neither less nor
    greater than anything. *)
Definition floats_nan : Floats :=
  {| float := option Z;
     float_ltb :=
       fun a b =>
         match a, b with Some x, Some y => x <? y | _, _ => false end;
     float_zero := Some 0;
     float_one := Some 1;
     float_of_Z := fun z => Return (Some z);
     float_of_str :=
       fun _ => Raise (Exn ValueError (py "could not convert string to float")) |}.

Section Over.
Context (F : Floats).

(** An LLM that echoes its prompt, prompts that are the query of the
    request, a JSON parser that knows the empty object only, and an agent
    that answers with its task unless the task is "offline". *)
Definition external_over : @External F :=
  {| llm_reply := fun _ prompt => Return prompt;
     agent_reply :=
       fun _ task =>
         if str_eqb task (py "offline")
         then Raise (Exn ServiceError (py "browser closed"))
         else Return [[@JStr F task]];
     json_loads :=
       fun s =>
         if str_eqb s (py "{}") then Return (@JDict F [])
         else Raise (Exn JSONDecodeError (py "Expecting value"));
     Product_new :=
       fun _ => Raise (Exn ValidationError (py "validation error for Product"));
     Product_of_json :=
       fun _ => Raise (Exn ValidationError (py "validation error for Product"));
     ProductRecommendation_new :=
       fun p _ _ =>
         Raise (Exn ValidationError
                  (py "validation error for ProductRecommendation"));
     additional_questions_of_json := fun _ => Return None;
     get_generate_search_query_prompt := fun request => query request;
     get_evaluate_product_relevance_prompt := fun request _ => query request;
     get_generate_recommendations_prompt := fun request _ _ => query request;
     model_dump_json := fun p => name p;
     dumps_products := fun _ => [];
     extraction_prompt := fun url _ => url;
     search_task := fun b => city b;
     booking_task := fun h _ => title h;
     _extract_marketplace_name := fun url => Return url;
     uuid4 := fun n => py "id-" ++ replicate n 49%N;
     repr_str := fun s => py "'" ++ s ++ py "'";
     found_message := fun _ => py "found" |}.

Definition request_over (q : string) (n : Z) : @ProductRequest F :=
  {| query := py q; request_city := py "Kazan"; category := None;
     price_range := None; brand := None; features := None;
     exclude_features := None; marketplaces := None; max_results := n |}.

Definition item_over (n : string) (p : float) : @Product F :=
  {| name := py n; product_description := None; price := p;
     currency := py "RUB"; image_url := None; product_url := py "https://x";
     marketplace := py "x"; product_rating := None;
     product_reviews_count := None; product_features := None;
     availability := None |}.

End Over.

#[local] Existing Instance floats.

Definition sorting : Sorting := insertion_sorting.

Definition external : @External floats := external_over floats.

Definition request (q : string) (n : Z) : @ProductRequest floats :=
  request_over floats q n.

Definition item (n : string) : @Product floats := item_over floats n 100.

(** The same outside, with a [Product] model that accepts what it is
    given: the product is named "found" and has the price it was given. *)
Definition shop_external : @External floats :=
  {| llm_reply := @llm_reply _ external;
     agent_reply := @agent_reply _ external;
     json_loads := @json_loads _ external;
     Product_new := fun a => Return (item_over floats "found" (arg_price a));
     Product_of_json := @Product_of_json _ external;
     ProductRecommendation_new := @ProductRecommendation_new _ external;
     additional_questions_of_json := @additional_questions_of_json _ external;
     get_generate_search_query_prompt :=
       @get_generate_search_query_prompt _ external;
     get_evaluate_product_relevance_prompt :=
       @get_evaluate_product_relevance_prompt _ external;
     get_generate_recommendations_prompt :=
       @get_generate_recommendations_prompt _ external;
     model_dump_json := @model_dump_json _ external;
     dumps_products := @dumps_products _ external;
     extraction_prompt := @extraction_prompt _ external;
     search_task := @search_task _ external;
     booking_task := @booking_task _ external;
     _extract_marketplace_name := @_extract_marketplace_name _ external;
     uuid4 := @uuid4 _ external;
     repr_str := @repr_str _ external;
     found_message := @found_message _ external |}.

Definition triples : list (@evaluated floats) :=
  [(item "a", 1, JStr (py "fair")); (item "b", 3, JStr (py "best"));
   (item "c", 2, JStr (py "good"))].

(** Three triples, the second with a score that is NaN. *)
Definition triples_nan : list (@evaluated floats_nan) :=
  [(item_over floats_nan "a" (Some 100), Some 1, @JStr floats_nan (py "fair"));
   (item_over floats_nan "b" (Some 100), None, @JStr floats_nan (py "unknown"));
   (item_over floats_nan "c" (Some 100), Some 2, @JStr floats_nan (py "good"))].

Definition world_nan : @World floats_nan :=
  {| llm_log := []; agent_log := []; heap := {[ 1%positive := triples_nan ]} |}.

Definition world : @World floats :=
  {| llm_log := []; agent_log := []; heap := {[ 1%positive := triples ]} |}.

Definition guest : GuestInfo :=
  {| first_name := py "Ivan"; last_name := py "Ivanov"; middle_name := None;
     phone := py "+70000000000"; email := py "ivan@example.com" |}.

Definition payment : PaymentInfo :=
  {| card_number := None; card_holder := None; expiry_month := None;
     expiry_year := None; cvv := None; method := CASH |}.

Definition booking (ci co : date) : BookingRequest :=
  {| city := py "Kazan"; check_in := ci; check_out := co; guests_count := 2;
     min_price := None; max_price := None; apartment_type := None;
     amenities := None; district := None; guest_info := guest;
     payment_info := payment |}.

Definition booking_input (ci co : date) : BookingRequestInput :=
  {| in_city := Given (py "Kazan"); in_check_in := Given ci;
     in_check_out := Given co; in_guests_count := Given 2;
     in_min_price := Missing; in_max_price := Missing;
     in_apartment_type := Missing; in_amenities := Missing;
     in_district := Missing; in_guest_info := Given guest;
     in_payment_info := Given payment |}.

Definition flat : @HotelInfo floats :=
  {| hotel_id := py "h1"; title := py "Flat"; description := None;
     price_per_night := 3000; total_price := 9000; rating := None;
     reviews_count := None; address := py "Pushkin st. 10";
     hotel_district := None; rooms_count := None; guests_capacity := 4;
     hotel_amenities := []; free_cancellation := true;
     cancellation_policy := None; photos := []; url := py "https://y" |}.

Definition task : @Api.TaskData floats :=
  {| Api.task_status := py "searching";
     Api.task_progress := 30;
     Api.task_message := py "Ищем отели на sutochno.ru...";
     Api.task_booking_request := booking (Date 2030 5 10) (Date 2030 5 12);
     Api.task_result := None;
     Api.task_error := None;
     Api.task_created_at := 0 |}.

(** One running search and one confirmation waiting to be executed. *)
Definition stores : @Api.Stores floats :=
  {| Api.search_tasks := {[ py "t1" := task ]};
     Api.booking_confirmations :=
       {[ py "c1" :=
            {| hotel := flat;
               booking_request := booking (Date 2030 5 10) (Date 2030 5 12);
               confirmed := false |} ]};
     Api.uuids_drawn := 2;
     Api.background := [] |}.

(** A service whose bookings all go through. *)
Definition obliging_service : @Api.ServiceObj floats :=
  {| Api.svc_search_hotels :=
       fun b =>
         mret {| hotels := [flat]; total_found := 1; search_params := b |};
     Api.svc_book_hotel :=
       fun h b =>
         mret {| success := true;
                 booking_id := Some (py "B-1");
                 confirmation_number := Some (py "42");
                 total_amount := total_price h;
                 message := py "booked";
                 booking_url := None |} |}.

End Demo.

(* ===================================================================== *)
(** * [str.split] and [str.join]                                          *)
(* ===================================================================== *)

Module PyStr.
Import Py.

Definition DOT : codepoint := 46%N.

(** [s.split(sep)] for a separator of one character: the pieces between
    the separators, empty pieces included. *)
Fixpoint split (sep : codepoint) (s : str) : list str :=
  match s with
  | [] => [[]]
  | c :: s' =>
      if (c =? sep)%N then [] :: split sep s'
      else match split sep s' with
           | p :: ps => (c :: p) :: ps
           | [] => [[c]]
           end
  end.

(** [sep.join(parts)] *)
Fixpoint join (sep : str) (parts : list str) : str :=
  match parts with
  | [] => []
  | [p] => p
  | p :: ps => p ++ sep ++ join sep ps
  end.

(** [l[-2:]] *)
Definition last_two {A} (l : list A) : list A := drop (length l - 2) l.

End PyStr.

(* ===================================================================== *)
(** * models/search.py and services/search_service.py                     *)
(* ===================================================================== *)

Module Search.
Import Py PyStr Rt Models Env.

Section WithFloats.
Context `{Floats}.

(** [title] and [query] are written [result_title] and [search_query]
    here, the plain names being those of [HotelInfo] and
    [ProductRequest]. *)
Record SearchResult := {
  result_title : str;
  link : str;
  snippet : option str;
  position : Z;
  source : str;
}.

Record SerperSearchResponse := {
  shopping : list (list (str * json));
  serpapi_pagination : option (list (str * json));
  search_metadata : option (list (str * json));
}.

Record SearchRequest := {
  search_query : str;
  marketplace_hints : option (list str);
  num_results : Z;
}.

(** What lies outside the repository for the search: the host part
    [urlparse] finds in a URL, what pydantic makes of a value that has
    not the declared shape (it depends on the version: [None] is a
    validation error), what [_extract_source] does with a link that is
    not a string, the POST to Serper with its status check and the
    decoding of the body, and the setting of the same name. *)
Class SearchExternal := {
  netloc : str -> outcome str;
  coerce_str : json -> option str;
  coerce_dict : json -> option (list (str * json));
  coerce_list : json -> option (list json);
  source_of_other : json -> outcome str;
  serper_post : World -> str -> Z -> outcome json;
  MAX_SEARCH_RESULTS : Z;
}.

Context `{SearchExternal}.

(** The table of [_extract_source]. *)
Definition marketplace_mapping : list (str * str) :=
  [ (py "ozon.ru", py "Ozon");
    (py "wildberries.ru", py "Wildberries");
    (py "market.yandex.ru", py "Яндекс.Маркет");
    (py "dns-shop.ru", py "DNS");
    (py "mvideo.ru", py "М.Видео");
    (py "eldorado.ru", py "Эльдорадо");
    (py "citilink.ru", py "Ситилинк");
    (py "lamoda.ru", py "Lamoda");
    (py "aliexpress.ru", py "AliExpress");
    (py "sbermegamarket.ru", py "СберМегаМаркет") ].

(** [mapping.get(key, dflt)] *)
Fixpoint mapping_get (m : list (str * str)) (key dflt : str) : str :=
  match m with
  | [] => dflt
  | (k, v) :: m' => if str_eqb k key then v else mapping_get m' key dflt
  end.

(** The part of [_extract_source] that follows [urlparse]. *)
Definition source_of_domain (domain : str) : str :=
  let domain_parts := split DOT domain in
  let domain :=
    if (2 <? length domain_parts)%nat
    then join [DOT] (last_two domain_parts)
    else domain in
  mapping_get marketplace_mapping domain domain.

Definition _extract_source (url : str) : outcome str :=
  domain ← netloc url;
  mret (source_of_domain domain).

(** Field validation: a value of the declared shape is taken as it is. *)
Definition as_str (v : json) : option str :=
  match v with JStr s => Some s | _ => coerce_str v end.

Definition as_optional_str (v : json) : option (option str) :=
  match v with
  | JNull => Some None
  | JStr s => Some (Some s)
  | _ => Some <$> coerce_str v
  end.

Definition as_dict (v : json) : option (list (str * json)) :=
  match v with JDict d => Some d | _ => coerce_dict v end.

Definition as_dict_list (v : json) : option (list (list (str * json))) :=
  match v with
  | JList l => mapM as_dict l
  | _ => l ← coerce_list v; mapM as_dict l
  end.

Definition as_optional_dict (v : option json)
  : option (option (list (str * json))) :=
  match v with
  | None | Some JNull => Some None
  | Some v => Some <$> as_dict v
  end.

(** [key in d] with the value, for a dict. *)
Fixpoint dict_find (d : list (str * json)) (key : str) : option json :=
  match d with
  | [] => None
  | (k, v) :: d' => if str_eqb k key then Some v else dict_find d' key
  end.

(** [SerperSearchResponse(...)] on the decoded body, unpacked as keyword
    arguments: [shopping] is required, the other two fields are not, and
    further keys are ignored. *)
Definition SerperSearchResponse_new (data : json)
  : outcome SerperSearchResponse :=
  match data with
  | JDict d =>
      match dict_find d (py "shopping") with
      | None =>
          Raise (Exn ValidationError
                   (py "validation error for SerperSearchResponse"))
      | Some v =>
          match as_dict_list v,
                as_optional_dict (dict_find d (py "serpapi_pagination")),
                as_optional_dict (dict_find d (py "search_metadata")) with
          | Some items, Some pagination, Some metadata =>
              Return {| shopping := items;
                        serpapi_pagination := pagination;
                        search_metadata := metadata |}
          | _, _, _ =>
              Raise (Exn ValidationError
                       (py "validation error for SerperSearchResponse"))
          end
      end
  | _ => Raise (Exn TypeError (py "argument after ** must be a mapping"))
  end.

(** [SearchResult(title=..., link=..., snippet=..., position=...,
    source=...)] *)
Definition SearchResult_new (a_title a_link a_snippet : json)
    (a_position : Z) (a_source : str) : outcome SearchResult :=
  match as_str a_title, as_str a_link, as_optional_str a_snippet with
  | Some t, Some l, Some s =>
      Return {| result_title := t; link := l; snippet := s;
                position := a_position; source := a_source |}
  | _, _, _ =>
      Raise (Exn ValidationError (py "validation error for SearchResult"))
  end.

(** [self._extract_source(item.get("link", ""))] *)
Definition source_of (a_link : json) : outcome str :=
  match a_link with
  | JStr url => _extract_source url
  | other => source_of_other other
  end.

(** The loop of [to_search_results], from the item of number [index]. *)
Fixpoint to_search_results_from (index : Z)
    (items : list (list (str * json))) : outcome (list SearchResult) :=
  match items with
  | [] => mret []
  | item :: rest =>
      a_source ← source_of (dict_get item (py "link") (JStr []));
      r ← SearchResult_new
            (dict_get item (py "title") (JStr []))
            (dict_get item (py "link") (JStr []))
            (dict_get item (py "snippet") JNull)
            (index + 1) a_source;
      rs ← to_search_results_from (index + 1) rest;
      mret (r :: rs)
  end.

Definition to_search_results (self : SerperSearchResponse)
  : outcome (list SearchResult) :=
  to_search_results_from 0 (shopping self).

(** [SearchService.search]: every handler of its [try] raises the
    exception again. *)
Definition search (search_request : SearchRequest)
  : M (list SearchResult) :=
  try_except
    (fun w =>
       (data ← serper_post w (search_query search_request)
                 (num_results search_request);
        search_response ← SerperSearchResponse_new data;
        to_search_results search_response, w))
    (fun e => raise e).

(** [SearchService.search_products] *)
Definition search_products (query : str) (marketplaces : option (list str))
    (n : Z) : M (list SearchResult) :=
  let search_request :=
    {| search_query := query;
       marketplace_hints := marketplaces;
       num_results := n |} in
  search search_request.

Context `{!External}.

(** [ProductService.search_products] *)
Definition product_search_products (request : ProductRequest)
  : M (list SearchResult) :=
  search_query ← ProductService.generate_search_query request;
  let search_request :=
    {| search_query := search_query;
       marketplace_hints := marketplaces request;
       num_results := MAX_SEARCH_RESULTS |} in
  search search_request.

End WithFloats.

End Search.

(* ===================================================================== *)
(** * Sequences of requests to api.py                                     *)
(* ===================================================================== *)

Module ApiRun.
Import Py Rt Models Env Api.

Section Run.
Context `{External}.

(** [POST /search] *)
Definition search_hotels_sync (booking_request : BookingRequest)
    (service : ServiceObj) : M (response HotelRecommendations) :=
  try_except
    (result ← svc_search_hotels service booking_request;
     mret (Ok result))
    (fun e => mret (HTTPException 500 (exn_str e))).

(** [perform_search] up to the point where it awaits the service, and
    from the service's outcome on. Other requests are served in
    between. *)
Definition perform_search_begin (task_id : str) (st : Stores) : Stores :=
  let st1 := update_task task_id (set_progress 10) st in
  let st2 := update_task task_id (set_message (py "Открываем браузер...")) st1 in
  let st3 := update_task task_id (set_progress 30) st2 in
  update_task task_id (set_message (py "Ищем отели на sutochno.ru...")) st3.

Definition perform_search_end (task_id : str)
    (o : outcome HotelRecommendations) (st4 : Stores) : Stores :=
  match o with
  | Return result =>
      let st5 := update_task task_id (set_status (py "completed")) st4 in
      let st6 := update_task task_id (set_progress 100) st5 in
      let st7 :=
        update_task task_id
          (set_message (found_message (length (hotels result)))) st6 in
      update_task task_id (set_result (Some result)) st7
  | Raise e =>
      let st5 := update_task task_id (set_status (py "error")) st4 in
      let st6 :=
        update_task task_id
          (set_message (py "Ошибка при поиске: " ++ exn_str e)) st5 in
      update_task task_id (set_error (Some (exn_str e))) st6
  end.

(** The running application: the stores, the outside world, and the
    searches of background tasks that are awaited, each with the outcome
    it will come back with. *)
Record Process := {
  stores : Stores;
  world : World;
  awaited : list (str * outcome HotelRecommendations);
}.

(** What happens to the application: a request is served (the handlers
    get the service of [get_sutochno_service], whose [book_hotel] has no
    agent to wait for), a background task that was added runs up to its
    [await], or an awaited search comes back. *)
Inductive event :=
| StartSearch (booking_request : BookingRequest) (today : date) (now : Z)
| BackgroundBegin (i : nat)
| BackgroundEnd (i : nat)
| SearchSync (booking_request : BookingRequest)
| CancelSearch (task_id : str)
| ConfirmBooking (hotel_id_arg task_id : str) (booking_request : BookingRequest)
| ExecuteBooking (confirmation_id : str).

Definition set_background (v : list (str * BookingRequest)) (st : Stores)
  : Stores :=
  {| search_tasks := search_tasks st;
     booking_confirmations := booking_confirmations st;
     uuids_drawn := uuids_drawn st;
     background := v |}.

Definition set_stores (st : Stores) (p : Process) : Process :=
  {| stores := st; world := world p; awaited := awaited p |}.

Definition handle (ev : event) (p : Process) : Process :=
  match ev with
  | StartSearch b today now =>
      set_stores (start_search b today now (stores p)).2 p
  | BackgroundBegin i =>
      match background (stores p) !! i with
      | None => p
      | Some (task_id, b) =>
          let waiting := delete i (background (stores p)) in
          match search_tasks (stores p) !! task_id with
          | None =>
              (* KeyError in the [try] and again in its handler *)
              set_stores (set_background waiting (stores p)) p
          | Some _ =>
              let r := svc_search_hotels get_sutochno_service b (world p) in
              {| stores :=
                   perform_search_begin task_id
                     (set_background waiting (stores p));
                 world := r.2;
                 awaited := awaited p ++ [(task_id, r.1)] |}
          end
      end
  | BackgroundEnd i =>
      match awaited p !! i with
      | None => p
      | Some (task_id, o) =>
          {| stores := perform_search_end task_id o (stores p);
             world := world p;
             awaited := delete i (awaited p) |}
      end
  | SearchSync b =>
      {| stores := stores p;
         world := (search_hotels_sync b get_sutochno_service (world p)).2;
         awaited := awaited p |}
  | CancelSearch task_id => set_stores (cancel_search task_id (stores p)).2 p
  | ConfirmBooking h t b => set_stores (confirm_booking h t b (stores p)).2 p
  | ExecuteBooking confirmation_id =>
      match execute_booking confirmation_id get_sutochno_service
              (stores p) (world p) with
      | (Return (_, st'), w') =>
          {| stores := st'; world := w'; awaited := awaited p |}
      | (Raise _, w') =>
          {| stores := stores p; world := w'; awaited := awaited p |}
      end
  end.

Definition run (events : list event) (p : Process) : Process :=
  foldl (λ p ev, handle ev p) p events.

(** The application when it starts. *)
Definition initial (w : World) : Process :=
  {| stores :=
       {| search_tasks := ∅;
          booking_confirmations := ∅;
          uuids_drawn := 0;
          background := [] |};
     world := w;
     awaited := [] |}.

(** No stored search result holds a hotel, and no confirmation is
    stored. *)
Definition nothing_to_book (st : Stores) : Prop :=
  booking_confirmations st = ∅
  ∧ ∀ task_id t r,
      search_tasks st !! task_id = Some t →
      task_result t = Some r → hotels r = [].

End Run.

End ApiRun.

(* ===================================================================== *)
(** * Further notions the statements are phrased with                     *)
(* ===================================================================== *)

Module Spec2.
Import Py Rt Models Env.

(** The fields of a request, handed back as keyword arguments. *)
Definition booking_fields (b : BookingRequest) : BookingRequestInput :=
  {| in_city := Given (city b);
     in_check_in := Given (check_in b);
     in_check_out := Given (check_out b);
     in_guests_count := Given (guests_count b);
     in_min_price := Given (min_price b);
     in_max_price := Given (max_price b);
     in_apartment_type := Given (apartment_type b);
     in_amenities := Given (amenities b);
     in_district := Given (district b);
     in_guest_info := Given (guest_info b);
     in_payment_info := Given (payment_info b) |}.

(** What the field constraints and the two validators of
    [BookingRequest] ask for. *)
Definition well_formed_booking (b : BookingRequest) : bool :=
  date_ltb (check_in b) (check_out b)
  && (1 <=? guests_count b) && (guests_count b <=? 10)
  && ge0 (min_price b) && ge0 (max_price b)
  && match min_price b, max_price b with
     | Some lo, Some hi => lo <? hi
     | _, _ => true
     end.

Section Tasks.
Context `{Floats}.

(** The task a search that was just started is stored as. *)
Definition started (booking_request : BookingRequest) (now : Z)
  : Api.TaskData :=
  {| Api.task_status := py "searching";
     Api.task_progress := 0;
     Api.task_message := py "Начинаем поиск отелей...";
     Api.task_booking_request := booking_request;
     Api.task_result := None;
     Api.task_error := None;
     Api.task_created_at := now |}.

(** The statuses the handlers write. *)
Definition written_status (s : str) : Prop :=
  s = py "searching" ∨ s = py "completed" ∨ s = py "error"
  ∨ s = py "cancelled".

(** Every stored task has a status the handlers write and a progress
    between 0 and 100. *)
Definition tasks_written (st : Api.Stores) : Prop :=
  ∀ task_id t,
    Api.search_tasks st !! task_id = Some t →
    written_status (Api.task_status t)
    ∧ 0 ≤ Api.task_progress t ≤ 100.

End Tasks.

End Spec2.

(* ===================================================================== *)
(** * More of the small world                                             *)
(* ===================================================================== *)

Module Demo2.
Import Py Rt Models Env.

#[local] Existing Instance Demo.floats.

(** A search service that finds two items, the second without any key,
    takes a URL for its own host, and accepts only values of the declared
    shape. *)
Definition search_external : @Search.SearchExternal Demo.floats :=
  {| Search.netloc := fun url => Return url;
     Search.coerce_str := fun _ => None;
     Search.coerce_dict := fun _ => None;
     Search.coerce_list := fun _ => None;
     Search.source_of_other :=
       fun _ => Raise (Exn TypeError (py "a bytes-like object is required"));
     Search.serper_post :=
       fun _ q _ =>
         Return
           (@JDict Demo.floats
              [(py "shopping",
                JList [JDict [(py "title", JStr q);
                              (py "link", JStr (py "market.yandex.ru"))];
                       JDict []])]);
     Search.MAX_SEARCH_RESULTS := 3 |}.

(** The same, with a Serper that answers with an empty object. *)
Definition empty_search_external : @Search.SearchExternal Demo.floats :=
  {| Search.netloc := fun url => Return url;
     Search.coerce_str := fun _ => None;
     Search.coerce_dict := fun _ => None;
     Search.coerce_list := fun _ => None;
     Search.source_of_other :=
       fun _ => Raise (Exn TypeError (py "a bytes-like object is required"));
     Search.serper_post := fun _ _ _ => Return (@JDict Demo.floats []);
     Search.MAX_SEARCH_RESULTS := 3 |}.

(** A response of two items, the second without any key, and a response
    with an item whose title is [null]. *)
Definition two_items : @Search.SerperSearchResponse Demo.floats :=
  {| Search.shopping :=
       [[(py "title", JStr (py "tea"));
         (py "link", JStr (py "market.yandex.ru"))];
        []];
     Search.serpapi_pagination := None;
     Search.search_metadata := None |}.

Definition untitled_item : @Search.SerperSearchResponse Demo.floats :=
  {| Search.shopping :=
       [[(py "title", JStr (py "tea"))]; [(py "title", JNull)]];
     Search.serpapi_pagination := None;
     Search.search_metadata := None |}.

(** A search that is over and found the flat. *)
Definition found_task : @Api.TaskData Demo.floats :=
  {| Api.task_status := py "completed";
     Api.task_progress := 100;
     Api.task_message := py "found";
     Api.task_booking_request :=
       Demo.booking (Date 2030 5 10) (Date 2030 5 12);
     Api.task_result :=
       Some {| hotels := [Demo.flat];
               total_found := 1;
               search_params :=
                 Demo.booking (Date 2030 5 10) (Date 2030 5 12) |};
     Api.task_error := None;
     Api.task_created_at := 0 |}.

Definition found_stores : @Api.Stores Demo.floats :=
  {| Api.search_tasks := {[ py "t2" := found_task ]};
     Api.booking_confirmations := ∅;
     Api.uuids_drawn := 1;
     Api.background := [] |}.

(** The world of [Demo.external] with another JSON parser and another
    validation of the LLM's recommendations. *)
Definition external_with
    (loads : str -> outcome (@json Demo.floats))
    (of_json : @json Demo.floats -> outcome (@Product Demo.floats))
    (mk : @Product Demo.floats -> @json Demo.floats -> @json Demo.floats ->
          outcome (@ProductRecommendation Demo.floats))
  : @External Demo.floats :=
  {| llm_reply := @llm_reply _ Demo.external;
     agent_reply := @agent_reply _ Demo.external;
     json_loads := loads;
     Product_new := @Product_new _ Demo.external;
     Product_of_json := of_json;
     ProductRecommendation_new := mk;
     additional_questions_of_json :=
       @additional_questions_of_json _ Demo.external;
     get_generate_search_query_prompt :=
       @get_generate_search_query_prompt _ Demo.external;
     get_evaluate_product_relevance_prompt :=
       @get_evaluate_product_relevance_prompt _ Demo.external;
     get_generate_recommendations_prompt :=
       @get_generate_recommendations_prompt _ Demo.external;
     model_dump_json := @model_dump_json _ Demo.external;
     dumps_products := @dumps_products _ Demo.external;
     extraction_prompt := @extraction_prompt _ Demo.external;
     search_task := @search_task _ Demo.external;
     booking_task := @booking_task _ Demo.external;
     _extract_marketplace_name := @_extract_marketplace_name _ Demo.external;
     uuid4 := @uuid4 _ Demo.external;
     repr_str := @repr_str _ Demo.external;
     found_message := @found_message _ Demo.external |}.

(** Every text is read as a ranking of one entry, which the product
    validation refuses. *)
Definition ranking_external : @External Demo.floats :=
  external_with
    (fun _ =>
       Return (@JDict Demo.floats [(py "recommendations", JList [JDict []])]))
    (@Product_of_json _ Demo.external)
    (@ProductRecommendation_new _ Demo.external).

(** Every text is read as a ranking of two entries, and every entry is
    accepted. *)
Definition accepting_external : @External Demo.floats :=
  external_with
    (fun _ =>
       Return (@JDict Demo.floats
                 [(py "recommendations", JList [JDict []; JDict []])]))
    (fun _ => Return (Demo.item "z"))
    (fun p _ _ =>
       Return {| product := p;
                 relevance_score := 7;
                 recommendation_reason := py "picked by the model" |}).

(** A service whose agent has been given a task. *)
Definition busy_service : SutochnoService.Service :=
  {| SutochnoService.agent := Some (py "Kazan") |}.

End Demo2.

(* ===================================================================== *)
(** * Facts about the runtime fragments                                   *)
(* ===================================================================== *)

Section PyFacts.
Import Py.

Lemma strip_prefix_Some sub s r :
  strip_prefix sub s = Some r ↔ s = sub ++ r.
Proof.
  revert s. induction sub as [|a sub IH]; intros s; simpl.
  - split; [intros [= ->]|intros ->]; done.
  - destruct s as [|c s]; [split; done|].
    destruct (N.eqb_spec a c) as [->|Hne].
    + rewrite IH. split; [intros ->|intros [= ->]]; done.
    + split; [done|intros [= ? _]; done].
Qed.

Lemma strip_prefix_app sub r : strip_prefix sub (sub ++ r) = Some r.
Proof. by apply strip_prefix_Some. Qed.

Lemma strip_prefix_None sub s :
  strip_prefix sub s = None ↔ ∀ r, s ≠ sub ++ r.
Proof.
  split.
  - intros Hn r ->. by rewrite strip_prefix_app in Hn.
  - intros Hall. destruct (strip_prefix sub s) as [r|] eqn:E; [|done].
    apply strip_prefix_Some in E. by destruct (Hall r).
Qed.

Lemma dropwhile_app_all p ws s :
  forallb p ws = true → dropwhile p (ws ++ s) = dropwhile p s.
Proof.
  induction ws as [|c ws IH]; simpl; [done|].
  intros [Hc Hws]%andb_true_iff. rewrite Hc. auto.
Qed.

Lemma dropwhile_split p s :
  ∃ ws, s = ws ++ dropwhile p s ∧ forallb p ws = true.
Proof.
  induction s as [|c s (ws & Hs & Hws)]; simpl.
  - by exists [].
  - destruct (p c) eqn:Hc.
    + exists (c :: ws). simpl. rewrite Hc, Hws. split; [by f_equal|done].
    + by exists [].
Qed.

Lemma dropwhile_head p s c r : dropwhile p s = c :: r → p c = false.
Proof.
  induction s as [|a s IH]; simpl; [done|].
  destruct (p a) eqn:Ha; [done|]. by intros [= <- _].
Qed.

Lemma dropwhile_id p c s : p c = false → dropwhile p (c :: s) = c :: s.
Proof. intros Hc. simpl. by rewrite Hc. Qed.

Lemma dropwhile_all p s : forallb p s = true → dropwhile p s = [].
Proof.
  intros Hs. rewrite <- (app_nil_r s). by rewrite dropwhile_app_all.
Qed.

Lemma dropwhile_idemp p s : dropwhile p (dropwhile p s) = dropwhile p s.
Proof.
  destruct (dropwhile p s) as [|c r] eqn:E; [done|].
  apply dropwhile_id. by eapply dropwhile_head.
Qed.

Lemma forallb_rev {A} (p : A → bool) (l : list A) :
  forallb p (rev l) = forallb p l.
Proof.
  induction l as [|a l IH]; simpl; [done|].
  rewrite forallb_app, IH. simpl. rewrite andb_true_r. apply andb_comm.
Qed.

(** The text [strip_by] keeps, and what it drops on both sides. *)
Lemma strip_by_split p s :
  ∃ l r, s = l ++ strip_by p s ++ r
         ∧ forallb p l = true ∧ forallb p r = true.
Proof.
  unfold strip_by, rstrip_by, lstrip_by.
  destruct (dropwhile_split p s) as (l & Hs & Hl).
  destruct (dropwhile_split p (rev (dropwhile p s))) as (r & Hr & Hrr).
  exists l, (rev r). repeat split; [|done|by rewrite forallb_rev].
  rewrite Hs at 1. f_equal.
  rewrite <- (rev_involutive (dropwhile p s)) at 1.
  rewrite Hr at 1. by rewrite rev_app_distr.
Qed.

Lemma strip_by_app_l p ws s :
  forallb p ws = true → strip_by p (ws ++ s) = strip_by p s.
Proof.
  intros Hws. unfold strip_by, lstrip_by. by rewrite dropwhile_app_all.
Qed.

Lemma rstrip_by_app_r p s ws :
  forallb p ws = true → rstrip_by p (s ++ ws) = rstrip_by p s.
Proof.
  intros Hws. unfold rstrip_by. rewrite rev_app_distr.
  rewrite dropwhile_app_all; [done|by rewrite forallb_rev].
Qed.

Lemma strip_by_app_r p s ws :
  forallb p ws = true → strip_by p (s ++ ws) = strip_by p s.
Proof.
  intros Hws. unfold strip_by, lstrip_by.
  destruct (dropwhile_split p s) as (l & Hs & Hl).
  destruct (dropwhile p s) as [|c r] eqn:E.
  - rewrite app_nil_r in Hs. subst l.
    rewrite dropwhile_all; [done|].
    by rewrite forallb_app, Hl, Hws.
  - rewrite Hs at 1. rewrite <- app_assoc, dropwhile_app_all by done.
    simpl. rewrite (dropwhile_head _ _ _ _ E).
    apply (rstrip_by_app_r p (c :: r) ws Hws).
Qed.

(** A text that neither starts nor ends with a stripped character is
    left alone. *)
Lemma strip_by_fixed p a mid b :
  p a = false → p b = false →
  strip_by p (a :: mid ++ [b]) = a :: mid ++ [b].
Proof.
  intros Ha Hb. unfold strip_by, lstrip_by, rstrip_by.
  rewrite (dropwhile_id p a (mid ++ [b]) Ha).
  assert (Hrev : rev (a :: mid ++ [b]) = b :: rev (a :: mid)).
  { change (a :: mid ++ [b]) with ((a :: mid) ++ [b]).
    by rewrite rev_app_distr. }
  rewrite Hrev, (dropwhile_id p b _ Hb), <- Hrev.
  apply rev_involutive.
Qed.

End PyFacts.

(* ===================================================================== *)
(** * Occurrences of a substring                                          *)
(* ===================================================================== *)

Section Occurrences.
Import Py Spec.

Lemma split_first_sound sub s pre post :
  split_first sub s = Some (pre, post) → first_occurrence sub s pre post.
Proof.
  revert pre. induction s as [|c s IH]; intros pre; simpl.
  - destruct (strip_prefix sub []) as [r|] eqn:E; [|done].
    intros [= <- <-]. apply strip_prefix_Some in E.
    split; [done|]. intros; simpl; lia.
  - destruct (strip_prefix sub (c :: s)) as [r|] eqn:E.
    + intros [= <- <-]. apply strip_prefix_Some in E.
      split; [done|]. intros; simpl; lia.
    + destruct (split_first sub s) as [[p r]|] eqn:Es; [|done].
      intros [= <- <-]. destruct (IH p eq_refl) as [-> Hmin].
      split; [done|]. intros pre' post' Heq.
      destruct pre' as [|c' pre'].
      * simpl in Heq. rewrite Heq, strip_prefix_app in E. done.
      * injection Heq as -> Heq. simpl. apply le_n_S. eauto.
Qed.

Lemma split_first_None sub s :
  split_first sub s = None → ∀ pre post, s ≠ pre ++ sub ++ post.
Proof.
  induction s as [|c s IH]; simpl.
  - destruct (strip_prefix sub []) as [r|] eqn:E; [done|].
    intros _ pre post Heq. destruct pre; [|done].
    simpl in Heq. rewrite Heq, strip_prefix_app in E. done.
  - destruct (strip_prefix sub (c :: s)) as [r|] eqn:E; [done|].
    destruct (split_first sub s) as [[p r]|] eqn:Es; [done|].
    intros _ pre post Heq. destruct pre as [|c' pre].
    + simpl in Heq. rewrite Heq, strip_prefix_app in E. done.
    + injection Heq as -> Heq. by eapply IH.
Qed.

Lemma app_inj_length {A} (a a' b b' : list A) :
  a ++ b = a' ++ b' → length a = length a' → a = a' ∧ b = b'.
Proof. intros. by apply app_inj_1. Qed.

Lemma split_first_complete sub s pre post :
  first_occurrence sub s pre post → split_first sub s = Some (pre, post).
Proof.
  intros [Heq Hmin].
  destruct (split_first sub s) as [[p r]|] eqn:E.
  - destruct (split_first_sound _ _ _ _ E) as [Heq' Hmin'].
    pose proof (Hmin _ _ Heq') as H1. pose proof (Hmin' _ _ Heq) as H2.
    rewrite Heq in Heq'.
    destruct (app_inj_length _ _ _ _ Heq') as [-> Hr]; [lia|].
    apply app_inv_head in Hr. by subst.
  - by destruct (split_first_None _ _ E pre post).
Qed.

Lemma split_last_None sub s :
  split_last sub s = None → ∀ pre post, s ≠ pre ++ sub ++ post.
Proof.
  induction s as [|c s IH]; simpl.
  - destruct (strip_prefix sub []) as [r|] eqn:E; [done|].
    intros _ pre post Heq. destruct pre; [|done].
    simpl in Heq. rewrite Heq, strip_prefix_app in E. done.
  - destruct (split_last sub s) as [[p r]|] eqn:Es; [done|].
    destruct (strip_prefix sub (c :: s)) as [r|] eqn:E; [done|].
    intros _ pre post Heq. destruct pre as [|c' pre].
    + simpl in Heq. rewrite Heq, strip_prefix_app in E. done.
    + injection Heq as -> Heq. by eapply IH.
Qed.

Lemma split_last_sound sub s pre post :
  split_last sub s = Some (pre, post) → last_occurrence sub s pre post.
Proof.
  revert pre. induction s as [|c s IH]; intros pre; simpl.
  - destruct (strip_prefix sub []) as [r|] eqn:E; [|done].
    intros [= <- <-]. apply strip_prefix_Some in E.
    split; [done|]. intros pre' post' Heq.
    destruct pre'; [done|]. done.
  - destruct (split_last sub s) as [[p r]|] eqn:Es.
    + intros [= <- <-]. destruct (IH p eq_refl) as [-> Hmax].
      split; [done|]. intros pre' post' Heq.
      destruct pre' as [|c' pre']; [simpl; lia|].
      injection Heq as -> Heq. simpl. apply le_n_S. eauto.
    + destruct (strip_prefix sub (c :: s)) as [r|] eqn:E; [|done].
      intros [= <- <-]. apply strip_prefix_Some in E.
      split; [done|]. intros pre' post' Heq.
      destruct pre' as [|c' pre']; [done|].
      injection Heq as -> Heq.
      by destruct (split_last_None _ _ Es pre' post').
Qed.

Lemma split_last_complete sub s pre post :
  last_occurrence sub s pre post → split_last sub s = Some (pre, post).
Proof.
  intros [Heq Hmax].
  destruct (split_last sub s) as [[p r]|] eqn:E.
  - destruct (split_last_sound _ _ _ _ E) as [Heq' Hmax'].
    pose proof (Hmax _ _ Heq') as H1. pose proof (Hmax' _ _ Heq) as H2.
    rewrite Heq in Heq'.
    destruct (app_inj_length _ _ _ _ Heq') as [-> Hr]; [lia|].
    apply app_inv_head in Hr. by subst.
  - by destruct (split_last_None _ _ E pre post).
Qed.

Lemma split_first_here sub s r :
  strip_prefix sub s = Some r → split_first sub s = Some ([], r).
Proof. destruct s; simpl; by intros ->. Qed.

(** An occurrence that starts no further left than another one lies
    inside what follows the latter. *)
Lemma occurrence_after {A} (pre0 sub r0 pre rest : list A) :
  pre0 ++ sub ++ r0 = pre ++ sub ++ rest →
  (length pre0 ≤ length pre)%nat →
  ∃ a, r0 = a ++ rest.
Proof.
  intros Heq Hle.
  exists (drop (length pre0 + length sub) (pre ++ sub)).
  assert (H1 : drop (length pre0 + length sub) (pre0 ++ sub ++ r0) = r0).
  { rewrite (app_assoc pre0 sub r0).
    rewrite <- (length_app pre0 sub). by rewrite drop_app_length. }
  rewrite <- H1, Heq, (app_assoc pre sub rest).
  apply drop_app_le. rewrite length_app. lia.
Qed.

End Occurrences.

(* ===================================================================== *)
(** * How the engine runs the two patterns                                *)
(* ===================================================================== *)

Section Engine.
Import Py Re Spec ProductService.

Lemma rmatch_lit {R} sub s cap (k : str → option str → option R) :
  rmatch (RLit sub) s cap k =
  match strip_prefix sub s with Some r => k r cap | None => None end.
Proof.
  revert s. induction sub as [|a sub IH]; intros s; simpl; [done|].
  destruct s as [|c s]; [done|]. destruct (a =? c)%N; [apply IH|done].
Qed.

Lemma rmatch_cat {R} r1 r2 s cap (k : str → option str → option R) :
  rmatch (RCat r1 r2) s cap k =
  rmatch r1 s cap (fun s1 cap1 => rmatch r2 s1 cap1 k).
Proof. reflexivity. Qed.

Lemma rmatch_group {R} r s cap (k : str → option str → option R) :
  rmatch (RGroup r) s cap k =
  rmatch r s cap (fun s1 _ => k s1 (Some (take (length s - length s1) s))).
Proof. reflexivity. Qed.

Lemma rmatch_set_cons {R} cs c s cap (k : str → option str → option R) :
  rmatch (RSet cs) (c :: s) cap k = if cset_mem cs c then k s cap else None.
Proof. reflexivity. Qed.

Lemma rmatch_greedy_cons {R} cs c t cap (k : str → option str → option R) :
  rmatch (RStar true cs) (c :: t) cap k =
  if cset_mem cs c
  then match rmatch (RStar true cs) t cap k with
       | Some x => Some x
       | None => k (c :: t) cap
       end
  else k (c :: t) cap.
Proof. reflexivity. Qed.

Lemma rmatch_lazy_unfold {R} cs t cap (k : str → option str → option R) :
  rmatch (RStar false cs) t cap k =
  match k t cap with
  | Some x => Some x
  | None =>
      match t with
      | c :: t' => if cset_mem cs c then rmatch (RStar false cs) t' cap k
                   else None
      | [] => None
      end
  end.
Proof. destruct t; reflexivity. Qed.

Lemma cset_mem_ANY c : cset_mem ANY c = true.
Proof. simpl. apply orb_negb_r. Qed.

(** A continuation that cannot succeed right after a character of the
    set when it fails before it makes the greedy star keep all it took. *)
Lemma rmatch_greedy_skip {R} cs s cap (k : str → option str → option R) :
  (∀ c t, cset_mem cs c = true → k t cap = None → k (c :: t) cap = None) →
  rmatch (RStar true cs) s cap k = k (dropwhile (cset_mem cs) s) cap.
Proof.
  intros Hk.
  assert (Hback : ∀ t, k (dropwhile (cset_mem cs) t) cap = None →
                       k t cap = None).
  { induction t as [|c t IH]; simpl; [done|].
    destruct (cset_mem cs c) eqn:Hc; [|done]. intros Hn. auto. }
  induction s as [|c s IH]; [done|].
  rewrite rmatch_greedy_cons. simpl dropwhile.
  destruct (cset_mem cs c) eqn:Hc; [|done].
  rewrite IH. destruct (k (dropwhile (cset_mem cs) s) cap) eqn:E; [done|].
  apply Hk; [done|]. by apply Hback.
Qed.

Lemma isspace_BACKTICK c : isspace c = true → (BACKTICK =? c)%N = false.
Proof.
  intros Hc. destruct (N.eqb_spec BACKTICK c) as [<-|]; [|done].
  by vm_compute in Hc.
Qed.

Lemma strip_prefix_FENCE_space c t :
  isspace c = true → strip_prefix FENCE (c :: t) = None.
Proof.
  intros Hc. unfold FENCE. cbn [strip_prefix].
  by rewrite (isspace_BACKTICK c Hc).
Qed.

(** [\s*```] at the end of the block pattern. *)
Lemma rmatch_close s cap :
  rmatch (RCat (RStar true CSpace) (RLit FENCE)) s cap finish =
  match closes s with Some r => Some (cap, r) | None => None end.
Proof.
  change (rmatch (RCat (RStar true CSpace) (RLit FENCE)) s cap finish)
    with (rmatch (RStar true CSpace) s cap
            (fun s1 cap1 => rmatch (RLit FENCE) s1 cap1 finish)).
  rewrite rmatch_greedy_skip.
  - rewrite rmatch_lit. done.
  - intros c t Hc _. rewrite rmatch_lit.
    by rewrite (strip_prefix_FENCE_space c t Hc).
Qed.

Lemma closes_space c t : isspace c = true → closes (c :: t) = closes t.
Proof. intros Hc. unfold closes. simpl. by rewrite Hc. Qed.

Lemma first_close_unfold t :
  first_close t =
  match closes t with
  | Some rest => Some (O, rest)
  | None =>
      match t with
      | [] => None
      | _ :: t' =>
          match first_close t' with
          | Some (n, rest) => Some (S n, rest)
          | None => None
          end
      end
  end.
Proof. destruct t; reflexivity. Qed.

Lemma first_close_None_closes t : first_close t = None → closes t = None.
Proof. rewrite first_close_unfold. by destruct (closes t). Qed.

Lemma first_close_space c t :
  isspace c = true → first_close t = None → first_close (c :: t) = None.
Proof.
  intros Hc Hn. rewrite first_close_unfold, (closes_space c t Hc).
  by rewrite (first_close_None_closes t Hn), Hn.
Qed.

(** [([\s\S]*?)\s*```]: the group stops at the first position from which
    the closing marker follows. *)
Lemma rmatch_lazy_group u : ∀ p s cap,
  s = p ++ u →
  rmatch (RStar false ANY) u cap
    (fun s1 _ =>
       rmatch (RCat (RStar true CSpace) (RLit FENCE)) s1
         (Some (take (length s - length s1) s)) finish) =
  match first_close u with
  | Some (n, rest) => Some (Some (take (length p + n) s), rest)
  | None => None
  end.
Proof.
  induction u as [|c u IH]; intros p s cap Hs;
    rewrite rmatch_lazy_unfold, rmatch_close, first_close_unfold.
  - destruct (closes []) as [r|]; [|done].
    replace (length s - length (@nil codepoint))%nat with (length p + 0)%nat;
      [done|]. subst s. rewrite length_app. simpl. lia.
  - destruct (closes (c :: u)) as [r|].
    + replace (length s - length (c :: u))%nat with (length p + 0)%nat;
        [done|]. subst s. rewrite length_app. simpl. lia.
    + rewrite cset_mem_ANY.
      rewrite (IH (p ++ [c]) s cap); [|by rewrite <- app_assoc].
      destruct (first_close u) as [[n rest]|]; [|done].
      replace (length (p ++ [c]) + n)%nat with (length p + S n)%nat;
        [done|]. rewrite length_app. simpl. lia.
Qed.

Lemma rmatch_block_body s cap :
  rmatch (RCat (RGroup (RStar false ANY))
            (RCat (RStar true CSpace) (RLit FENCE))) s cap finish =
  match first_close s with
  | Some (n, rest) => Some (Some (take n s), rest)
  | None => None
  end.
Proof.
  change (rmatch _ s cap finish)
    with (rmatch (RStar false ANY) s cap
            (fun s1 _ =>
               rmatch (RCat (RStar true CSpace) (RLit FENCE)) s1
                 (Some (take (length s - length s1) s)) finish)).
  by rewrite (rmatch_lazy_group s [] s cap eq_refl).
Qed.

(** The block pattern anchored at the start of [s]. *)
Lemma match_at_block s :
  match_at json_block_pattern s =
  match strip_prefix FENCE_JSON s with
  | Some r =>
      match first_close (dropwhile isspace r) with
      | Some (n, rest) => Some (Some (take n (dropwhile isspace r)), rest)
      | None => None
      end
  | None => None
  end.
Proof.
  unfold match_at, json_block_pattern.
  change (rmatch (RCat (RLit FENCE_JSON) ?r) s None ?k)
    with (rmatch (RLit FENCE_JSON) s None
            (fun s1 cap1 => rmatch r s1 cap1 k)).
  rewrite rmatch_lit. destruct (strip_prefix FENCE_JSON s) as [r|]; [|done].
  change (rmatch (RCat (RStar true CSpace) ?r') r None ?k)
    with (rmatch (RStar true CSpace) r None
            (fun s1 cap1 => rmatch r' s1 cap1 k)).
  rewrite rmatch_greedy_skip.
  - apply rmatch_block_body.
  - intros c t Hc. change (cset_mem CSpace c) with (isspace c) in Hc.
    pose proof (rmatch_block_body t None) as Ht.
    pose proof (rmatch_block_body (c :: t) None) as Hct.
    rewrite Ht, Hct.
    destruct (first_close t) as [[n rest]|] eqn:E; [done|].
    intros _. by rewrite (first_close_space c t Hc E).
Qed.

End Engine.

Section Search.
Import Py Re Spec ProductService.

(** [[\s\S]*\}] inside the object pattern: the star gives characters
    back until the last closing brace. *)
Lemma rmatch_greedy_last {R} s cap (g : str → R) :
  rmatch (RStar true ANY) s cap
    (fun s1 cap1 =>
       rmatch (RSet (CChar RBRACE)) s1 cap1 (fun s2 _ => Some (g s2))) =
  match split_last [RBRACE] s with
  | Some (_, post) => Some (g post)
  | None => None
  end.
Proof.
  induction s as [|c s IH]; [done|].
  rewrite rmatch_greedy_cons, cset_mem_ANY, IH.
  cbn [split_last]. destruct (split_last [RBRACE] s) as [[p r]|]; [done|].
  cbn [rmatch cset_mem strip_prefix]. by destruct (RBRACE =? c)%N.
Qed.

(** The object pattern anchored at the start of [s]. *)
Lemma match_at_object s :
  match_at json_object_pattern s =
  match s with
  | c :: s' =>
      if (LBRACE =? c)%N
      then match split_last [RBRACE] s' with
           | Some (mid, post) => Some (Some (LBRACE :: mid ++ [RBRACE]), post)
           | None => None
           end
      else None
  | [] => None
  end.
Proof.
  destruct s as [|c s']; [done|].
  unfold match_at, json_object_pattern.
  rewrite rmatch_group, rmatch_cat, rmatch_set_cons.
  change (cset_mem (CChar LBRACE) c) with (LBRACE =? c)%N.
  destruct (N.eqb_spec LBRACE c) as [<-|Hne]; [|done].
  rewrite rmatch_cat.
  etransitivity;
    [exact (rmatch_greedy_last s' None
              (fun s2 =>
                 (Some (take (length (LBRACE :: s') - length s2)
                          (LBRACE :: s')), s2)))|].
  destruct (split_last [RBRACE] s') as [[mid post]|] eqn:E; [|done].
  destruct (split_last_sound _ _ _ _ E) as [-> _].
  do 3 f_equal.
  change (LBRACE :: mid ++ [RBRACE] ++ post)
    with ((LBRACE :: mid) ++ [RBRACE] ++ post).
  rewrite (app_assoc (LBRACE :: mid) [RBRACE] post).
  replace (length (((LBRACE :: mid) ++ [RBRACE]) ++ post) - length post)%nat
    with (length ((LBRACE :: mid) ++ [RBRACE])).
  - by rewrite take_app_length.
  - rewrite (length_app _ post). lia.
Qed.

Lemma split_last_cons_None sub c s :
  split_last sub (c :: s) = None → split_last sub s = None.
Proof. simpl. by destruct (split_last sub s) as [[? ?]|]. Qed.

Lemma search_object_None s :
  split_last [RBRACE] s = None → search json_object_pattern s = None.
Proof.
  induction s as [|c s IH]; intros Hn.
  - done.
  - pose proof (split_last_cons_None _ _ _ Hn) as Hs.
    cbn [search]. rewrite match_at_object, Hs.
    destruct (LBRACE =? c)%N; auto.
Qed.

(** [search] with the object pattern: from the first opening brace to the
    last closing brace after it. *)
Lemma search_object text :
  search json_object_pattern text =
  match split_first [LBRACE] text with
  | Some (_, r) =>
      match split_last [RBRACE] r with
      | Some (mid, post) => Some (Some (LBRACE :: mid ++ [RBRACE]), post)
      | None => None
      end
  | None => None
  end.
Proof.
  induction text as [|c t IH]; [done|].
  cbn [search split_first strip_prefix]. rewrite match_at_object.
  destruct (LBRACE =? c)%N.
  - destruct (split_last [RBRACE] t) as [[mid post]|] eqn:E; [done|].
    by apply search_object_None.
  - rewrite IH. by destruct (split_first [LBRACE] t) as [[p r]|].
Qed.

(** [search] with the block pattern. *)
Lemma search_block_found text pre r n rest :
  split_first FENCE_JSON text = Some (pre, r) →
  first_close (dropwhile isspace r) = Some (n, rest) →
  search json_block_pattern text
  = Some (Some (take n (dropwhile isspace r)), rest).
Proof.
  revert pre. induction text as [|c t IH]; intros pre Hsplit Hclose.
  - cbn [split_first] in Hsplit. cbn [search]. rewrite match_at_block.
    destruct (strip_prefix FENCE_JSON []) as [r'|]; [|done].
    injection Hsplit as <- <-. by rewrite Hclose.
  - cbn [split_first] in Hsplit. cbn [search]. rewrite match_at_block.
    destruct (strip_prefix FENCE_JSON (c :: t)) as [r'|].
    + injection Hsplit as <- <-. by rewrite Hclose.
    + destruct (split_first FENCE_JSON t) as [[p r']|] eqn:E; [|done].
      injection Hsplit as <- <-. eauto.
Qed.

Lemma first_close_occurs u :
  first_close u ≠ None ↔ ∃ a b, u = a ++ FENCE ++ b.
Proof.
  split.
  - induction u as [|c u IH]; rewrite first_close_unfold.
    + destruct (closes []) as [r|] eqn:E; [|done]. intros _.
      unfold closes in E. by apply strip_prefix_Some in E.
    + destruct (closes (c :: u)) as [r|] eqn:E.
      * intros _. unfold closes in E. apply strip_prefix_Some in E.
        destruct (dropwhile_split isspace (c :: u)) as (ws & Hs & _).
        exists ws, r. by rewrite Hs at 1; rewrite E.
      * destruct (first_close u) as [[n rest]|]; [|done]. intros _.
        destruct IH as (a & b & ->); [done|]. by exists (c :: a), b.
  - intros (a & b & ->). induction a as [|c a IH].
    + rewrite first_close_unfold.
      change (closes ([] ++ FENCE ++ b)) with (Some b).
      cbv beta iota. discriminate.
    + change ((c :: a) ++ FENCE ++ b) with (c :: (a ++ FENCE ++ b)).
      rewrite first_close_unfold.
      destruct (closes (c :: a ++ FENCE ++ b)); [done|].
      by destruct (first_close (a ++ FENCE ++ b)) as [[n rest]|].
Qed.

Lemma first_close_dropwhile u :
  first_close (dropwhile isspace u) = None → first_close u = None.
Proof.
  induction u as [|c u IH]; simpl; [done|].
  destruct (isspace c) eqn:Hc; [|done].
  intros Hn. apply first_close_space; auto.
Qed.

Lemma search_block_None text :
  ¬ has_block text → search json_block_pattern text = None.
Proof.
  induction text as [|c t IH]; intros Hno.
  - cbn [search]. rewrite match_at_block.
    destruct (strip_prefix FENCE_JSON []) as [r|] eqn:E; [|done].
    by apply strip_prefix_Some in E.
  - assert (Hhead : match_at json_block_pattern (c :: t) = None).
    { rewrite match_at_block.
      destruct (strip_prefix FENCE_JSON (c :: t)) as [r|] eqn:E; [|done].
      apply strip_prefix_Some in E.
      destruct (first_close (dropwhile isspace r)) as [[n rest]|] eqn:Ec;
        [|done].
      assert (Hr : first_close (dropwhile isspace r) ≠ None)
        by (by rewrite Ec).
      apply first_close_occurs in Hr as (a & b & Hd).
      destruct (dropwhile_split isspace r) as (ws & Hs & _).
      destruct Hno. exists [], (ws ++ a), b.
      rewrite E, Hs at 1. rewrite Hd. simpl. by rewrite <- !app_assoc. }
    cbn [search]. rewrite Hhead. apply IH.
    intros (pre & body & post & ->). apply Hno.
    by exists (c :: pre), body, post.
Qed.

End Search.

Section Extraction.
Import Py Re Spec ProductService.

Lemma findall_search r s :
  findall r s =
  match search r s with
  | None => []
  | Some (cap, rest) =>
      default [] cap ::
      findall_from (length s) r
        (if (length rest <? length s)%nat then rest else tail rest)
  end.
Proof. reflexivity. Qed.

(** The helper in terms of the two searches. *)
Lemma extract_json_search text :
  _extract_json_from_text text =
  match search json_block_pattern text with
  | Some (cap, _) => Some (strip (default [] cap))
  | None =>
      match search json_object_pattern text with
      | Some (cap, _) => Some (strip (default [] cap))
      | None => None
      end
  end.
Proof.
  unfold _extract_json_from_text. rewrite !findall_search.
  destruct (search json_block_pattern text) as [[cap rest]|]; [done|].
  by destruct (search json_object_pattern text) as [[cap rest]|].
Qed.

Lemma split_first_FENCE_ws ws u :
  forallb isspace ws = true →
  split_first FENCE (ws ++ u) =
  match split_first FENCE u with
  | Some (p, r) => Some (ws ++ p, r)
  | None => None
  end.
Proof.
  induction ws as [|c ws IH]; intros Hws.
  - simpl. by destruct (split_first FENCE u) as [[p r]|].
  - apply andb_true_iff in Hws as [Hc Hws].
    change ((c :: ws) ++ u) with (c :: (ws ++ u)).
    cbn [split_first]. rewrite (strip_prefix_FENCE_space c _ Hc), (IH Hws).
    by destruct (split_first FENCE u) as [[p r]|].
Qed.

(** Where the lazy group stops, against the first closing marker. *)
Lemma first_close_split u : ∀ body post,
  split_first FENCE u = Some (body, post) →
  ∃ n ws, first_close u = Some (n, post)
          ∧ body = take n u ++ ws ∧ forallb isspace ws = true.
Proof.
  induction u as [|c u IH]; intros body post Hsplit; [done|].
  rewrite first_close_unfold. destruct (closes (c :: u)) as [rest|] eqn:E.
  - unfold closes in E. apply strip_prefix_Some in E.
    destruct (dropwhile_split isspace (c :: u)) as (ws & Hs & Hws).
    rewrite E in Hs. rewrite Hs, (split_first_FENCE_ws ws _ Hws) in Hsplit.
    rewrite (split_first_here _ _ _ (strip_prefix_app FENCE rest)) in Hsplit.
    injection Hsplit as <- <-. exists O, ws. by rewrite app_nil_r.
  - cbn [split_first] in Hsplit.
    destruct (strip_prefix FENCE (c :: u)) as [r|] eqn:Ep.
    + apply strip_prefix_Some in Ep. injection Ep as -> ->. done.
    + destruct (split_first FENCE u) as [[p r]|] eqn:Es; [|done].
      injection Hsplit as <- <-.
      destruct (IH p r eq_refl) as (n & ws & -> & -> & Hws).
      by exists (S n), ws.
Qed.

Lemma block_capture r body post :
  split_first FENCE r = Some (body, post) →
  ∃ n, first_close (dropwhile isspace r) = Some (n, post)
       ∧ strip (take n (dropwhile isspace r)) = strip body.
Proof.
  intros Hsplit.
  destruct (dropwhile_split isspace r) as (W & Hr & HW).
  rewrite Hr, (split_first_FENCE_ws W _ HW) in Hsplit.
  destruct (split_first FENCE (dropwhile isspace r)) as [[b1 p1]|] eqn:E;
    [|done].
  injection Hsplit as <- <-.
  destruct (first_close_split _ _ _ E) as (n & ws & Hc & -> & Hws).
  exists n. split; [done|]. unfold strip.
  by rewrite (strip_by_app_l _ W _ HW), (strip_by_app_r _ _ ws Hws).
Qed.

Lemma has_block_found text :
  has_block text →
  ∃ pre r body post,
    split_first FENCE_JSON text = Some (pre, r)
    ∧ split_first FENCE r = Some (body, post).
Proof.
  intros (p & b & q & Htext).
  destruct (split_first FENCE_JSON text) as [[pre r]|] eqn:E.
  - destruct (split_first_sound _ _ _ _ E) as [Heq Hmin].
    destruct (occurrence_after pre FENCE_JSON r p (b ++ FENCE ++ q))
      as (a & Hr); [by rewrite <- Heq|by eapply Hmin|].
    destruct (split_first FENCE r) as [[body post]|] eqn:E2;
      [by exists pre, r, body, post|].
    destruct (split_first_None _ _ E2 (a ++ b) q).
    by rewrite Hr, <- app_assoc.
  - by destruct (split_first_None _ _ E p (b ++ FENCE ++ q)).
Qed.

Lemma found_has_block text pre r body post :
  split_first FENCE_JSON text = Some (pre, r) →
  split_first FENCE r = Some (body, post) →
  has_block text.
Proof.
  intros [-> _]%split_first_sound [-> _]%split_first_sound.
  by exists pre, body, post.
Qed.

Lemma has_object_found text :
  has_object text →
  ∃ pre r mid post,
    split_first [LBRACE] text = Some (pre, r)
    ∧ split_last [RBRACE] r = Some (mid, post).
Proof.
  intros (p & m & q & Htext).
  destruct (split_first [LBRACE] text) as [[pre r]|] eqn:E.
  - destruct (split_first_sound _ _ _ _ E) as [Heq Hmin].
    destruct (occurrence_after pre [LBRACE] r p (m ++ [RBRACE] ++ q))
      as (a & Hr); [by rewrite <- Heq|by eapply Hmin|].
    destruct (split_last [RBRACE] r) as [[mid post]|] eqn:E2;
      [by exists pre, r, mid, post|].
    destruct (split_last_None _ _ E2 (a ++ m) q).
    by rewrite Hr, <- app_assoc.
  - by destruct (split_first_None _ _ E p (m ++ [RBRACE] ++ q)).
Qed.

Lemma found_has_object text pre r mid post :
  split_first [LBRACE] text = Some (pre, r) →
  split_last [RBRACE] r = Some (mid, post) →
  has_object text.
Proof.
  intros [-> _]%split_first_sound [-> _]%split_last_sound.
  by exists pre, mid, post.
Qed.

Lemma strip_braces mid :
  strip (LBRACE :: mid ++ [RBRACE]) = LBRACE :: mid ++ [RBRACE].
Proof. by apply strip_by_fixed. Qed.

(** With a fenced block in the text, the helper returns the stripped text
    between the first opening marker and the first closing marker after
    it. *)
Lemma extract_block text pre r body post :
  first_occurrence FENCE_JSON text pre r →
  first_occurrence FENCE r body post →
  _extract_json_from_text text = Some (strip body).
Proof.
  intros H1%split_first_complete H2%split_first_complete.
  destruct (block_capture _ _ _ H2) as (n & Hc & Hstrip).
  rewrite extract_json_search, (search_block_found _ _ _ _ _ H1 Hc).
  simpl. by rewrite Hstrip.
Qed.

(** Without one, it returns the text from the first opening brace to the
    last closing brace after it. *)
Lemma extract_object text pre r mid post :
  ¬ has_block text →
  first_occurrence [LBRACE] text pre r →
  last_occurrence [RBRACE] r mid post →
  _extract_json_from_text text = Some ([LBRACE] ++ mid ++ [RBRACE]).
Proof.
  intros Hno H1%split_first_complete H2%split_last_complete.
  rewrite extract_json_search, (search_block_None _ Hno), search_object.
  rewrite H1, H2. simpl. by rewrite strip_braces.
Qed.

Lemma extract_None text :
  _extract_json_from_text text = None ↔ ¬ has_block text ∧ ¬ has_object text.
Proof.
  split.
  - intros Hn. split.
    + intros (pre & r & body & post & H1 & H2)%has_block_found.
      destruct (block_capture _ _ _ H2) as (n & Hc & _).
      rewrite extract_json_search, (search_block_found _ _ _ _ _ H1 Hc) in Hn.
      done.
    + intros (pre & r & mid & post & H1 & H2)%has_object_found.
      rewrite extract_json_search in Hn.
      destruct (search json_block_pattern text) as [[cap rest]|]; [done|].
      rewrite search_object, H1, H2 in Hn. done.
  - intros [Hb Ho].
    rewrite extract_json_search, (search_block_None _ Hb), search_object.
    destruct (split_first [LBRACE] text) as [[pre r]|] eqn:E1; [|done].
    destruct (split_last [RBRACE] r) as [[mid post]|] eqn:E2; [|done].
    destruct Ho. by eapply found_has_object.
Qed.

End Extraction.

Section ExtractionSpec.
Import Py Re Spec ProductService.

Lemma last_occurrence_extend sub p r mid post :
  last_occurrence sub r mid post →
  last_occurrence sub (p ++ r) (p ++ mid) post.
Proof.
  intros [-> Hmax]. split; [by rewrite <- app_assoc|].
  intros pre' post' Heq. rewrite length_app.
  apply app_eq_inv in Heq as [(k & -> & Hk)|(k & -> & Hk)].
  - rewrite length_app. lia.
  - rewrite length_app. specialize (Hmax k post' Hk). lia.
Qed.

(** C1. [_extract_json_from_text]: when the text holds a fenced block, the
    helper returns the stripped text between the first opening marker and
    the first closing marker after it; when it holds none but has an
    opening brace with a closing brace after it, the helper returns the
    text from the first opening brace to the last closing brace, both
    included and otherwise untouched; and it returns [None] exactly when
    the text has neither. *)
Theorem extract_json_from_text_spec (text : str) :
  (has_block text →
   ∃ pre r body post,
     first_occurrence FENCE_JSON text pre r
     ∧ first_occurrence FENCE r body post
     ∧ _extract_json_from_text text = Some (strip body))
  ∧ (¬ has_block text → has_object text →
     ∃ pre mid post,
       first_occurrence [LBRACE] text pre (mid ++ [RBRACE] ++ post)
       ∧ last_occurrence [RBRACE] text (pre ++ [LBRACE] ++ mid) post
       ∧ _extract_json_from_text text = Some ([LBRACE] ++ mid ++ [RBRACE]))
  ∧ (_extract_json_from_text text = None
     ↔ ¬ has_block text ∧ ¬ has_object text).
Proof.
  split; [|split].
  - intros (pre & r & body & post & H1 & H2)%has_block_found.
    apply split_first_sound in H1, H2.
    exists pre, r, body, post. eauto using extract_block.
  - intros Hno (pre & r & mid & post & H1 & H2)%has_object_found.
    apply split_first_sound in H1. apply split_last_sound in H2.
    pose proof (extract_object _ _ _ _ _ Hno H1 H2) as Hres.
    destruct H2 as [-> Hmax]. exists pre, mid, post.
    split; [done|]. split; [|done].
    destruct H1 as [-> _].
    pose proof (last_occurrence_extend [RBRACE] (pre ++ [LBRACE])
                  (mid ++ [RBRACE] ++ post) mid post) as Hl.
    rewrite <- !app_assoc in Hl. apply Hl. by split.
  - apply extract_None.
Qed.

Lemma extract_json_from_text_witness :
  ∃ pre r body post,
    first_occurrence FENCE_JSON (py "see ```json {} ``` ok") pre r
    ∧ first_occurrence FENCE r body post
    ∧ _extract_json_from_text (py "see ```json {} ``` ok")
      = Some (strip body).
Proof.
  apply (proj1 (extract_json_from_text_spec (py "see ```json {} ``` ok"))).
  by exists (py "see "), (py " {} "), (py " ok").
Defined.

End ExtractionSpec.

(* ===================================================================== *)
(** * The brace scan of the browser service                               *)
(* ===================================================================== *)

Section BraceScan.
Import Py Spec BrowserService.

Lemma find_split_first s sub :
  find s sub =
  match split_first sub s with
  | Some (pre, _) => Z.of_nat (length pre)
  | None => -1
  end.
Proof.
  induction s as [|c s IH]; cbn [find split_first].
  - by destruct (strip_prefix sub []).
  - destruct (strip_prefix sub (c :: s)); [done|].
    cbv zeta. rewrite IH. destruct (split_first sub s) as [[p r]|]; [|done].
    destruct (Z.ltb_spec (Z.of_nat (length p)) 0); [lia|].
    cbn [length]. lia.
Qed.

Lemma rfind_split_last s sub :
  rfind s sub =
  match split_last sub s with
  | Some (pre, _) => Z.of_nat (length pre)
  | None => -1
  end.
Proof.
  induction s as [|c s IH]; cbn [rfind split_last].
  - by destruct sub.
  - cbv zeta. rewrite IH. destruct (split_last sub s) as [[p r]|].
    + destruct (Z.leb_spec 0 (Z.of_nat (length p))); [|lia].
      cbn [length]. lia.
    + cbn. by destruct (strip_prefix sub (c :: s)).
Qed.

Lemma slice_middle {A} (a b c : list A) :
  slice (a ++ b ++ c) (Z.of_nat (length a)) (Z.of_nat (length a + length b))
  = b.
Proof.
  unfold slice, clamp_index. rewrite !length_app.
  destruct (Z.ltb_spec (Z.of_nat (length a)) 0); [lia|].
  destruct (Z.ltb_spec (Z.of_nat (length a + length b)) 0); [lia|].
  replace (Z.to_nat
             (Z.max 0
                (Z.min (Z.of_nat (length a))
                   (Z.of_nat (length a + (length b + length c))))))
    with (length a) by lia.
  replace (Z.to_nat
             (Z.max 0
                (Z.min (Z.of_nat (length a + length b))
                   (Z.of_nat (length a + (length b + length c)))))
           - length a)%nat
    with (length b) by lia.
  by rewrite drop_app_length, take_app_length.
Qed.

(** On a text with an opening brace and a closing brace after it,
    [extract_product_info] cuts out the same piece as the second pattern
    of [_extract_json_from_text]: from the first opening brace to the last
    closing brace. *)
Lemma locate_json_object text pre mid post :
  first_occurrence [LBRACE] text pre (mid ++ [RBRACE] ++ post) →
  last_occurrence [RBRACE] text (pre ++ [LBRACE] ++ mid) post →
  locate_json text = Some ([LBRACE] ++ mid ++ [RBRACE]).
Proof.
  intros H1%split_first_complete H2%split_last_complete.
  unfold locate_json. rewrite find_split_first, rfind_split_last, H1, H2.
  apply split_first_sound in H1 as [-> _].
  set (obj := [LBRACE] ++ mid ++ [RBRACE]).
  assert (Hend : Z.of_nat (length (pre ++ [LBRACE] ++ mid)) + 1
                 = Z.of_nat (length pre + length obj)).
  { unfold obj. rewrite !length_app. simpl. lia. }
  rewrite Hend.
  destruct (Z.eqb_spec (Z.of_nat (length pre)) (-1)); [lia|].
  destruct (Z.eqb_spec (Z.of_nat (length pre + length obj)) 0).
  { unfold obj in *. rewrite !length_app in *. simpl in *. lia. }
  cbn [negb andb]. f_equal.
  replace (pre ++ [LBRACE] ++ mid ++ [RBRACE] ++ post)
    with (pre ++ obj ++ post).
  - apply slice_middle.
  - unfold obj. by rewrite <- !app_assoc.
Qed.

(** A closing brace before the only opening one: the scan yields the
    empty text where the pattern finds nothing. *)
Lemma locate_json_reversed_braces :
  locate_json (py "} {") = Some []
  ∧ ProductService._extract_json_from_text (py "} {") = None.
Proof. split; vm_compute; reflexivity. Qed.

End BraceScan.

(* ===================================================================== *)
(** * Query generation                                                    *)
(* ===================================================================== *)

Section StripFacts.
Import Py.

Lemma strip_by_idemp p s : strip_by p (strip_by p s) = strip_by p s.
Proof.
  unfold strip_by, lstrip_by, rstrip_by.
  set (d := dropwhile p s). set (x := rev (dropwhile p (rev d))).
  assert (Hx : dropwhile p x = x).
  { destruct (dropwhile_split p (rev d)) as (r & Hr & _).
    assert (Hd : d = x ++ rev r).
    { rewrite <- (rev_involutive d), Hr at 1. by rewrite rev_app_distr. }
    destruct x as [|c x'] eqn:Ex; [done|].
    apply dropwhile_id. by apply (dropwhile_head p s c (x' ++ rev r)). }
  rewrite Hx. unfold x at 1. rewrite rev_involutive.
  by rewrite dropwhile_idemp.
Qed.

Lemma forallb_weaken {A} (p q : A → bool) l :
  (∀ a, p a = true → q a = true) → forallb p l = true → forallb q l = true.
Proof.
  intros Hpq. induction l as [|a l IH]; simpl; [done|].
  intros [Ha Hl]%andb_true_iff. by rewrite (Hpq a Ha), IH.
Qed.

End StripFacts.

Section QueryGeneration.
Import Py Rt Models Env ProductService Spec.
Context `{External}.

Lemma trimmed_space c : isspace c = true → trimmed c = true.
Proof. unfold trimmed. by intros ->. Qed.

Lemma trimmed_dquote c : char_in [DQUOTE] c = true → trimmed c = true.
Proof.
  unfold trimmed, char_in. simpl. rewrite orb_false_r. intros ->.
  by rewrite orb_true_r.
Qed.

Lemma trimmed_squote c : char_in [SQUOTE] c = true → trimmed c = true.
Proof.
  unfold trimmed, char_in. simpl. rewrite orb_false_r. intros ->.
  by rewrite orb_true_r.
Qed.

(** What the four [strip] calls leave of the content. *)
Lemma clean_query content :
  let q := strip (strip_chars [SQUOTE] (strip_chars [DQUOTE] (strip content))) in
  (∃ pre post, content = pre ++ q ++ post
               ∧ forallb trimmed pre = true ∧ forallb trimmed post = true)
  ∧ strip q = q.
Proof.
  intros q. split; [|apply strip_by_idemp].
  destruct (strip_by_split isspace content) as (l1 & r1 & H1 & Hl1 & Hr1).
  destruct (strip_by_split (char_in [DQUOTE]) (strip content))
    as (l2 & r2 & H2 & Hl2 & Hr2).
  destruct (strip_by_split (char_in [SQUOTE])
              (strip_chars [DQUOTE] (strip content)))
    as (l3 & r3 & H3 & Hl3 & Hr3).
  destruct (strip_by_split isspace
              (strip_chars [SQUOTE] (strip_chars [DQUOTE] (strip content))))
    as (l4 & r4 & H4 & Hl4 & Hr4).
  exists (l1 ++ l2 ++ l3 ++ l4), (r4 ++ r3 ++ r2 ++ r1).
  split; [|split].
  - rewrite H1 at 1. fold (strip content). rewrite H2 at 1.
    fold (strip_chars [DQUOTE] (strip content)). rewrite H3 at 1.
    fold (strip_chars [SQUOTE] (strip_chars [DQUOTE] (strip content))).
    rewrite H4 at 1. fold q. by rewrite <- !app_assoc.
  - rewrite !forallb_app.
    rewrite (forallb_weaken _ _ l1 trimmed_space Hl1).
    rewrite (forallb_weaken _ _ l2 trimmed_dquote Hl2).
    rewrite (forallb_weaken _ _ l3 trimmed_squote Hl3).
    by rewrite (forallb_weaken _ _ l4 trimmed_space Hl4).
  - rewrite !forallb_app.
    rewrite (forallb_weaken _ _ r1 trimmed_space Hr1).
    rewrite (forallb_weaken _ _ r2 trimmed_dquote Hr2).
    rewrite (forallb_weaken _ _ r3 trimmed_squote Hr3).
    by rewrite (forallb_weaken _ _ r4 trimmed_space Hr4).
Qed.

(** C7. [generate_search_query] sends the prompt to the LLM exactly once
    and touches nothing else; when the LLM raises, so does the call; when
    it answers, the query is the answer after [strip()], [strip] of the
    double quote, [strip] of the single quote and [strip()] again: a
    contiguous piece of the answer, cut off from it by whitespace and
    quote characters only, with no whitespace left at either end. *)
Theorem generate_search_query_spec (request : ProductRequest) (w : World) :
  let prompt := get_generate_search_query_prompt request in
  (generate_search_query request w).2
  = {| llm_log := prompt :: llm_log w;
       agent_log := agent_log w;
       heap := heap w |}
  ∧ match llm_reply (llm_log w) prompt with
    | Raise e => (generate_search_query request w).1 = Raise e
    | Return content =>
        ∃ q pre post,
          (generate_search_query request w).1 = Return q
          ∧ q = strip (strip_chars [SQUOTE]
                         (strip_chars [DQUOTE] (strip content)))
          ∧ content = pre ++ q ++ post
          ∧ forallb trimmed pre = true
          ∧ forallb trimmed post = true
          ∧ strip q = q
    end.
Proof.
  intros prompt. unfold generate_search_query, mbind, M_bind, bind, ainvoke.
  fold prompt. destruct (llm_reply (llm_log w) prompt) as [content|e];
    [|done].
  split; [done|].
  destruct (clean_query content) as [(pre & post & Hc & Hpre & Hpost) Hq].
  by eexists _, pre, post.
Qed.

End QueryGeneration.

(* ===================================================================== *)
(** * Sorting and slicing                                                 *)
(* ===================================================================== *)

Section SortFacts.
Import Py.
Context `{Sorting} {A K : Type} (key : A → K) (lt : K → K → bool).

Lemma insert_sorted_perm x l : insert_sorted key lt x l ≡ₚ x :: l.
Proof.
  induction l as [|y l IH]; simpl; [done|].
  destruct (lt (key y) (key x)); [|done].
  rewrite IH. apply Permutation_swap.
Qed.

Lemma stable_sort_perm l : stable_sort key lt l ≡ₚ l.
Proof.
  induction l as [|x l IH]; simpl; [done|].
  fold (stable_sort key lt l). by rewrite insert_sorted_perm, IH.
Qed.

Lemma list_sort_perm reverse l : list_sort key lt reverse l ≡ₚ l.
Proof.
  destruct reverse; unfold list_sort; [|apply sort_permutation].
  rewrite <- Permutation_rev, sort_permutation. by rewrite <- Permutation_rev.
Qed.

Lemma ordered_keys_subseteq l l' :
  l' ⊆ l → ordered_keys key lt l → ordered_keys key lt l'.
Proof.
  intros Hsub [Hasym Hntrans]. split.
  - intros a b Ha Hb. apply Hasym; by apply Hsub.
  - intros a b c Ha Hb Hc. apply Hntrans; by apply Hsub.
Qed.

Lemma ordered_keys_perm l l' :
  l ≡ₚ l' → ordered_keys key lt l → ordered_keys key lt l'.
Proof.
  intros Hp. apply ordered_keys_subseteq. intros x Hx. by rewrite Hp.
Qed.

Lemma insert_sorted_sorted x l :
  ordered_keys key lt (x :: l) →
  StronglySorted (λ a b, lt (key b) (key a) = false) l →
  StronglySorted (λ a b, lt (key b) (key a) = false) (insert_sorted key lt x l).
Proof.
  induction l as [|y l IH]; intros Hord Hl; simpl.
  - by repeat constructor.
  - apply StronglySorted_cons in Hl as [Hy Hl].
    destruct Hord as [Hasym Hntrans].
    assert (Hx : x ∈ x :: y :: l) by left.
    assert (Hyin : y ∈ x :: y :: l) by (right; left).
    destruct (lt (key y) (key x)) eqn:E.
    + apply StronglySorted_cons. split.
      * rewrite (insert_sorted_perm x l).
        constructor; [by apply Hasym|done].
      * apply IH; [|done].
        apply (ordered_keys_subseteq (x :: y :: l)); [|done].
        intros z [->|Hz]%elem_of_cons; [left|by do 2 right].
    + apply StronglySorted_cons. split; [|by apply StronglySorted_cons].
      constructor; [done|].
      rewrite Forall_forall in Hy. apply Forall_forall. intros z Hz.
      apply (Hntrans z y x); [by do 2 right|done|done|by apply Hy|done].
Qed.

Lemma stable_sort_sorted l :
  ordered_keys key lt l →
  StronglySorted (λ a b, lt (key b) (key a) = false) (stable_sort key lt l).
Proof.
  induction l as [|x l IH]; intros Hord; simpl; [constructor|].
  fold (stable_sort key lt l). apply insert_sorted_sorted.
  - apply (ordered_keys_perm (x :: l)); [|done].
    by rewrite stable_sort_perm.
  - apply IH. apply (ordered_keys_subseteq (x :: l)); [|done].
    intros z Hz. by right.
Qed.

Lemma StronglySorted_rev (R : A → A → Prop) l :
  StronglySorted R l → StronglySorted (flip R) (rev l).
Proof.
  induction l as [|x l IH]; simpl; [constructor|].
  intros [Hx Hl]%StronglySorted_cons. apply StronglySorted_app.
  split; [|split].
  - intros a b Ha [->|[]]%list_elem_of_In. 
    apply list_elem_of_In, in_rev in Ha.
    rewrite Forall_forall in Hx. apply Hx. by apply list_elem_of_In.
  - by apply IH.
  - repeat constructor.
Qed.

(** On keys that are ordered, [l.sort(key=..., reverse=True)] is the
    stable sort of the reversed list, reversed: it leaves no element
    before one with a greater key. *)
Lemma list_sort_stable l :
  ordered_keys key lt l →
  list_sort key lt true l = rev (stable_sort key lt (rev l)).
Proof.
  intros Hord. unfold list_sort. rewrite sort_ordered; [done|].
  apply (ordered_keys_perm l); [apply Permutation_rev|done].
Qed.

Lemma list_sort_descending l :
  ordered_keys key lt l →
  StronglySorted (λ a b, lt (key a) (key b) = false)
    (list_sort key lt true l).
Proof.
  intros Hord. rewrite list_sort_stable by done.
  apply (StronglySorted_rev _ _ (stable_sort_sorted (rev l)
           (ordered_keys_perm l _ (Permutation_rev l) Hord))).
Qed.

(** A list without an element that is followed by a greater one is left
    as it is by [l.sort(key=..., reverse=True)], whatever the keys. *)
Lemma list_sort_one_run l :
  one_run key lt (rev l) = true → list_sort key lt true l = l.
Proof.
  intros Hrun. unfold list_sort. rewrite sort_one_run by done.
  apply rev_involutive.
Qed.

Lemma one_run_sorted l :
  StronglySorted (λ a b, lt (key b) (key a) = false) l →
  one_run key lt l = true.
Proof.
  induction l as [|x l IH]; [done|].
  intros [Hx Hl]%StronglySorted_cons. destruct l as [|y l]; [done|].
  cbn [one_run]. apply Forall_cons in Hx as [Hxy _].
  rewrite Hxy. cbn. by apply IH.
Qed.

(** Sorting once more changes nothing, on keys that are ordered. *)
Lemma list_sort_again l :
  ordered_keys key lt l →
  list_sort key lt true (list_sort key lt true l) = list_sort key lt true l.
Proof.
  intros Hord. apply list_sort_one_run.
  rewrite list_sort_stable by done. rewrite rev_involutive.
  by apply one_run_sorted, stable_sort_sorted,
    (ordered_keys_perm l), Hord; apply Permutation_rev.
Qed.

End SortFacts.

Section SliceFacts.
Import Py.
Context {A : Type}.

Lemma slice_to_nonneg (l : list A) n :
  0 ≤ n → slice_to l n = take (Z.to_nat n) l.
Proof.
  intros Hn. unfold slice_to, clamp_index.
  destruct (Z.ltb_spec n 0) as [|_]; [lia|].
  destruct (Z.le_gt_cases n (Z.of_nat (length l))).
  - by rewrite Z.min_l, Z.max_r by lia.
  - rewrite Z.min_r, Z.max_r, Nat2Z.id by lia.
    rewrite !take_ge; [done|lia|lia].
Qed.

Lemma slice_to_neg (l : list A) n :
  n < 0 → slice_to l n = take (length l - Z.to_nat (- n)) l.
Proof.
  intros Hn. unfold slice_to, clamp_index.
  destruct (Z.ltb_spec n 0) as [_|]; [|lia].
  f_equal. lia.
Qed.

End SliceFacts.

(* ===================================================================== *)
(** * Recommendation assembly                                             *)
(* ===================================================================== *)

Section Fallback.
Import Py Rt Models Env ProductService Spec.
Context `{External} `{!Sorting}.

(** The loop of the fallback on triples whose reasons are strings: every
    triple becomes a recommendation that carries it. *)
Lemma recommend_all_carries tops :
  Forall reason_is_str tops →
  ∃ recs, recommend_all tops = Return recs ∧ Forall2 carries tops recs.
Proof.
  induction tops as [|x tops IH]; intros Hs.
  - exists []. split; [done|constructor].
  - apply Forall_cons in Hs as [[s Hx] Hs].
    destruct (IH Hs) as (recs & Hrecs & Hc).
    eexists. cbn [recommend_all]. unfold mbind, outcome_bind.
    rewrite Hx. cbn [ProductRecommendation_of]. rewrite Hrecs.
    split; [reflexivity|]. constructor; [|done].
    by repeat split.
Qed.

(** What [_fallback_recommendations] returns and what it leaves in the
    world. *)
Lemma fallback_run request l w xs :
  heap w !! l = Some xs →
  let sorted := list_sort score float_ltb true xs in
  _fallback_recommendations request l w
  = (match recommend_all (slice_to sorted (max_results request)) with
     | Return recs =>
         Return {| recommendations := recs;
                   query_details := request;
                   additional_questions := Some [] |}
     | Raise e => Raise e
     end,
     {| llm_log := llm_log w;
        agent_log := agent_log w;
        heap := <[l := sorted]> (heap w) |}).
Proof.
  intros Hl sorted.
  unfold _fallback_recommendations, mbind, M_bind, bind, read_list,
    write_list, lift, mret, M_ret, ret.
  cbn [heap llm_log agent_log]. rewrite Hl, lookup_insert_eq.
  change (default [] (Some xs)) with xs.
  change (default [] (Some (list_sort (λ x : evaluated, x.1.2) float_ltb true xs)))
    with sorted.
  by destruct (recommend_all (slice_to sorted (max_results request))).
Qed.

(** The whole call when the answer leads to the fallback and the reasons
    are strings. *)
Lemma generate_recommendations_fallback request l w xs content :
  heap w !! l = Some xs →
  let prompt :=
    get_generate_recommendations_prompt request (dumps_products xs)
      (max_results request) in
  llm_reply (llm_log w) prompt = Return content →
  takes_fallback request content →
  Forall reason_is_str xs →
  let sorted := list_sort score float_ltb true xs in
  ∃ recs,
    Forall2 carries (slice_to sorted (max_results request)) recs
    ∧ generate_recommendations request l w
      = (Return {| recommendations := recs;
                   query_details := request;
                   additional_questions := Some [] |},
         {| llm_log := prompt :: llm_log w;
            agent_log := agent_log w;
            heap := <[l := sorted]> (heap w) |}).
Proof.
  intros Hl prompt Hreply Hfb Hstr sorted.
  assert (Htop : Forall reason_is_str (slice_to sorted (max_results request))).
  { apply Forall_forall. intros x Hx. rewrite Forall_forall in Hstr.
    apply Hstr. unfold slice_to in Hx.
    apply (subseteq_take (clamp_index sorted (max_results request))) in Hx.
    unfold sorted in Hx. by rewrite list_sort_perm in Hx. }
  destruct (recommend_all_carries _ Htop) as (recs & Hrecs & Hc).
  exists recs. split; [done|].
  unfold generate_recommendations, mbind, M_bind, bind, read_list, ainvoke,
    try_except.
  rewrite Hl. change (default [] (Some xs)) with xs. fold prompt.
  rewrite Hreply.
  set (w1 := {| llm_log := prompt :: llm_log w;
                agent_log := agent_log w; heap := heap w |}).
  assert (Hf : _fallback_recommendations request l w1
               = (Return {| recommendations := recs;
                            query_details := request;
                            additional_questions := Some [] |},
                  {| llm_log := prompt :: llm_log w;
                     agent_log := agent_log w;
                     heap := <[l := sorted]> (heap w) |})).
  { rewrite (fallback_run request l w1 xs) by done. fold sorted.
    by rewrite Hrecs. }
  unfold takes_fallback in Hfb.
  destruct (_extract_json_from_text content) as [[|c rest]|];
    [by rewrite Hf| |by rewrite Hf].
  destruct Hfb as [e He]. unfold lift. rewrite He. by rewrite Hf.
Qed.

(** What the call leaves in the caller's list when the answer leads to
    the fallback, whatever the reasons are. *)
Lemma generate_recommendations_fallback_world request l w xs content :
  heap w !! l = Some xs →
  let prompt :=
    get_generate_recommendations_prompt request (dumps_products xs)
      (max_results request) in
  llm_reply (llm_log w) prompt = Return content →
  takes_fallback request content →
  let sorted := list_sort score float_ltb true xs in
  list_sort score float_ltb true sorted = sorted →
  (generate_recommendations request l w).2
  = {| llm_log := prompt :: llm_log w;
       agent_log := agent_log w;
       heap := <[l := sorted]> (heap w) |}.
Proof.
  intros Hl prompt Hreply Hfb sorted Hagain.
  unfold generate_recommendations, mbind, M_bind, bind, read_list, ainvoke,
    try_except.
  rewrite Hl. change (default [] (Some xs)) with xs. fold prompt.
  rewrite Hreply.
  set (w1 := {| llm_log := prompt :: llm_log w;
                agent_log := agent_log w; heap := heap w |}).
  set (w2 := {| llm_log := prompt :: llm_log w;
                agent_log := agent_log w;
                heap := <[l := sorted]> (heap w) |}).
  assert (Hf1 : (_fallback_recommendations request l w1).2 = w2).
  { by rewrite (fallback_run request l w1 xs). }
  assert (Hf2 : (_fallback_recommendations request l w2).2 = w2).
  { rewrite (fallback_run request l w2 sorted)
      by (cbn [heap w2]; apply lookup_insert_eq).
    cbn [snd llm_log agent_log heap w2]. rewrite Hagain.
    by rewrite insert_insert_eq. }
  unfold takes_fallback in Hfb.
  assert (Htry :
    (match _fallback_recommendations request l w1 with
     | (Return a, w') => (Return a, w')
     | (Raise e, w') => _fallback_recommendations request l w'
     end).2 = w2).
  { destruct (_fallback_recommendations request l w1) as [[a|e] w'];
      cbn [snd] in Hf1; subst w'; [done|exact Hf2]. }
  destruct (_extract_json_from_text content) as [[|c rest]|];
    [exact Htry| |exact Htry].
  destruct Hfb as [e He]. unfold lift. rewrite He. exact Hf1.
Qed.

End Fallback.

Section FallbackSpec.
Import Py Rt Models Env ProductService Spec.
Context `{External} `{!Sorting}.

Lemma sorted_scores xs :
  comparable_scores xs →
  list_sort score float_ltb true xs ≡ₚ xs
  ∧ descending (list_sort score float_ltb true xs)
  ∧ list_sort score float_ltb true xs
    = rev (stable_sort score float_ltb (rev xs)).
Proof.
  intros Hcmp. split; [apply list_sort_perm|].
  split; [by apply list_sort_descending|by apply list_sort_stable].
Qed.

(** C2, amended. When the LLM's ranking answer yields no JSON text, or
    parsing it raises, and [max_results] is not negative, the scores of
    the triples compare as numbers do (no NaN among them) and their
    reasons are strings, [generate_recommendations] returns the fallback
    response: the triples are put in descending order of score, equal
    scores keeping their order; the first [max_results] of them (all of
    them if there are fewer) are kept; each kept triple becomes a
    recommendation with the same product, score and reason;
    [query_details] is the request and [additional_questions] is
    empty. *)
Theorem generate_recommendations_fallback_spec
    (request : ProductRequest) (l : loc) (w : World)
    (xs : list evaluated) (content : str) :
  heap w !! l = Some xs →
  llm_reply (llm_log w)
    (get_generate_recommendations_prompt request (dumps_products xs)
       (max_results request)) = Return content →
  takes_fallback request content →
  0 ≤ max_results request →
  comparable_scores xs →
  Forall reason_is_str xs →
  ∃ sorted recs,
    sorted ≡ₚ xs
    ∧ descending sorted
    ∧ sorted = rev (stable_sort score float_ltb (rev xs))
    ∧ (generate_recommendations request l w).1
      = Return {| recommendations := recs;
                  query_details := request;
                  additional_questions := Some [] |}
    ∧ Forall2 carries (take (Z.to_nat (max_results request)) sorted) recs.
Proof.
  intros Hl Hreply Hfb Hmax Hcmp Hstr.
  destruct (sorted_scores xs Hcmp) as (Hperm & Hdesc & Hstable).
  destruct (generate_recommendations_fallback request l w xs content
              Hl Hreply Hfb Hstr) as (recs & Hc & Hrun).
  exists (list_sort score float_ltb true xs), recs.
  split; [done|]. split; [done|]. split; [done|].
  rewrite Hrun. split; [done|].
  by rewrite <- slice_to_nonneg.
Qed.


End FallbackSpec.

Section FallbackWitnesses.
Import Py Rt Models Env ProductService Spec.

Lemma demo_comparable_scores : @comparable_scores Demo.floats Demo.triples.
Proof.
  split.
  - intros a b _ _ Hab. apply Z.ltb_lt in Hab. apply Z.ltb_ge.
    simpl in *. lia.
  - intros a b c _ _ _ Hab Hbc. apply Z.ltb_ge in Hab, Hbc. apply Z.ltb_ge.
    simpl in *. lia.
Defined.

Lemma demo_reasons : Forall (@reason_is_str Demo.floats) Demo.triples.
Proof. repeat constructor; by eexists. Defined.

Lemma generate_recommendations_fallback_witness :
  ∃ sorted recs,
    sorted ≡ₚ Demo.triples
    ∧ @descending Demo.floats sorted
    ∧ sorted = rev (stable_sort (@score Demo.floats) Z.ltb (rev Demo.triples))
    ∧ (@generate_recommendations Demo.floats Demo.external Demo.sorting
         (Demo.request "nothing to rank" 2) 1%positive Demo.world).1
      = Return
          {| recommendations := recs;
             query_details := Demo.request "nothing to rank" 2;
             additional_questions := Some [] |}
    ∧ Forall2 (@carries Demo.floats) (take 2 sorted) recs.
Proof.
  apply (@generate_recommendations_fallback_spec Demo.floats Demo.external
           Demo.sorting
           (Demo.request "nothing to rank" 2) 1%positive Demo.world
           Demo.triples (py "nothing to rank")).
  - reflexivity.
  - reflexivity.
  - vm_compute. exact I.
  - vm_compute. discriminate.
  - exact demo_comparable_scores.
  - exact demo_reasons.
Defined.


(** C2 as stated fails for a negative [max_results]: with three triples
    and [max_results = -1] the fallback recommends two products, not the
    first [-1] (that is, none) of them. *)
Lemma fallback_negative_max_results_counterexample :
  (@generate_recommendations Demo.floats Demo.external Demo.sorting
     (Demo.request "nothing to rank" (-1)) 1%positive Demo.world).1
  = Return
      {| recommendations :=
           [ {| product := Demo.item "b"; relevance_score := 3;
                recommendation_reason := py "best" |};
             {| product := Demo.item "c"; relevance_score := 2;
                recommendation_reason := py "good" |} ];
         query_details := Demo.request "nothing to rank" (-1);
         additional_questions := Some [] |}
  ∧ take (Z.to_nat (-1))
      (rev (stable_sort (@score Demo.floats) Z.ltb (rev Demo.triples)))
    = [].
Proof.
  split.
  - vm_compute. reflexivity.
  - reflexivity.
Qed.


End FallbackWitnesses.

(* ===================================================================== *)
(** * Relevance scoring                                                   *)
(* ===================================================================== *)

Section Relevance.
Import Py Rt Models Env ProductService Spec.
Context `{External}.

Lemma dict_get_missing (d : list (str * json)) key dflt :
  (∀ v, (key, v) ∉ d) → dict_get d key dflt = dflt.
Proof.
  induction d as [|[k v] d IH]; intros Hno; simpl; [done|].
  unfold str_eqb. case_bool_decide as Hk.
  - subst k. destruct (Hno v). by left.
  - apply IH. intros v' Hin. apply (Hno v'). by right.
Qed.

(** The parsing statements, case by case. *)
Lemma parse_relevance_cases response_json :
  parse_relevance response_json =
  match json_loads response_json with
  | Raise e => Raise e
  | Return (JDict d) =>
      match to_float (dict_get d (py "relevance_score") (JFloat float_zero)) with
      | Raise e => Raise e
      | Return x =>
          Return (x, dict_get d (py "recommendation_reason") (JStr []))
      end
  | Return other =>
      Raise (Exn AttributeError
               (py "'" ++ type_name other
                ++ py "' object has no attribute 'get'"))
  end.
Proof.
  unfold parse_relevance, mbind, outcome_bind.
  destruct (json_loads response_json) as [data|e]; [|done].
  destruct data; reflexivity.
Qed.

(** C5. Once the LLM has answered, [evaluate_product_relevance] returns a
    pair and never raises; the LLM is called exactly once. When no JSON
    text is found in the answer (or an empty one) the pair is [0.0] with
    a fixed message; when loading the text, looking up the keys or the
    conversion to [float] raises, the pair is [0.0] with a message built
    from the exception's text (for a JSON value that is no object, the
    attribute error that names its type; for a score that is [null], a
    list or an object, the type error of [float] that names its type);
    otherwise the pair is the converted [relevance_score] and the
    [recommendation_reason] of the object, where a missing key stands
    for [0.0] and the empty string. *)
Theorem evaluate_product_relevance_spec
    (request : ProductRequest) (product : Product) (w : World)
    (content : str) :
  let prompt :=
    get_evaluate_product_relevance_prompt request (model_dump_json product) in
  llm_reply (llm_log w) prompt = Return content →
  (evaluate_product_relevance request product w).2
  = {| llm_log := prompt :: llm_log w;
       agent_log := agent_log w;
       heap := heap w |}
  ∧ (evaluate_product_relevance request product w).1
    = match _extract_json_from_text content with
      | Some (c :: rest) =>
          match json_loads (c :: rest) with
          | Raise e =>
              Return (float_zero,
                      JStr (py "Ошибка при оценке: " ++ exn_str e))
          | Return (JDict d) =>
              match to_float (dict_get d (py "relevance_score")
                                (JFloat float_zero)) with
              | Raise e =>
                  Return (float_zero,
                          JStr (py "Ошибка при оценке: " ++ exn_str e))
              | Return x =>
                  Return (x, dict_get d (py "recommendation_reason")
                               (JStr []))
              end
          | Return other =>
              Return (float_zero,
                      JStr (py "Ошибка при оценке: "
                            ++ py "'" ++ type_name other
                            ++ py "' object has no attribute 'get'"))
          end
      | _ =>
          Return (float_zero,
                  JStr (py "Не удалось оценить релевантность товара"))
      end
  ∧ (∀ (d : list (str * json)),
       (∀ v, (py "relevance_score", v) ∉ d) →
       to_float (dict_get d (py "relevance_score") (JFloat float_zero))
       = Return float_zero)
  ∧ (∀ (d : list (str * json)),
       (∀ v, (py "recommendation_reason", v) ∉ d) →
       dict_get d (py "recommendation_reason") (JStr []) = JStr [])
  ∧ (∀ v : json,
       match v with
       | JNull | JList _ | JDict _ =>
           to_float v
           = Raise (Exn TypeError
                      (py "float() argument must be a string or a real number, not '"
                       ++ type_name v ++ py "'"))
       | _ => True
       end).
Proof.
  intros prompt Hreply.
  split; [|split; [|split; [|split]]].
  - unfold evaluate_product_relevance, mbind, M_bind, bind, ainvoke,
      try_except. fold prompt. rewrite Hreply.
    destruct (_extract_json_from_text content) as [[|c rest]|]; try done.
    unfold lift. by destruct (parse_relevance (c :: rest)).
  - unfold evaluate_product_relevance, mbind, M_bind, bind, ainvoke,
      try_except. fold prompt. rewrite Hreply.
    destruct (_extract_json_from_text content) as [[|c rest]|]; try done.
    unfold lift. rewrite parse_relevance_cases.
    destruct (json_loads (c :: rest)) as [data|e]; [|done].
    destruct data; try reflexivity.
    by destruct (to_float _).
  - intros d Hd. by rewrite (dict_get_missing d _ _ Hd).
  - intros d Hd. by apply dict_get_missing.
  - intros v. destruct v; reflexivity || exact I.
Qed.

End Relevance.

Section RelevanceWitness.
Import Py Rt Models Env ProductService Spec.

Lemma evaluate_product_relevance_witness :
  (@evaluate_product_relevance Demo.floats Demo.external
     (Demo.request "score: {}" 5) (Demo.item "a") Demo.world).1
  = Return (0, @JStr Demo.floats []).
Proof.
  destruct (@evaluate_product_relevance_spec Demo.floats Demo.external
              (Demo.request "score: {}" 5) (Demo.item "a") Demo.world
              (py "score: {}") eq_refl) as (_ & Hres & _).
  rewrite Hres. vm_compute. reflexivity.
Defined.

End RelevanceWitness.

(* ===================================================================== *)
(** * The fan-out over product pages                                      *)
(* ===================================================================== *)

Section Steady.
Import Py Rt Models Env.
Context `{Floats}.

Lemma steady_ret {A} (a : A) : steady (mret a).
Proof. done. Qed.

Lemma steady_raise {A} e : steady (@raise _ A e).
Proof. done. Qed.

Lemma steady_lift {A} (o : outcome A) : steady (lift o).
Proof. done. Qed.

Lemma steady_bind {A B} (m : M A) (f : A → M B) :
  steady m → (∀ a, steady (f a)) → steady (m ≫= f).
Proof.
  intros Hm Hf w. unfold mbind, M_bind, bind.
  specialize (Hm w). destruct (m w) as [[a|e] w']; simpl in *; subst w'.
  - apply Hf.
  - done.
Qed.

Lemma steady_try_except {A} (m : M A) (h : exn → M A) :
  steady m → (∀ e, steady (h e)) → steady (try_except m h).
Proof.
  intros Hm Hh w. unfold try_except.
  specialize (Hm w). destruct (m w) as [[a|e] w']; simpl in *; subst w'.
  - done.
  - apply Hh.
Qed.

(** The world after [m ≫= f] when [f] is steady is the world after [m]. *)
Lemma bind_steady_world {A B} (m : M A) (f : A → M B) w :
  (∀ a, steady (f a)) → ((m ≫= f) w).2 = (m w).2.
Proof.
  intros Hf. unfold mbind, M_bind, bind.
  destruct (m w) as [[a|e] w']; simpl; [apply Hf|done].
Qed.

Lemma try_except_steady_world {A} (m : M A) (h : exn → M A) w :
  (∀ e, steady (h e)) → (try_except m h w).2 = (m w).2.
Proof.
  intros Hh. unfold try_except.
  destruct (m w) as [[a|e] w']; simpl; [done|apply Hh].
Qed.

End Steady.

Section FanOut.
Import Py Rt Models Env BrowserService Spec.
Context `{External}.

(** An extraction that is awaited runs the agent once, on the prompt of
    the URL, and ends with what the statements after the run make of the
    run's result; an exception of the run is raised again. *)
Lemma extract_product_info_run url request w :
  extract_product_info url request w
  = (result ← agent_reply (agent_log w) (extraction_prompt url request);
     read_product url result,
     after_extraction url request w).
Proof.
  unfold extract_product_info, extract_product_info_coro.
  cbn [coro_try await]. unfold agent_run. cbn [fst snd].
  fold (after_extraction url request w).
  destruct (agent_reply (agent_log w) (extraction_prompt url request))
    as [result|e]; [|done].
  cbn [mbind outcome_bind].
  by destruct (read_product url result) as [p|e].
Qed.

(** Whatever happens to an extraction, it has run the agent once and done
    nothing else to the world. *)
Lemma extract_product_info_world url request w :
  (extract_product_info url request w).2 = after_extraction url request w.
Proof. by rewrite extract_product_info_run. Qed.

(** The first step of the inner coroutine starts the agent, and the
    coroutine never raises: when the run ends it gives the product of a
    successful extraction and [None] otherwise. *)
Lemma extract_single_product_step request url w :
  ∃ k,
    step (extract_single_product request url) w
    = (Running (extraction_prompt url request)
         (agent_reply (agent_log w) (extraction_prompt url request)) k,
       after_extraction url request w)
    ∧ k (agent_reply (agent_log w) (extraction_prompt url request))
      = Ended (Return (succeeded (extract_product_info url request w).1)).
Proof.
  eexists. split; [reflexivity|].
  rewrite extract_product_info_run. cbn [fst].
  destruct (agent_reply (agent_log w) (extraction_prompt url request))
    as [result|e]; [|done].
  cbn [mbind outcome_bind].
  by destruct (read_product url result) as [[p|]|e].
Qed.

(** A task of the fan-out that belongs to an extraction with outcome
    [o]: it waits for its run, or it has ended with the product. *)
Lemma launch_from_run request urls : ∀ started w,
  ∃ ts,
    launch_from started (map (extract_single_product request) urls) w
    = ({| tasks := tasks started ++ ts; raised := raised started |},
       foldl (λ w url, after_extraction url request w) w urls)
    ∧ Forall2
        (λ o t, ∃ task reply k,
                  t = Running task reply k
                  ∧ k reply = Ended (Return (succeeded o)))
        (extraction_outcomes request urls w) ts.
Proof.
  induction urls as [|url urls IH]; intros started w.
  - exists []. cbn. rewrite app_nil_r. split; [by destruct started|constructor].
  - cbn [map launch_from extraction_outcomes foldl].
    destruct (extract_single_product_step request url w) as (k & -> & Hk).
    cbn [fst snd]. rewrite extract_product_info_world.
    destruct (IH {| tasks := tasks started
                             ++ [Running (extraction_prompt url request)
                                   (agent_reply (agent_log w)
                                      (extraction_prompt url request)) k];
                    raised := note (raised started)
                                (Running (extraction_prompt url request)
                                   (agent_reply (agent_log w)
                                      (extraction_prompt url request)) k) |}
                (after_extraction url request w)) as (ts & -> & Hts).
    eexists (_ :: ts). cbn [tasks raised]. split.
    + rewrite <- app_assoc. cbn [app]. f_equal. f_equal.
      by destruct (raised started).
    + constructor; [|done]. by eexists _, _, _.
Qed.

Lemma in_flight_running {A B} (R : B → task_state A → Prop) os ts :
  Forall2 R os ts →
  (∀ o t, R o t → ∃ task reply k, t = Running task reply k) →
  in_flight ts = length os.
Proof.
  intros Hts Hr. induction Hts as [|o t os ts Hot _ IH]; [done|].
  destruct (Hr o t Hot) as (task & reply & k & ->).
  cbn [in_flight length]. by rewrite IH.
Qed.

(** The tasks while the runs end one after the other: each task waits for
    its run or has ended with the product of its extraction, no task has
    raised, and the world stays as the launch left it. *)
Lemma resume_run (os : list (outcome (option Product))) order : ∀ ts w,
  Forall2
    (λ o t, t = Done (Return (succeeded o))
            ∨ ∃ task reply k,
                t = Running task reply k
                ∧ k reply = Ended (Return (succeeded o)))
    os ts →
  ∃ ts',
    foldl (λ s i, resume i s) ({| tasks := ts; raised := None |}, w) order
    = ({| tasks := ts'; raised := None |}, w)
    ∧ Forall2
        (λ o t, t = Done (Return (succeeded o))
                ∨ ∃ task reply k,
                    t = Running task reply k
                    ∧ k reply = Ended (Return (succeeded o)))
        os ts'
    ∧ (∀ i, i ∈ order → (i < length ts)%nat →
            ∃ o, ts' !! i = Some (Done o))
    ∧ (∀ i o, ts !! i = Some (Done o) → ts' !! i = Some (Done o)).
Proof.
  induction order as [|j order IH]; intros ts w Hts.
  - exists ts. split; [done|]. split; [done|]. split; [|done].
    by intros i ?%elem_of_nil.
  - cbn [foldl]. unfold resume at 2. cbn [fst snd tasks raised].
    destruct (ts !! j) as [[o|task reply k]|] eqn:Hj.
    + destruct (IH ts w Hts) as (ts' & -> & Hts' & Hdone & Hkeep).
      exists ts'. split; [done|]. split; [done|]. split; [|done].
      intros i [->|Hi]%elem_of_cons Hlt; [|by apply Hdone].
      exists o. by apply Hkeep.
    + destruct (Forall2_lookup_r _ _ _ _ _ Hts Hj) as (o & Ho & Hot).
      destruct Hot as [Hot|(task' & reply' & k' & Hot & Hk)]; [done|].
      injection Hot as -> -> ->. rewrite Hk. cbn [step fst snd note].
      assert (Hts1 :
        Forall2
          (λ o t, t = Done (Return (succeeded o))
                  ∨ ∃ task reply k,
                      t = Running task reply k
                      ∧ k reply = Ended (Return (succeeded o)))
          os (<[j := Done (Return (succeeded o))]> ts)).
      { rewrite <- (list_insert_id os j o) by done.
        apply Forall2_insert; [done|by left]. }
      destruct (IH _ w Hts1) as (ts' & -> & Hts' & Hdone & Hkeep).
      exists ts'. split; [done|]. split; [done|]. split.
      * intros i [->|Hi]%elem_of_cons Hlt.
        -- eexists. apply Hkeep. by apply list_lookup_insert_eq.
        -- apply Hdone; [done|]. by rewrite length_insert.
      * intros i o' Hi. apply Hkeep.
        destruct (decide (i = j)) as [->|Hne]; [congruence|].
        by rewrite list_lookup_insert_ne.
    + destruct (IH ts w Hts) as (ts' & -> & Hts' & Hdone & Hkeep).
      exists ts'. split; [done|]. split; [done|]. split; [|done].
      intros i [->|Hi]%elem_of_cons Hlt; [|by apply Hdone].
      apply lookup_lt_is_Some_2 in Hlt as [t Ht]. congruence.
Qed.

Lemma returned_all (os : list (outcome (option Product))) ts :
  Forall2
    (λ o t, t = Done (Return (succeeded o))
            ∨ ∃ task reply k,
                t = Running task reply k
                ∧ k reply = Ended (Return (succeeded o)))
    os ts →
  (∀ i, (i < length ts)%nat → ∃ o, ts !! i = Some (Done o)) →
  returned ts = Some (map succeeded os).
Proof.
  intros Hts. induction Hts as [|o t os ts Hot _ IH]; intros Hdone; [done|].
  destruct (Hdone 0%nat) as [o' Ho']; [cbn; lia|].
  injection Ho' as ->.
  destruct Hot as [->|(task & reply & k & Hot & _)]; [|done].
  cbn [returned map]. rewrite IH; [done|].
  intros i Hi. apply (Hdone (S i)). cbn. lia.
Qed.

Lemma agent_log_after request urls : ∀ w,
  agent_log (foldl (λ w url, after_extraction url request w) w urls)
  = rev (map (λ url, extraction_prompt url request) urls) ++ agent_log w.
Proof.
  induction urls as [|url urls IH]; intros w; [done|].
  cbn [foldl map rev]. rewrite IH. cbn [after_extraction agent_log].
  by rewrite <- app_assoc.
Qed.

Lemma rest_after request urls : ∀ w,
  llm_log (foldl (λ w url, after_extraction url request w) w urls) = llm_log w
  ∧ heap (foldl (λ w url, after_extraction url request w) w urls) = heap w.
Proof.
  induction urls as [|url urls IH]; intros w; [done|].
  cbn [foldl]. destruct (IH (after_extraction url request w)) as [-> ->].
  done.
Qed.

Lemma omap_succeeded (os : list (outcome (option Product))) :
  omap (λ product, product) (map succeeded os) = omap succeeded os.
Proof.
  induction os as [|o os IH]; [done|].
  simpl. fold (omap (λ product : option Product, product) (map succeeded os)).
  fold (omap succeeded os). rewrite IH. by destruct (succeeded o).
Qed.

Lemma extraction_outcomes_length request urls : ∀ w,
  length (extraction_outcomes request urls w) = length urls.
Proof.
  induction urls as [|url urls IH]; intros w; [done|].
  cbn [extraction_outcomes length]. by rewrite IH.
Qed.


End FanOut.

Section FanOutWitness.
Import Py Rt Models Env BrowserService Spec.


End FanOutWitness.

(* ===================================================================== *)
(** * Request validation                                                  *)
(* ===================================================================== *)

Section Dates.
Import Py Rt Models Env Api.

Ltac compare_fields :=
  repeat match goal with
    | |- context [(?x <? ?y)] => destruct (Z.ltb_spec x y)
    | |- context [(?x =? ?y)] => destruct (Z.eqb_spec x y)
    end.

(** Two dates are ordered one way or the other. *)
Lemma date_leb_false a b : date_leb a b = false → date_ltb b a = true.
Proof.
  destruct a as [y1 m1 d1], b as [y2 m2 d2].
  unfold date_leb, date_ltb, date_eqb. cbn [year month day].
  compare_fields; cbn; intros; try done; lia.
Qed.

Lemma date_leb_ltb a b : date_leb a b = true → date_ltb b a = false.
Proof.
  destruct a as [y1 m1 d1], b as [y2 m2 d2].
  unfold date_leb, date_ltb, date_eqb. cbn [year month day].
  compare_fields; cbn; intros; try done; lia.
Qed.

Lemma validator_accepts v ci v' :
  check_out_after_check_in v (Some ci) = Some v' →
  v' = v ∧ date_ltb ci v = true.
Proof.
  unfold check_out_after_check_in.
  destruct (date_leb v ci) eqn:E; [done|]. intros [= <-].
  split; [done|]. by apply date_leb_false.
Qed.

(** A [BookingRequest] that was built has its dates in order. *)
Lemma BookingRequest_new_dates i b :
  BookingRequest_new i = Return b →
  date_ltb (check_in b) (check_out b) = true.
Proof.
  unfold BookingRequest_new.
  destruct (required (in_city i)) as [c|]; [|done].
  destruct (required (in_check_in i)) as [ci|]; [|done].
  destruct (required (in_check_out i)) as [co|]; [|done].
  destruct (check_out_after_check_in co (Some ci)) as [co'|] eqn:Eco;
    [|done].
  apply validator_accepts in Eco as [-> Hlt].
  repeat case_match; try done; by intros [= <-].
Qed.

(** Dates out of order are refused. *)
Lemma BookingRequest_new_rejects i ci co :
  in_check_in i = Given ci → in_check_out i = Given co →
  date_leb co ci = true →
  BookingRequest_new i
  = Raise (Exn ValidationError (py "validation error for BookingRequest")).
Proof.
  intros Hci Hco Hle. unfold BookingRequest_new.
  rewrite Hci, Hco. cbn [required]. unfold check_out_after_check_in.
  rewrite Hle. by repeat case_match.
Qed.

Context `{External}.

(** C3. Building a [BookingRequest] whose check-out date is not after its
    check-in date raises a validation error, so every request that was
    built has [check_out > check_in]; and [start_search], handed a request
    with [check_out <= check_in], raises an HTTP 400 and stores nothing. *)
Theorem check_out_after_check_in_spec :
  (∀ i ci co,
     in_check_in i = Given ci → in_check_out i = Given co →
     date_leb co ci = true →
     ∃ e, BookingRequest_new i = Raise e ∧ exn_class_of e = ValidationError)
  ∧ (∀ i b,
       BookingRequest_new i = Return b →
       date_ltb (check_in b) (check_out b) = true
       ∧ date_leb (check_out b) (check_in b) = false)
  ∧ (∀ b today now st,
       date_leb (check_out b) (check_in b) = true →
       ∃ detail, start_search b today now st = (HTTPException 400 detail, st)).
Proof.
  split; [|split].
  - intros i ci co Hci Hco Hle. eexists. split.
    + by eapply BookingRequest_new_rejects.
    + done.
  - intros i b Hb. pose proof (BookingRequest_new_dates i b Hb) as Hlt.
    split; [done|].
    destruct (date_leb (check_out b) (check_in b)) eqn:E; [|done].
    apply date_leb_ltb in E. congruence.
  - intros b today now st Hle. unfold start_search.
    destruct (date_leb (check_in b) today); [by eexists|].
    rewrite Hle. by eexists.
Qed.

End Dates.

Section DatesWitness.
Import Py Rt Models Env Api.

Lemma check_out_after_check_in_witness :
  (∃ e, BookingRequest_new
          (Demo.booking_input (Date 2030 5 10) (Date 2030 5 10)) = Raise e
        ∧ exn_class_of e = ValidationError)
  ∧ date_ltb (Date 2030 5 10) (Date 2030 5 12) = true
  ∧ ∃ detail,
      @start_search Demo.floats Demo.external
        (Demo.booking (Date 2030 5 10) (Date 2030 5 9)) (Date 2026 1 1) 0
        {| search_tasks := ∅; booking_confirmations := ∅;
           uuids_drawn := 0; background := [] |}
      = (HTTPException 400 detail,
         {| search_tasks := ∅; booking_confirmations := ∅;
            uuids_drawn := 0; background := [] |}).
Proof.
  destruct (@check_out_after_check_in_spec Demo.floats Demo.external)
    as (H1 & H2 & H3).
  split; [|split].
  - apply (H1 _ (Date 2030 5 10) (Date 2030 5 10)); reflexivity.
  - exact (proj1 (H2 (Demo.booking_input (Date 2030 5 10) (Date 2030 5 12))
                    (Demo.booking (Date 2030 5 10) (Date 2030 5 12))
                    eq_refl)).
  - apply H3. reflexivity.
Defined.

End DatesWitness.

(* ===================================================================== *)
(** * The hotel flow                                                      *)
(* ===================================================================== *)

Section Stubs.
Import Py Rt Models Env SutochnoService.
Context `{External}.

Lemma book_hotel_fails self hotel booking_request w :
  ∃ r self',
    (book_hotel self hotel booking_request w).1 = Return (r, self')
    ∧ success r = false
    ∧ booking_id r = None
    ∧ confirmation_number r = None
    ∧ total_amount r = total_price hotel.
Proof.
  unfold book_hotel, try_except.
  destruct (agent self) as [task|]; [|by eexists _, _].
  unfold mbind, M_bind, bind, agent_run.
  destruct (agent_reply (agent_log w) (booking_task hotel booking_request))
    as [result|e]; by eexists _, _.
Qed.

Lemma book_hotel_success_false self hotel booking_request w :
  ∃ r self',
    (book_hotel self hotel booking_request w).1 = Return (r, self')
    ∧ success r = false.
Proof.
  destruct (book_hotel_fails self hotel booking_request w)
    as (r & self' & Hr & Hs & _).
  by exists r, self'.
Qed.

Lemma search_hotels_empty self booking_request w r self' :
  (search_hotels self booking_request w).1 = Return (r, self') →
  hotels r = [] ∧ total_found r = 0.
Proof.
  unfold search_hotels, try_except, mbind, M_bind, bind, agent_run.
  destruct (agent_reply (agent_log w) (search_task booking_request))
    as [result|e]; [|done].
  cbn. by intros [= <- _].
Qed.

(** C4. The parsing steps of the hotel flow are stubs. For every agent
    result, [_parse_booking_result] returns a result with [success =
    False], the hotel's [total_price] as [total_amount], the "not
    implemented" message and neither a booking id nor a confirmation
    number, and [_parse_search_results] returns the empty list. So
    [book_hotel] never returns a success, and whatever [search_hotels]
    returns has no hotel in it. *)
Theorem parsing_is_unimplemented :
  (∀ agent_result hotel booking_request w,
     _parse_booking_result agent_result hotel booking_request w
     = (Return
          {| success := false;
             booking_id := None;
             confirmation_number := None;
             total_amount := total_price hotel;
             message :=
               py "Парсинг результата бронирования пока не реализован";
             booking_url := None |}, w))
  ∧ (∀ agent_result booking_request w,
       _parse_search_results agent_result booking_request w = (Return [], w))
  ∧ (∀ self hotel booking_request w,
       ∃ r self',
         (book_hotel self hotel booking_request w).1 = Return (r, self')
         ∧ success r = false
         ∧ booking_id r = None
         ∧ confirmation_number r = None
         ∧ total_amount r = total_price hotel)
  ∧ (∀ self booking_request w r self',
       (search_hotels self booking_request w).1 = Return (r, self') →
       hotels r = [] ∧ total_found r = 0).
Proof.
  split; [done|]. split; [done|]. split.
  - apply book_hotel_fails.
  - apply search_hotels_empty.
Qed.

End Stubs.

Section StubsWitness.
Import Py Rt Models Env SutochnoService.

Lemma parsing_is_unimplemented_witness :
  (@search_hotels Demo.floats Demo.external {| agent := None |}
     (Demo.booking (Date 2030 5 10) (Date 2030 5 12)) Demo.world).1
  = Return
      ({| hotels := [];
          total_found := 0;
          search_params := Demo.booking (Date 2030 5 10) (Date 2030 5 12) |},
       {| agent := Some (py "Kazan") |})
  ∧ hotels
      {| hotels := [];
         total_found := 0;
         search_params := Demo.booking (Date 2030 5 10) (Date 2030 5 12) |}
    = @nil (@HotelInfo Demo.floats).
Proof.
  split; [reflexivity|].
  exact (proj1
           (proj2 (proj2 (proj2
              (@parsing_is_unimplemented Demo.floats Demo.external)))
              {| agent := None |}
              (Demo.booking (Date 2030 5 10) (Date 2030 5 12)) Demo.world
              _ _ eq_refl)).
Defined.

End StubsWitness.

(* ===================================================================== *)
(** * The task and confirmation stores                                    *)
(* ===================================================================== *)

Section Stores.
Import Py Rt Models Env Api.
Context `{External}.

Lemma cancelled_is_no_status : parse_status (py "cancelled") = None.
Proof. vm_compute. reflexivity. Qed.

Lemma SearchStatus_new_cancelled msg pr :
  SearchStatus_new (py "cancelled") msg pr
  = Raise (Exn ValidationError (py "validation error for SearchStatus")).
Proof. unfold SearchStatus_new. by rewrite cancelled_is_no_status. Qed.

Lemma lookup_update_task task_id f st :
  search_tasks (update_task task_id f st) !! task_id
  = f <$> search_tasks st !! task_id.
Proof. unfold update_task. cbn [search_tasks]. apply lookup_alter_eq. Qed.


(** C9. A call of [execute_booking] on a stored confirmation that
    returns a result has left the stored confirmation with [confirmed =
    True], whatever the [success] flag of that result: the result is the
    one [book_hotel] returned, and nothing in the handler looks at it.
    (When [book_hotel] raises, the handler raises an HTTP 500 and the
    store is as before.) *)
Theorem execute_booking_marks_confirmed
    (confirmation_id : str) (service : ServiceObj) (st st' : Stores)
    (w w' : World) (c : BookingConfirmation)
    (resp : response BookingResult) :
  booking_confirmations st !! confirmation_id = Some c →
  execute_booking confirmation_id service st w = (Return (resp, st'), w') →
  match resp with
  | Ok r =>
      svc_book_hotel service (hotel c) (booking_request c) w = (Return r, w')
      ∧ ∃ c', booking_confirmations st' !! confirmation_id = Some c'
              ∧ confirmed c' = true
              ∧ hotel c' = hotel c
              ∧ booking_request c' = booking_request c
  | HTTPException code _ => code = 500 ∧ st' = st
  | Failed _ => False
  end.
Proof.
  intros Hc. unfold execute_booking. rewrite Hc.
  unfold try_except, mbind, M_bind, bind.
  destruct (svc_book_hotel service (hotel c) (booking_request c) w)
    as [[r|e] w1]; cbn [mret M_ret ret]; intros [= <- <- <-].
  - split; [done|]. eexists. cbn [booking_confirmations].
    split; [apply lookup_insert_eq|]. done.
  - done.
Qed.

(** With the service the application injects, the call always returns,
    the result always has [success = False], and the confirmation is
    marked all the same. *)
Lemma execute_booking_with_sutochno confirmation_id st w c :
  booking_confirmations st !! confirmation_id = Some c →
  ∃ r st' w' c',
    execute_booking confirmation_id get_sutochno_service st w
    = (Return (Ok r, st'), w')
    ∧ success r = false
    ∧ booking_confirmations st' !! confirmation_id = Some c'
    ∧ confirmed c' = true.
Proof.
  intros Hc. unfold execute_booking. rewrite Hc.
  unfold try_except, mbind, M_bind, bind.
  cbn [svc_book_hotel get_sutochno_service].
  unfold mbind, M_bind, bind.
  destruct (book_hotel_success_false
              {| SutochnoService.agent := None |}
              (hotel c) (booking_request c) w)
    as (r & self' & Hr & Hs).
  destruct (SutochnoService.book_hotel {| SutochnoService.agent := None |}
              (hotel c) (booking_request c) w) as [[[r0 s0]|e] w1];
    cbn [fst] in Hr; [|done].
  injection Hr as -> ->. cbn [mret M_ret ret fst].
  eexists _, _, _, _. split; [reflexivity|]. split; [done|].
  cbn [booking_confirmations]. split; [apply lookup_insert_eq|done].
Qed.

End Stores.

Section StoresWitnesses.
Import Py Rt Models Env Api.



Lemma execute_booking_marks_confirmed_witness :
  ∃ c', booking_confirmations
          {| search_tasks := search_tasks Demo.stores;
             booking_confirmations :=
               <[py "c1" :=
                   set_confirmed true
                     {| hotel := Demo.flat;
                        booking_request :=
                          Demo.booking (Date 2030 5 10) (Date 2030 5 12);
                        confirmed := false |}]>
                 (booking_confirmations Demo.stores);
             uuids_drawn := 2;
             background := [] |} !! py "c1" = Some c'
        ∧ confirmed c' = true
        ∧ hotel c' = Demo.flat
        ∧ booking_request c' = Demo.booking (Date 2030 5 10) (Date 2030 5 12).
Proof.
  exact (proj2
           (@execute_booking_marks_confirmed Demo.floats
              (py "c1") Demo.obliging_service Demo.stores _
              Demo.world Demo.world
              {| hotel := Demo.flat;
                 booking_request :=
                   Demo.booking (Date 2030 5 10) (Date 2030 5 12);
                 confirmed := false |}
              (Ok {| success := true;
                     booking_id := Some (py "B-1");
                     confirmation_number := Some (py "42");
                     total_amount := 9000;
                     message := py "booked";
                     booking_url := None |})
              eq_refl eq_refl)).
Defined.

End StoresWitnesses.

(* ===================================================================== *)
(** * More on the extraction of JSON text                                 *)
(* ===================================================================== *)

Section ExtractionMore.
Import Py Re Spec ProductService.

(** Without a fenced block the helper is the brace search. *)
Lemma extract_without_block text :
  ¬ has_block text →
  _extract_json_from_text text =
  match split_first [LBRACE] text with
  | Some (_, r) =>
      match split_last [RBRACE] r with
      | Some (mid, _) => Some (LBRACE :: mid ++ [RBRACE])
      | None => None
      end
  | None => None
  end.
Proof.
  intros Hno.
  rewrite extract_json_search, (search_block_None _ Hno), search_object.
  destruct (split_first [LBRACE] text) as [[pre r]|]; [|done].
  destruct (split_last [RBRACE] r) as [[mid post]|]; [|done].
  simpl. by rewrite strip_braces.
Qed.

Lemma has_block_dec text : has_block text ∨ ¬ has_block text.
Proof.
  destruct (split_first FENCE_JSON text) as [[pre r]|] eqn:E1.
  - destruct (split_first FENCE r) as [[body post]|] eqn:E2.
    + left. by eapply found_has_block.
    + right. intros (pre' & r' & body & post & H1 & H2)%has_block_found.
      congruence.
  - right. intros (pre' & r' & body & post & H1 & H2)%has_block_found.
    congruence.
Qed.

(** X1. Whatever [_extract_json_from_text] returns is a contiguous piece
    of the text it was given, with no whitespace at either end: the
    helper neither repairs nor rewrites what it finds. *)
Theorem extract_json_is_stripped_substring (text s : str) :
  _extract_json_from_text text = Some s →
  (∃ pre post, text = pre ++ s ++ post) ∧ strip s = s.
Proof.
  intros Hs. destruct (has_block_dec text) as [Hb|Hno].
  - apply has_block_found in Hb as (pre & r & body & post & H1 & H2).
    apply split_first_sound in H1, H2.
    rewrite (extract_block _ _ _ _ _ H1 H2) in Hs. injection Hs as <-.
    split; [|apply strip_by_idemp].
    destruct H1 as [-> _]. destruct H2 as [-> _].
    destruct (strip_by_split isspace body) as (l & r' & Hbody & _ & _).
    exists (pre ++ FENCE_JSON ++ l), (r' ++ FENCE ++ post).
    fold (strip body) in Hbody. rewrite Hbody at 1.
    by rewrite <- !app_assoc.
  - rewrite (extract_without_block _ Hno) in Hs.
    destruct (split_first [LBRACE] text) as [[pre r]|] eqn:E1; [|done].
    destruct (split_last [RBRACE] r) as [[mid post]|] eqn:E2; [|done].
    injection Hs as <-. split; [|apply strip_braces].
    apply split_first_sound in E1 as [-> _].
    apply split_last_sound in E2 as [-> _].
    exists pre, post. simpl. by rewrite <- app_assoc.
Qed.

Lemma extract_json_is_stripped_substring_witness :
  (∃ pre post, py "so: {}, done" = pre ++ py "{}" ++ post)
  ∧ strip (py "{}") = py "{}".
Proof.
  exact (extract_json_is_stripped_substring (py "so: {}, done") (py "{}")
           eq_refl).
Defined.

(** X2. A text that is one JSON object, from its opening brace to its
    closing brace, and holds no fenced block is returned as it is. *)
Theorem extract_json_bare_object (mid : str) :
  ¬ has_block (LBRACE :: mid ++ [RBRACE]) →
  _extract_json_from_text (LBRACE :: mid ++ [RBRACE])
  = Some (LBRACE :: mid ++ [RBRACE]).
Proof.
  intros Hno.
  apply (extract_object (LBRACE :: mid ++ [RBRACE]) [] (mid ++ [RBRACE])
           mid [] Hno).
  - split; [done|]. intros; simpl; lia.
  - split; [done|]. intros pre' post' Heq.
    apply (f_equal length) in Heq. rewrite !length_app in Heq.
    simpl in Heq. lia.
Qed.

Lemma extract_json_bare_object_witness :
  _extract_json_from_text (LBRACE :: py " 1 } { 2 " ++ [RBRACE])
  = Some (LBRACE :: py " 1 } { 2 " ++ [RBRACE]).
Proof.
  apply extract_json_bare_object.
  intros (pre & r & body & post & H1 & H2)%has_block_found.
  vm_compute in H1. discriminate H1.
Defined.

End ExtractionMore.

(* ===================================================================== *)
(** * More on the brace scan and the page extraction                      *)
(* ===================================================================== *)

Section BraceScanMore.
Import Py Spec BrowserService.

Lemma no_occurrence_char (c : codepoint) (s : str) :
  (∀ pre post, s ≠ pre ++ [c] ++ post) ↔ c ∉ s.
Proof.
  split.
  - intros Hno Hin. apply list_elem_of_split in Hin as (pre & post & ->).
    by apply (Hno pre post).
  - intros Hnot pre post ->. apply Hnot.
    rewrite !elem_of_app. right. left. by left.
Qed.

Lemma split_first_char_None c s : split_first [c] s = None ↔ c ∉ s.
Proof.
  rewrite <- no_occurrence_char. split.
  - apply split_first_None.
  - intros Hno. destruct (split_first [c] s) as [[p r]|] eqn:E; [|done].
    apply split_first_sound in E as [-> _]. by destruct (Hno p r).
Qed.

Lemma split_last_char_None c s : split_last [c] s = None ↔ c ∉ s.
Proof.
  rewrite <- no_occurrence_char. split.
  - apply split_last_None.
  - intros Hno. destruct (split_last [c] s) as [[p r]|] eqn:E; [|done].
    apply split_last_sound in E as [-> _]. by destruct (Hno p r).
Qed.

Lemma slice_empty {A} (l : list A) (a b : nat) :
  (b ≤ a)%nat → slice l (Z.of_nat a) (Z.of_nat b) = [].
Proof.
  intros Hle. unfold slice, clamp_index.
  destruct (Z.ltb_spec (Z.of_nat a) 0); [lia|].
  destruct (Z.ltb_spec (Z.of_nat b) 0); [lia|].
  replace (Z.to_nat (Z.max 0 (Z.min (Z.of_nat b) (Z.of_nat (length l))))
           - Z.to_nat (Z.max 0 (Z.min (Z.of_nat a) (Z.of_nat (length l)))))%nat
    with O by lia.
  done.
Qed.

Lemma locate_json_none text :
  LBRACE ∉ text ∨ RBRACE ∉ text ↔ locate_json text = None.
Proof.
  unfold locate_json. rewrite find_split_first, rfind_split_last.
  rewrite <- split_first_char_None, <- split_last_char_None.
  destruct (split_first [LBRACE] text) as [[p1 r1]|];
    destruct (split_last [RBRACE] text) as [[p2 r2]|]; cbn.
  - destruct (Z.eqb_spec (Z.of_nat (length p1)) (-1)); [lia|].
    destruct (Z.eqb_spec (Z.of_nat (length p2) + 1) 0); [lia|].
    cbn. split; [by intros [|]|done].
  - destruct (Z.eqb_spec (Z.of_nat (length p1)) (-1)); [lia|].
    cbn. split; [done|by right].
  - split; [done|by left].
  - split; [done|by left].
Qed.

(** X3. The brace scan of [extract_product_info] finds nothing exactly
    when the text lacks an opening or a closing brace; when every closing
    brace stands before the first opening one it yields the empty text
    (which [json.loads] then refuses); otherwise it yields the text from
    the first opening brace to the last closing brace. *)
Theorem locate_json_spec (text : str) :
  (locate_json text = None ↔ LBRACE ∉ text ∨ RBRACE ∉ text)
  ∧ (LBRACE ∈ text → RBRACE ∈ text → ¬ has_object text →
     locate_json text = Some [])
  ∧ (has_object text →
     ∃ pre mid post,
       text = pre ++ [LBRACE] ++ mid ++ [RBRACE] ++ post
       ∧ (LBRACE ∉ pre) ∧ (RBRACE ∉ post)
       ∧ locate_json text = Some ([LBRACE] ++ mid ++ [RBRACE])).
Proof.
  split; [|split].
  - symmetry. apply locate_json_none.
  - intros HL HR Hno. unfold locate_json.
    rewrite find_split_first, rfind_split_last.
    destruct (split_first [LBRACE] text) as [[p1 r1]|] eqn:E1;
      [|by apply split_first_char_None in E1].
    destruct (split_last [RBRACE] text) as [[p2 r2]|] eqn:E2;
      [|by apply split_last_char_None in E2].
    destruct (Z.eqb_spec (Z.of_nat (length p1)) (-1)); [lia|].
    destruct (Z.eqb_spec (Z.of_nat (length p2) + 1) 0); [lia|].
    cbn [negb andb]. f_equal.
    apply split_first_sound in E1 as [H1 _].
    apply split_last_sound in E2 as [H2 _].
    assert (Hle : (length p2 < length p1)%nat).
    { rewrite H1 in H2.
      apply app_eq_inv in H2 as [(k & -> & Hk)|(k & -> & Hk)].
      - destruct k as [|c k]; [by injection Hk|].
        rewrite length_app. simpl. lia.
      - destruct k as [|c k]; [by injection Hk|].
        injection Hk as <- Hk. destruct Hno.
        exists p1, k, r2. by rewrite H1, Hk. }
    replace (Z.of_nat (length p2) + 1) with (Z.of_nat (S (length p2))) by lia.
    apply slice_empty. lia.
  - intros (pre & r & mid & post & H1 & H2)%has_object_found.
    apply split_first_sound in H1. apply split_last_sound in H2.
    exists pre, mid, post.
    assert (Htext : text = pre ++ [LBRACE] ++ mid ++ [RBRACE] ++ post).
    { destruct H1 as [-> _]. by destruct H2 as [-> _]. }
    split; [done|].
    assert (HL : LBRACE ∉ pre).
    { intros Hin. apply list_elem_of_split in Hin as (a & b & ->).
      destruct H1 as [H1 Hmin].
      specialize (Hmin a (b ++ [LBRACE] ++ r)).
      rewrite H1, <- !app_assoc in Hmin. specialize (Hmin eq_refl).
      rewrite length_app in Hmin. simpl in Hmin. lia. }
    assert (HR : RBRACE ∉ post).
    { intros Hin. apply list_elem_of_split in Hin as (a & b & ->).
      destruct H2 as [H2 Hmax].
      specialize (Hmax (mid ++ [RBRACE] ++ a) b).
      rewrite H2, <- !app_assoc in Hmax. specialize (Hmax eq_refl).
      rewrite length_app in Hmax. simpl in Hmax. lia. }
    split; [done|]. split; [done|].
    apply (locate_json_object text pre mid post).
    + destruct H2 as [-> _]. exact H1.
    + destruct H1 as [-> _].
      pose proof (last_occurrence_extend [RBRACE] (pre ++ [LBRACE])
                    r mid post H2) as Hl.
      by rewrite <- !app_assoc in Hl.
Qed.

Lemma locate_json_spec_witness :
  locate_json (py "} and {") = Some []
  ∧ ∃ pre mid post,
      py "a {b} c" = pre ++ [LBRACE] ++ mid ++ [RBRACE] ++ post
      ∧ (LBRACE ∉ pre) ∧ (RBRACE ∉ post)
      ∧ locate_json (py "a {b} c") = Some ([LBRACE] ++ mid ++ [RBRACE]).
Proof.
  split.
  - apply (proj1 (proj2 (locate_json_spec (py "} and {")))).
    + vm_compute. do 6 right. left.
    + vm_compute. left.
    + intros (pre & r & mid & post & H1 & H2)%has_object_found.
      vm_compute in H1. injection H1 as <- <-. vm_compute in H2.
      discriminate H2.
  - apply (proj2 (proj2 (locate_json_spec (py "a {b} c")))).
    by exists (py "a "), (py "b"), (py " c").
Defined.

End BraceScanMore.

Section PageExtraction.
Import Py Rt Models Env BrowserService Spec.
Context `{External}.

(** X4. When the agent's last answer is a text with no opening or no
    closing brace, [extract_product_info] returns [None] without raising,
    having run the agent once. *)
Theorem extract_product_info_without_braces
    (url : str) (request : ProductRequest) (w : World)
    (result : AgentHistoryList) (content : str) (others : list json) :
  agent_reply (agent_log w) (extraction_prompt url request) = Return result →
  last result = Some (JStr content :: others) →
  LBRACE ∉ content ∨ RBRACE ∉ content →
  extract_product_info url request w
  = (Return None, after_extraction url request w).
Proof.
  intros Hreply Hlast Hno.
  apply (proj1 (locate_json_none content)) in Hno.
  rewrite extract_product_info_run, Hreply. f_equal.
  unfold read_product, last_item, first_item, mbind, outcome_bind.
  rewrite Hlast. cbn [try_except_json]. by rewrite Hno.
Qed.

(** X5. [extract_product_info] hands every failure on as it is: the
    exception of the agent, and the exception of [json.loads] on the text
    cut out of the agent's answer. *)
Theorem extract_product_info_reraises
    (url : str) (request : ProductRequest) (w : World) (e : exn) :
  (agent_reply (agent_log w) (extraction_prompt url request) = Raise e →
   extract_product_info url request w
   = (Raise e, after_extraction url request w))
  ∧ (∀ result content others json_str,
       agent_reply (agent_log w) (extraction_prompt url request)
       = Return result →
       last result = Some (JStr content :: others) →
       locate_json content = Some json_str →
       json_loads json_str = Raise e →
       extract_product_info url request w
       = (Raise e, after_extraction url request w)).
Proof.
  split.
  - intros Hreply. by rewrite extract_product_info_run, Hreply.
  - intros result content others json_str Hreply Hlast Hloc Hjson.
    rewrite extract_product_info_run, Hreply. f_equal.
    unfold read_product, last_item, first_item, mbind, outcome_bind.
    rewrite Hlast, Hloc, Hjson. cbn [try_except_json].
    by destruct e as [[] msg].
Qed.

End PageExtraction.

Section PageExtractionWitnesses.
Import Py Rt Models Env BrowserService Spec.

Lemma extract_product_info_without_braces_witness :
  @extract_product_info Demo.floats Demo.external
    (py "https://x") (Demo.request "tea" 5) Demo.world
  = (Return None,
     @after_extraction Demo.floats Demo.external
       (py "https://x") (Demo.request "tea" 5) Demo.world).
Proof.
  apply (@extract_product_info_without_braces Demo.floats Demo.external
           (py "https://x") (Demo.request "tea" 5) Demo.world
           [[@JStr Demo.floats (py "https://x")]] (py "https://x") []).
  - reflexivity.
  - reflexivity.
  - left. apply split_first_char_None. reflexivity.
Defined.

Lemma extract_product_info_reraises_witness :
  @extract_product_info Demo.floats Demo.external
    (py "offline") (Demo.request "tea" 5) Demo.world
  = (Raise (Exn ServiceError (py "browser closed")),
     @after_extraction Demo.floats Demo.external
       (py "offline") (Demo.request "tea" 5) Demo.world)
  ∧ @extract_product_info Demo.floats Demo.external
      (py "see {x}") (Demo.request "tea" 5) Demo.world
    = (Raise (Exn JSONDecodeError (py "Expecting value")),
       @after_extraction Demo.floats Demo.external
         (py "see {x}") (Demo.request "tea" 5) Demo.world).
Proof.
  split.
  - apply (proj1 (@extract_product_info_reraises Demo.floats Demo.external
                    (py "offline") (Demo.request "tea" 5) Demo.world _)).
    reflexivity.
  - apply (proj2 (@extract_product_info_reraises Demo.floats Demo.external
                    (py "see {x}") (Demo.request "tea" 5) Demo.world _)
             [[@JStr Demo.floats (py "see {x}")]] (py "see {x}") []
             (py "{x}")); reflexivity.
Defined.

End PageExtractionWitnesses.

(* ===================================================================== *)
(** * More on the recommendation assembly                                 *)
(* ===================================================================== *)

Section Ranking.
Import Py Rt Models Env ProductService Spec.
Context `{External} `{!Sorting}.

(** The whole call when the answer parses. *)
Lemma generate_recommendations_success request l w xs content c rest resp :
  heap w !! l = Some xs →
  let prompt :=
    get_generate_recommendations_prompt request (dumps_products xs)
      (max_results request) in
  llm_reply (llm_log w) prompt = Return content →
  _extract_json_from_text content = Some (c :: rest) →
  parse_response request (c :: rest) = Return resp →
  generate_recommendations request l w
  = (Return resp,
     {| llm_log := prompt :: llm_log w;
        agent_log := agent_log w;
        heap := heap w |}).
Proof.
  intros Hl prompt Hreply Hext Hparse.
  unfold generate_recommendations, mbind, M_bind, bind, read_list, ainvoke,
    try_except.
  rewrite Hl. change (default [] (Some xs)) with xs. fold prompt.
  rewrite Hreply, Hext. unfold lift. by rewrite Hparse.
Qed.

(** The fallback keeps the log of the LLM and leaves a list in the caller's
    list object, whether it returns or raises. *)
Lemma fallback_llm_log request l w xs :
  heap w !! l = Some xs →
  llm_log (_fallback_recommendations request l w).2 = llm_log w
  ∧ ∃ ys, heap (_fallback_recommendations request l w).2 !! l = Some ys.
Proof.
  intros Hl. rewrite (fallback_run request l w xs Hl).
  cbn [snd llm_log heap]. split; [done|].
  eexists. apply lookup_insert_eq.
Qed.

(** The call asks the LLM once, whatever follows. *)
Lemma generate_recommendations_llm_log request l w xs :
  heap w !! l = Some xs →
  llm_log (generate_recommendations request l w).2
  = get_generate_recommendations_prompt request (dumps_products xs)
      (max_results request) :: llm_log w.
Proof.
  intros Hl.
  unfold generate_recommendations, mbind, M_bind, bind, read_list, ainvoke,
    try_except.
  rewrite Hl. change (default [] (Some xs)) with xs.
  set (prompt := get_generate_recommendations_prompt _ _ _).
  destruct (llm_reply (llm_log w) prompt) as [content|e]; [|done].
  set (w1 := {| llm_log := prompt :: llm_log w;
                agent_log := agent_log w; heap := heap w |}).
  assert (Htry :
    llm_log (match _fallback_recommendations request l w1 with
             | (Return a, w') => (Return a, w')
             | (Raise e, w') => _fallback_recommendations request l w'
             end).2 = prompt :: llm_log w).
  { destruct (fallback_llm_log request l w1 xs Hl) as (Hlog & ys & Hys).
    destruct (_fallback_recommendations request l w1) as [[a|e] w'];
      cbn [snd] in *; [done|].
    destruct (fallback_llm_log request l w' ys Hys) as (Hlog' & _).
    by rewrite Hlog', Hlog. }
  destruct (_extract_json_from_text content) as [[|c rest]|];
    [exact Htry| |exact Htry].
  unfold lift. destruct (parse_response request (c :: rest)) as [resp|e];
    [done|].
  by destruct (fallback_llm_log request l w1 xs Hl) as (-> & _).
Qed.

Lemma collect_length items rs :
  collect items = Return rs → length rs = length items.
Proof.
  revert rs. induction items as [|item items IH]; intros rs; cbn [collect].
  - by intros [= <-].
  - unfold mbind, outcome_bind.
    destruct (recommendation_of item) as [r|e]; [|done].
    destruct (collect items) as [rs'|e]; [|done].
    intros [= <-]. cbn [length]. by rewrite (IH rs' eq_refl).
Qed.

Lemma collect_raises items item e :
  item ∈ items → recommendation_of item = Raise e →
  ∃ e', collect items = Raise e'.
Proof.
  intros Hin He. induction items as [|i items IH]; [by inversion Hin|].
  cbn [collect]. unfold mbind, outcome_bind.
  destruct (recommendation_of i) as [r|e0] eqn:Ei; [|by eexists].
  apply elem_of_cons in Hin as [->|Hin]; [congruence|].
  destruct (IH Hin) as [e' ->]. by eexists.
Qed.

(** The parsing statements on a JSON object. *)
Lemma parse_response_dict request response_json d :
  json_loads response_json = Return (JDict d) →
  parse_response request response_json =
  (items ← iterate (dict_get d (py "recommendations") (JList []));
   recommendations ← collect items;
   additional ←
     additional_questions_of_json
       (dict_get d (py "additional_questions") (JList []));
   mret {| recommendations := recommendations;
           query_details := request;
           additional_questions := additional |}).
Proof. intros Hj. unfold parse_response. by rewrite Hj. Qed.

Lemma parse_response_details request response_json resp :
  parse_response request response_json = Return resp →
  query_details resp = request.
Proof.
  unfold parse_response, mbind, outcome_bind.
  repeat case_match; try done. by intros [= <-].
Qed.

(** X6. [generate_recommendations] calls the LLM once. An exception of
    that call reaches the caller. Once the LLM has answered and the reason
    of every evaluated triple is a string, the call returns a response,
    whatever the answer is: the parsed one or the fallback, with the
    request as [query_details]. (The fallback validates each
    recommendation it builds, so nothing is said here of triples whose
    reason is not a string.) *)
Theorem generate_recommendations_returns
    (request : ProductRequest) (l : loc) (w : World) (xs : list evaluated) :
  heap w !! l = Some xs →
  let prompt :=
    get_generate_recommendations_prompt request (dumps_products xs)
      (max_results request) in
  llm_log (generate_recommendations request l w).2 = prompt :: llm_log w
  ∧ match llm_reply (llm_log w) prompt with
    | Return content =>
        Forall reason_is_str xs →
        ∃ resp, (generate_recommendations request l w).1 = Return resp
                ∧ query_details resp = request
    | Raise e => (generate_recommendations request l w).1 = Raise e
    end.
Proof.
  intros Hl prompt.
  split; [by apply generate_recommendations_llm_log|].
  destruct (llm_reply (llm_log w) prompt) as [content|e] eqn:Hreply.
  - intros Hstr.
    assert (Hfb : takes_fallback request content →
                  ∃ resp, (generate_recommendations request l w).1 = Return resp
                          ∧ query_details resp = request).
    { intros Hfb.
      destruct (generate_recommendations_fallback request l w xs content
                  Hl Hreply Hfb Hstr) as (recs & _ & ->).
      by eexists. }
    destruct (_extract_json_from_text content) as [[|c rest]|] eqn:Hext.
    + apply Hfb. unfold takes_fallback. by rewrite Hext.
    + destruct (parse_response request (c :: rest)) as [resp|e] eqn:Hp.
      * rewrite (generate_recommendations_success request l w xs content
                   c rest resp Hl Hreply Hext Hp).
        exists resp. split; [done|].
        by eapply parse_response_details.
      * apply Hfb. unfold takes_fallback. rewrite Hext. by exists e.
    + apply Hfb. unfold takes_fallback. by rewrite Hext.
  - unfold generate_recommendations, mbind, M_bind, bind, read_list, ainvoke,
      try_except.
    rewrite Hl. change (default [] (Some xs)) with xs. fold prompt.
    by rewrite Hreply.
Qed.

(** X7. When the LLM's answer parses, the response is the parsed one: it
    has one recommendation for every entry of the answer's
    [recommendations] list, however many [max_results] allows, and the
    caller's list object is left as it was. *)
Theorem generate_recommendations_parsed
    (request : ProductRequest) (l : loc) (w : World) (xs : list evaluated)
    (content : str) (c : codepoint) (rest : str)
    (d : list (str * json)) (items : list json)
    (resp : ProductRecommendationsResponse) :
  heap w !! l = Some xs →
  llm_reply (llm_log w)
    (get_generate_recommendations_prompt request (dumps_products xs)
       (max_results request)) = Return content →
  _extract_json_from_text content = Some (c :: rest) →
  json_loads (c :: rest) = Return (JDict d) →
  dict_get d (py "recommendations") (JList []) = JList items →
  parse_response request (c :: rest) = Return resp →
  (generate_recommendations request l w).1 = Return resp
  ∧ length (recommendations resp) = length items
  ∧ heap (generate_recommendations request l w).2 = heap w.
Proof.
  intros Hl Hreply Hext Hj Hitems Hp.
  rewrite (generate_recommendations_success request l w xs content
             c rest resp Hl Hreply Hext Hp).
  split; [done|]. split; [|done].
  rewrite (parse_response_dict request _ d Hj), Hitems in Hp.
  cbn [iterate] in Hp. unfold mbind, outcome_bind in Hp.
  destruct (collect items) as [rs|e] eqn:Hc; [|done].
  destruct (additional_questions_of_json _) as [a|e]; [|done].
  injection Hp as <-. cbn [recommendations]. by apply collect_length.
Qed.

(** X8. One entry of the LLM's ranking that cannot be made into a
    recommendation discards the whole ranking: when the reasons of the
    evaluated triples are strings, the response is the fallback made of
    the evaluated triples, one recommendation for each triple of the
    slice [[:max_results]] of the caller's list as [list.sort] by score,
    [reverse=True], leaves it, with the triple's product, score and
    reason; no question is added. *)
Theorem generate_recommendations_all_or_nothing
    (request : ProductRequest) (l : loc) (w : World) (xs : list evaluated)
    (content : str) (c : codepoint) (rest : str)
    (d : list (str * json)) (items : list json) (item : json) (e : exn) :
  heap w !! l = Some xs →
  llm_reply (llm_log w)
    (get_generate_recommendations_prompt request (dumps_products xs)
       (max_results request)) = Return content →
  _extract_json_from_text content = Some (c :: rest) →
  json_loads (c :: rest) = Return (JDict d) →
  dict_get d (py "recommendations") (JList []) = JList items →
  item ∈ items →
  recommendation_of item = Raise e →
  Forall reason_is_str xs →
  ∃ recs,
    Forall2 carries
      (slice_to (list_sort score float_ltb true xs) (max_results request))
      recs
    ∧ (generate_recommendations request l w).1
      = Return
          {| recommendations := recs;
             query_details := request;
             additional_questions := Some [] |}.
Proof.
  intros Hl Hreply Hext Hj Hitems Hin He Hstr.
  destruct (generate_recommendations_fallback request l w xs content
              Hl Hreply) as (recs & Hc & Hrun); [|done|].
  - unfold takes_fallback. rewrite Hext.
    rewrite (parse_response_dict request _ d Hj), Hitems.
    cbn [iterate]. unfold mbind, outcome_bind.
    destruct (collect_raises items item e Hin He) as [e' ->]. by exists e'.
  - exists recs. by rewrite Hrun.
Qed.

End Ranking.

Section RankingWitnesses.
Import Py Rt Models Env ProductService Spec.

Lemma generate_recommendations_returns_witness :
  llm_log (@generate_recommendations Demo.floats Demo.external Demo.sorting
             (Demo.request "nothing to rank" 2) 1%positive Demo.world).2
  = [py "nothing to rank"]
  ∧ ∃ resp,
      (@generate_recommendations Demo.floats Demo.external Demo.sorting
         (Demo.request "nothing to rank" 2) 1%positive Demo.world).1
      = Return resp
      ∧ query_details resp = Demo.request "nothing to rank" 2.
Proof.
  destruct (@generate_recommendations_returns Demo.floats Demo.external
              Demo.sorting
              (Demo.request "nothing to rank" 2) 1%positive Demo.world
              Demo.triples eq_refl) as [Hlog Hret].
  split; [exact Hlog|].
  apply Hret. repeat constructor; by eexists.
Defined.

Lemma generate_recommendations_parsed_witness :
  ∃ resp,
    (@generate_recommendations Demo.floats Demo2.accepting_external
       Demo.sorting (Demo.request "{}" 1) 1%positive Demo.world).1
    = Return resp
    ∧ length (recommendations resp) = 2%nat
    ∧ heap (@generate_recommendations Demo.floats Demo2.accepting_external
              Demo.sorting (Demo.request "{}" 1) 1%positive Demo.world).2
      = heap Demo.world.
Proof.
  eexists.
  apply (@generate_recommendations_parsed Demo.floats Demo2.accepting_external
           Demo.sorting
           (Demo.request "{}" 1) 1%positive Demo.world Demo.triples
           (py "{}") LBRACE [RBRACE]
           [(py "recommendations", JList [JDict []; JDict []])]
           [JDict []; JDict []]); reflexivity.
Defined.

Lemma generate_recommendations_all_or_nothing_witness :
  ∃ recs,
    Forall2 (@carries Demo.floats)
      (slice_to (@list_sort Demo.sorting _ _ (@score Demo.floats) Z.ltb true
                   Demo.triples) 1)
      recs
    ∧ (@generate_recommendations Demo.floats Demo2.ranking_external
         Demo.sorting (Demo.request "{}" 1) 1%positive Demo.world).1
      = Return
          {| recommendations := recs;
             query_details := Demo.request "{}" 1;
             additional_questions := Some [] |}.
Proof.
  apply (@generate_recommendations_all_or_nothing
           Demo.floats Demo2.ranking_external Demo.sorting
           (Demo.request "{}" 1) 1%positive Demo.world Demo.triples
           (py "{}") LBRACE [RBRACE]
           [(py "recommendations", JList [JDict []])]
           [JDict []] (JDict [])
           (Exn ValidationError (py "validation error for Product")));
    try reflexivity.
  - by left.
  - repeat constructor; by eexists.
Defined.

End RankingWitnesses.

(* ===================================================================== *)
(** * More on request validation                                          *)
(* ===================================================================== *)

Section BookingValidation.
Import Py Rt Models Env Spec2.

Lemma defaulted_Some {A} (dflt : A) ok f a :
  defaulted dflt ok f = Some a → a = dflt ∨ ok a = true.
Proof.
  destruct f as [| |x]; simpl; [by intros [= <-]; left|done|].
  destruct (ok x) eqn:E; [|done]. intros [= <-]. by right.
Qed.

Lemma max_price_validator_Some v lo v' :
  max_price_greater_than_min v (Some lo) = Some v' →
  v' = v ∧ match lo, v with Some l, Some h => (l <? h) = true | _, _ => True end.
Proof.
  unfold max_price_greater_than_min.
  destruct v as [h|], lo as [l|]; try (by intros [= <-]).
  destruct (Z.leb_spec h l); [done|]. intros [= <-]. split; [done|].
  by apply Z.ltb_lt.
Qed.

(** X9. Every [BookingRequest] that was built has its dates in order,
    between 1 and 10 guests, no negative price, and a maximum price
    above the minimum price when both are given. *)
Theorem BookingRequest_new_well_formed (i : BookingRequestInput)
    (b : BookingRequest) :
  BookingRequest_new i = Return b → well_formed_booking b = true.
Proof.
  intros Hb. pose proof (BookingRequest_new_dates i b Hb) as Hdates.
  unfold well_formed_booking. rewrite Hdates. cbn [andb].
  unfold BookingRequest_new in Hb.
  destruct (required (in_city i)) as [c|]; [|done].
  destruct (required (in_check_in i)) as [ci|]; [|done].
  destruct (match required (in_check_out i) with
            | Some v => check_out_after_check_in v (Some ci)
            | None => None
            end) as [co|]; [|done].
  destruct (defaulted 1 (λ g : Z, (1 <=? g) && (g <=? 10)) (in_guests_count i))
    as [g|] eqn:Eg; [|done].
  destruct (defaulted None ge0 (in_min_price i)) as [lo|] eqn:Elo; [|done].
  destruct (match in_max_price i with
            | Missing => Some None
            | Invalid => None
            | Given v =>
                if ge0 v then max_price_greater_than_min v (Some lo) else None
            end) as [hi|] eqn:Ehi; [|done].
  assert (Hg : (1 <=? g) && (g <=? 10) = true).
  { by destruct (defaulted_Some _ _ _ _ Eg) as [->|Hok]. }
  assert (Hlo : ge0 lo = true).
  { by destruct (defaulted_Some _ _ _ _ Elo) as [->|Hok]. }
  assert (Hhi : ge0 hi = true
                ∧ match lo, hi with
                  | Some l, Some h => (l <? h) = true
                  | _, _ => True
                  end).
  { destruct (in_max_price i) as [| |v]; [|done|].
    - injection Ehi as <-. by destruct lo.
    - destruct (ge0 v) eqn:Ev; [|done].
      apply max_price_validator_Some in Ehi as [-> Hlt]. done. }
  destruct Hhi as [Hhi Hlt].
  destruct (defaulted None (λ _, true) (in_apartment_type i)); [|done].
  destruct (defaulted None (λ _, true) (in_amenities i)); [|done].
  destruct (defaulted None (λ _, true) (in_district i)); [|done].
  destruct (required (in_guest_info i)); [|done].
  destruct (required (in_payment_info i)); [|done].
  injection Hb as <-. cbn [guests_count min_price max_price].
  rewrite Hg, Hlo, Hhi. cbn [andb]. by destruct lo, hi.
Qed.

Lemma BookingRequest_new_well_formed_witness :
  well_formed_booking (Demo.booking (Date 2030 5 10) (Date 2030 5 12)) = true.
Proof.
  exact (BookingRequest_new_well_formed
           (Demo.booking_input (Date 2030 5 10) (Date 2030 5 12))
           (Demo.booking (Date 2030 5 10) (Date 2030 5 12)) eq_refl).
Defined.

(** X10. Building a request from the fields of a request gives that
    request back when it meets the constraints, and raises a validation
    error when it does not. *)
Theorem BookingRequest_new_round_trip (b : BookingRequest) :
  BookingRequest_new (booking_fields b)
  = if well_formed_booking b then Return b
    else Raise (Exn ValidationError (py "validation error for BookingRequest")).
Proof.
  destruct b as [c ci co g lo hi ap am di gi pa].
  unfold BookingRequest_new, booking_fields, well_formed_booking,
    check_out_after_check_in, max_price_greater_than_min.
  cbn [required defaulted in_city in_check_in in_check_out in_guests_count
       in_min_price in_max_price in_apartment_type in_amenities in_district
       in_guest_info in_payment_info city check_in check_out guests_count
       min_price max_price apartment_type amenities district guest_info
       payment_info].
  destruct (date_leb co ci) eqn:Ele.
  - rewrite (date_leb_ltb _ _ Ele). cbn [andb]. by repeat case_match.
  - rewrite (date_leb_false _ _ Ele). cbn [andb].
    destruct ((1 <=? g) && (g <=? 10)) eqn:Eg; cbn [andb]; [|done].
    destruct (ge0 lo) eqn:Elo; cbn [andb]; [|by repeat case_match].
    destruct (ge0 hi) eqn:Ehi; cbn [andb]; [|done].
    destruct hi as [h|], lo as [l|]; try done.
    destruct (Z.leb_spec h l), (Z.ltb_spec l h); try done; lia.
Qed.

End BookingValidation.

(* ===================================================================== *)
(** * More on the hotel service                                           *)
(* ===================================================================== *)

Section HotelService.
Import Py Rt Models Env SutochnoService.
Context `{External}.

(** The world after one run of the agent on [task]. *)
Lemma agent_run_world task w :
  (agent_run task w).2
  = {| llm_log := llm_log w; agent_log := task :: agent_log w;
       heap := heap w |}.
Proof. done. Qed.

(** [search_hotels] runs the agent once on the search task and returns
    exactly when the agent does; an exception of the agent reaches the
    caller as it is. *)
Lemma search_hotels_run (self : Service) (booking_request : BookingRequest)
    (w : World) :
  search_hotels self booking_request w
  = (match agent_reply (agent_log w) (search_task booking_request) with
     | Return _ =>
         Return ({| hotels := [];
                    total_found := 0;
                    search_params := booking_request |},
                 {| agent := Some (search_task booking_request) |})
     | Raise e => Raise e
     end,
     {| llm_log := llm_log w;
        agent_log := search_task booking_request :: agent_log w;
        heap := heap w |}).
Proof.
  unfold search_hotels, try_except, mbind, M_bind, bind, agent_run.
  by destruct (agent_reply (agent_log w) (search_task booking_request)).
Qed.

(** X11. [book_hotel] never raises and never reports a success. On an
    instance without an agent it does not run anything and reports the
    attribute error; on an instance with an agent it runs the agent once
    on the booking task and reports that parsing is not implemented, or,
    when the agent raises, the agent's exception. *)
Theorem book_hotel_spec (self : Service) (hotel : HotelInfo)
    (booking_request : BookingRequest) (w : World) :
  ∃ msg self' w',
    book_hotel self hotel booking_request w
    = (Return ({| success := false;
                  booking_id := None;
                  confirmation_number := None;
                  total_amount := total_price hotel;
                  message := msg;
                  booking_url := None |}, self'), w')
    ∧ match agent self with
      | None =>
          w' = w ∧ self' = self
          ∧ msg = py "Ошибка при бронировании: "
                  ++ py "'NoneType' object has no attribute 'task'"
      | Some _ =>
          w' = {| llm_log := llm_log w;
                  agent_log :=
                    booking_task hotel booking_request :: agent_log w;
                  heap := heap w |}
          ∧ match agent_reply (agent_log w)
                    (booking_task hotel booking_request) with
            | Return _ =>
                msg = py "Парсинг результата бронирования пока не реализован"
            | Raise e =>
                msg = py "Ошибка при бронировании: " ++ exn_str e
            end
      end.
Proof.
  unfold book_hotel, try_except.
  destruct (agent self) as [task|].
  - unfold mbind, M_bind, bind, agent_run.
    destruct (agent_reply (agent_log w) (booking_task hotel booking_request))
      as [result|e]; by eexists _, _, _.
  - by eexists _, _, _.
Qed.

End HotelService.

(* ===================================================================== *)
(** * More on the stores of api.py                                        *)
(* ===================================================================== *)

Section StoresMore.
Import Py Rt Models Env Api ApiRun.
Context `{External}.

Lemma lookup_update_task_ne task_id task_id' f st :
  task_id ≠ task_id' →
  search_tasks (update_task task_id f st) !! task_id'
  = search_tasks st !! task_id'.
Proof. intros Hne. unfold update_task. cbn. by apply lookup_alter_ne. Qed.

Lemma update_task_rest task_id f st :
  booking_confirmations (update_task task_id f st) = booking_confirmations st
  ∧ uuids_drawn (update_task task_id f st) = uuids_drawn st
  ∧ background (update_task task_id f st) = background st.
Proof. done. Qed.

(** X12. A request that names an identifier the stores do not hold is
    answered with HTTP 404 by every handler, and changes nothing. *)
Theorem unknown_identifier_is_404 (st : Stores) (unknown : str) :
  (search_tasks st !! unknown = None →
   (∃ detail, get_search_status unknown st = HTTPException 404 detail)
   ∧ (∃ detail, get_search_results unknown st = HTTPException 404 detail)
   ∧ (∀ h b, ∃ detail,
        confirm_booking h unknown b st = (HTTPException 404 detail, st))
   ∧ (∃ detail, cancel_search unknown st = (HTTPException 404 detail, st)))
  ∧ (booking_confirmations st !! unknown = None →
     (∃ detail, get_booking_confirmation unknown st = HTTPException 404 detail)
     ∧ (∀ service w, ∃ detail,
          execute_booking unknown service st w
          = (Return (HTTPException 404 detail, st), w))).
Proof.
  split.
  - intros Hn. unfold get_search_status, get_search_results, confirm_booking,
      cancel_search. rewrite Hn. repeat split; intros; by eexists.
  - intros Hn. unfold get_booking_confirmation, execute_booking. rewrite Hn.
    split; intros; by eexists.
Qed.

End StoresMore.

Section StoresWitnessesMore.
Import Py Rt Models Env Api ApiRun.

Lemma unknown_identifier_is_404_witness :
  ∃ detail,
    @cancel_search Demo.floats (py "t9") Demo.stores
    = (HTTPException 404 detail, Demo.stores).
Proof.
  apply (proj1 (@unknown_identifier_is_404 Demo.floats Demo.external
                  Demo.stores (py "t9"))).
  reflexivity.
Defined.

End StoresWitnessesMore.

Section StoresFlow.
Import Py Rt Models Env Api ApiRun Spec2.
Context `{External}.

Lemma parse_status_searching : parse_status (py "searching") = Some Searching.
Proof. vm_compute. reflexivity. Qed.

Lemma parse_status_completed : parse_status (py "completed") = Some Completed.
Proof. vm_compute. reflexivity. Qed.

Lemma parse_status_error : parse_status (py "error") = Some Error.
Proof. vm_compute. reflexivity. Qed.

Lemma completed_not_searching : str_eqb (py "completed") (py "searching") = false.
Proof. vm_compute. reflexivity. Qed.

Lemma completed_not_error : str_eqb (py "completed") (py "error") = false.
Proof. vm_compute. reflexivity. Qed.

Lemma error_not_searching : str_eqb (py "error") (py "searching") = false.
Proof. vm_compute. reflexivity. Qed.

Lemma cancelled_not_searching : str_eqb (py "cancelled") (py "searching") = false.
Proof. vm_compute. reflexivity. Qed.

Lemma cancelled_not_error : str_eqb (py "cancelled") (py "error") = false.
Proof. vm_compute. reflexivity. Qed.

Lemma cancelled_not_completed : str_eqb (py "cancelled") (py "completed") = false.
Proof. vm_compute. reflexivity. Qed.

Lemma str_eqb_refl s : str_eqb s s = true.
Proof. unfold str_eqb. by apply bool_decide_eq_true. Qed.

(** X13. A search request whose dates pass the two checks is stored
    under a fresh identifier as a task that is searching with progress 0,
    and is queued for the background; the other tasks and the
    confirmations are as before. The status poll that follows says
    "searching", and the results are answered with HTTP 202. *)
Theorem start_search_then_poll
    (b : BookingRequest) (today : date) (now : Z) (st : Stores) :
  date_leb (check_in b) today = false →
  date_leb (check_out b) (check_in b) = false →
  ∃ st',
    start_search b today now st
    = (Ok (uuid4 (uuids_drawn st), py "Поиск запущен"), st')
    ∧ search_tasks st' !! uuid4 (uuids_drawn st) = Some (started b now)
    ∧ (∀ other, other ≠ uuid4 (uuids_drawn st) →
         search_tasks st' !! other = search_tasks st !! other)
    ∧ booking_confirmations st' = booking_confirmations st
    ∧ background st' = background st ++ [(uuid4 (uuids_drawn st), b)]
    ∧ uuids_drawn st' = S (uuids_drawn st)
    ∧ get_search_status (uuid4 (uuids_drawn st)) st'
      = Ok {| status := Searching;
              status_message := py "Начинаем поиск отелей...";
              progress := Some 0 |}
    ∧ get_search_results (uuid4 (uuids_drawn st)) st'
      = HTTPException 202 (py "Поиск еще выполняется").
Proof.
  intros H1 H2. unfold start_search. rewrite H1, H2.
  eexists. split; [reflexivity|].
  cbn [search_tasks booking_confirmations background uuids_drawn].
  split; [apply lookup_insert_eq|].
  split; [by intros other Hne; apply lookup_insert_ne|].
  split; [done|]. split; [done|]. split; [done|].
  unfold get_search_status, get_search_results.
  cbn [search_tasks]. rewrite lookup_insert_eq.
  cbn [task_status task_message task_progress].
  unfold SearchStatus_new. rewrite parse_status_searching.
  split; [done|]. by rewrite str_eqb_refl.
Qed.

Lemma update_task_compose task_id f g st :
  update_task task_id f (update_task task_id g st)
  = update_task task_id (f ∘ g) st.
Proof.
  unfold update_task. cbn. f_equal. apply alter_alter_eq.
Qed.

(** What a search that came back, or failed, makes of a task. *)
Lemma perform_search_run task_id b service st w t :
  search_tasks st !! task_id = Some t →
  perform_search task_id b service st w
  = (Return
       (update_task task_id
          (match (svc_search_hotels service b w).1 with
           | Return r =>
               set_result (Some r)
               ∘ set_message (found_message (length (hotels r)))
               ∘ set_progress 100 ∘ set_status (py "completed")
               ∘ set_message (py "Ищем отели на sutochno.ru...")
               ∘ set_progress 30
               ∘ set_message (py "Открываем браузер...")
               ∘ set_progress 10
           | Raise e =>
               set_error (Some (exn_str e))
               ∘ set_message (py "Ошибка при поиске: " ++ exn_str e)
               ∘ set_status (py "error")
               ∘ set_message (py "Ищем отели на sutochno.ru...")
               ∘ set_progress 30
               ∘ set_message (py "Открываем браузер...")
               ∘ set_progress 10
           end) st),
     (svc_search_hotels service b w).2).
Proof.
  intros Ht. unfold perform_search. rewrite Ht.
  unfold try_except, mbind, M_bind, bind.
  destruct (svc_search_hotels service b w) as [[r|e] w']; cbn [fst snd].
  - cbn [mret M_ret ret]. rewrite !update_task_compose. reflexivity.
  - cbn [mret M_ret ret]. rewrite !update_task_compose. reflexivity.
Qed.

(** The background task of a task that is not stored. *)
Lemma perform_search_missing task_id b service st w :
  search_tasks st !! task_id = None →
  perform_search task_id b service st w
  = (Raise (Exn KeyError (repr_str task_id)), w).
Proof. intros Ht. unfold perform_search. by rewrite Ht. Qed.

(** X14. The background task of a stored task never raises. When the
    service returns, the task it belongs to is completed with progress 100
    and holds the result: the poll says so and the results endpoint
    returns the result. When the service raises, the task is in error with
    the progress left at 30: the poll says so and the results endpoint
    answers HTTP 500 with the exception's text. Other tasks and the
    confirmations are not touched. On a [task_id] that is not stored the
    background task raises [KeyError] with the identifier, from its first
    assignment and again from its handler, and the service is not
    called. *)
Theorem perform_search_outcome
    (task_id : str) (b : BookingRequest) (service : ServiceObj)
    (st : Stores) (w : World) :
  match search_tasks st !! task_id with
  | None =>
      perform_search task_id b service st w
      = (Raise (Exn KeyError (repr_str task_id)), w)
  | Some t =>
  ∃ st',
    perform_search task_id b service st w
    = (Return st', (svc_search_hotels service b w).2)
    ∧ (∀ other, other ≠ task_id →
         search_tasks st' !! other = search_tasks st !! other)
    ∧ booking_confirmations st' = booking_confirmations st
    ∧ match (svc_search_hotels service b w).1 with
      | Return r =>
          get_search_status task_id st'
          = Ok {| status := Completed;
                  status_message := found_message (length (hotels r));
                  progress := Some 100 |}
          ∧ get_search_results task_id st' = Ok r
      | Raise e =>
          get_search_status task_id st'
          = Ok {| status := Error;
                  status_message := py "Ошибка при поиске: " ++ exn_str e;
                  progress := Some 30 |}
          ∧ get_search_results task_id st'
            = HTTPException 500 (py "Ошибка при поиске: " ++ exn_str e)
      end
  end.
Proof.
  destruct (search_tasks st !! task_id) as [t|] eqn:Ht;
    [|by apply perform_search_missing].
  rewrite (perform_search_run _ _ _ _ _ t Ht). eexists.
  split; [reflexivity|].
  split; [by intros other Hne; apply lookup_update_task_ne|].
  split; [done|].
  unfold get_search_status, get_search_results.
  rewrite lookup_update_task, Ht. cbn [fmap option_fmap option_map].
  destruct (svc_search_hotels service b w).1 as [r|e].
  - cbn [compose set_result set_message set_progress set_status
         task_status task_message task_progress task_result task_error].
    unfold SearchStatus_new. rewrite parse_status_completed.
    split; [done|].
    by rewrite completed_not_searching, completed_not_error.
  - cbn [compose set_error set_message set_progress set_status
         task_status task_message task_progress task_result task_error].
    unfold SearchStatus_new. rewrite parse_status_error.
    split; [done|].
    by rewrite error_not_searching, str_eqb_refl.
Qed.

Lemma perform_search_split task_id b service st w t :
  search_tasks st !! task_id = Some t →
  perform_search task_id b service st w
  = (Return
       (perform_search_end task_id (svc_search_hotels service b w).1
          (perform_search_begin task_id st)),
     (svc_search_hotels service b w).2).
Proof.
  intros Ht. unfold perform_search. rewrite Ht.
  unfold perform_search_end, perform_search_begin,
    try_except, mbind, M_bind, bind.
  by destruct (svc_search_hotels service b w) as [[r|e] w'].
Qed.

(** X15. Cancelling a search while its background task awaits the
    service does not stop it: when the service returns, the task is
    completed with progress 100, the poll answers again and the results
    can be fetched; when the service raises, the task ends in error. The
    cancellation is overwritten either way. *)
Theorem cancel_does_not_stop_the_search
    (task_id : str) (st : Stores) (t : TaskData)
    (o : outcome HotelRecommendations) :
  search_tasks st !! task_id = Some t →
  ∃ body st1,
    cancel_search task_id (perform_search_begin task_id st) = (Ok body, st1)
    ∧ match o with
      | Return r =>
          get_search_status task_id (perform_search_end task_id o st1)
          = Ok {| status := Completed;
                  status_message := found_message (length (hotels r));
                  progress := Some 100 |}
          ∧ get_search_results task_id (perform_search_end task_id o st1)
            = Ok r
      | Raise e =>
          get_search_status task_id (perform_search_end task_id o st1)
          = Ok {| status := Error;
                  status_message := py "Ошибка при поиске: " ++ exn_str e;
                  progress := Some 30 |}
          ∧ get_search_results task_id (perform_search_end task_id o st1)
            = HTTPException 500 (py "Ошибка при поиске: " ++ exn_str e)
      end.
Proof.
  intros Ht. unfold cancel_search, perform_search_begin.
  rewrite !lookup_update_task, Ht. cbn [fmap option_fmap option_map].
  eexists _, _. split; [reflexivity|].
  unfold get_search_status, get_search_results, perform_search_end.
  destruct o as [r|e].
  - rewrite !lookup_update_task, Ht. cbn [fmap option_fmap option_map].
    cbn [set_result set_message set_progress set_status
         task_status task_message task_progress task_result task_error].
    unfold SearchStatus_new. rewrite parse_status_completed.
    split; [done|].
    by rewrite completed_not_searching, completed_not_error.
  - rewrite !lookup_update_task, Ht. cbn [fmap option_fmap option_map].
    cbn [set_error set_message set_progress set_status
         task_status task_message task_progress task_result task_error].
    unfold SearchStatus_new. rewrite parse_status_error.
    split; [done|].
    by rewrite error_not_searching, str_eqb_refl.
Qed.

(** X16. Cancelling a stored task rewrites its status and its message
    and nothing else: progress, result, error and request stay, and so do
    the other tasks and the confirmations. The result of a search that
    had completed can still be fetched; for a search that had none the
    results endpoint answers HTTP 404. *)
Theorem cancel_search_frame (task_id : str) (st : Stores) (t : TaskData) :
  search_tasks st !! task_id = Some t →
  ∃ st' t',
    cancel_search task_id st = (Ok (py "Поиск отменен"), st')
    ∧ search_tasks st' !! task_id = Some t'
    ∧ task_progress t' = task_progress t
    ∧ task_result t' = task_result t
    ∧ task_error t' = task_error t
    ∧ task_booking_request t' = task_booking_request t
    ∧ task_created_at t' = task_created_at t
    ∧ (∀ other, other ≠ task_id →
         search_tasks st' !! other = search_tasks st !! other)
    ∧ booking_confirmations st' = booking_confirmations st
    ∧ get_search_results task_id st'
      = match task_result t with
        | Some r => Ok r
        | None => HTTPException 404 (py "Результаты не найдены")
        end.
Proof.
  intros Ht. unfold cancel_search. rewrite Ht.
  eexists _, _. split; [reflexivity|].
  split; [by rewrite !lookup_update_task, Ht|].
  cbn [set_message set_status task_progress task_result task_error
       task_booking_request task_created_at].
  do 5 (split; [done|]).
  split; [by intros other Hne; rewrite !lookup_update_task_ne|].
  split; [done|].
  unfold get_search_results. rewrite !lookup_update_task, Ht.
  cbn [fmap option_fmap option_map set_message set_status task_status
       task_result].
  by rewrite cancelled_not_searching, cancelled_not_error.
Qed.

End StoresFlow.

Section StoresRun.
Import Py Rt Models Env Api ApiRun Spec2 SutochnoService.
Context `{External}.

(** X17. Confirming a hotel of a completed search stores a confirmation
    that is not yet confirmed, under the identifier [uuid4] gives, with
    the hotel found by its identifier and the request sent with the
    confirmation (which is not compared with the request of the search).
    Nothing checks that the identifier is unused: a confirmation already
    stored under it is replaced, and the confirmations under every other
    identifier stay. The confirmation can be read back; when the
    service's booking returns, executing it answers with the service's
    result and marks it confirmed, and when the booking raises, the
    answer is HTTP 500 with the exception's text and the stores stay as
    they are. The tasks are never touched. *)
Theorem confirm_then_execute
    (hotel_id_arg task_id : str) (b : BookingRequest) (st : Stores)
    (t : TaskData) (r : HotelRecommendations) (h : HotelInfo) :
  search_tasks st !! task_id = Some t →
  task_status t = py "completed" →
  task_result t = Some r →
  List.find (fun h => str_eqb (hotel_id h) hotel_id_arg) (hotels r) = Some h →
  ∃ st',
    confirm_booking hotel_id_arg task_id b st
    = (Ok (uuid4 (uuids_drawn st),
           {| hotel := h; booking_request := b; confirmed := false |}), st')
    ∧ hotel_id h = hotel_id_arg
    ∧ search_tasks st' = search_tasks st
    ∧ booking_confirmations st'
      = <[uuid4 (uuids_drawn st) :=
            {| hotel := h; booking_request := b; confirmed := false |}]>
          (booking_confirmations st)
    ∧ (∀ other, other ≠ uuid4 (uuids_drawn st) →
         booking_confirmations st' !! other
         = booking_confirmations st !! other)
    ∧ get_booking_confirmation (uuid4 (uuids_drawn st)) st'
      = Ok {| hotel := h; booking_request := b; confirmed := false |}
    ∧ (∀ service w result w',
         svc_book_hotel service h b w = (Return result, w') →
         ∃ st'',
           execute_booking (uuid4 (uuids_drawn st)) service st' w
           = (Return (Ok result, st''), w')
           ∧ get_booking_confirmation (uuid4 (uuids_drawn st)) st''
             = Ok {| hotel := h; booking_request := b; confirmed := true |}
           ∧ search_tasks st'' = search_tasks st)
    ∧ (∀ service w e w',
         svc_book_hotel service h b w = (Raise e, w') →
         execute_booking (uuid4 (uuids_drawn st)) service st' w
         = (Return (HTTPException 500 (exn_str e), st'), w')).
Proof.
  intros Ht Hs Hr Hf. unfold confirm_booking.
  rewrite Ht, Hs, str_eqb_refl, Hr, Hf.
  eexists. split; [reflexivity|]. split.
  { apply find_some in Hf as [_ Hid]. unfold str_eqb in Hid.
    by apply bool_decide_eq_true in Hid. }
  split; [done|]. split; [done|].
  split.
  { intros other Hne. cbn [booking_confirmations].
    by apply lookup_insert_ne. }
  unfold get_booking_confirmation, execute_booking.
  cbn [booking_confirmations search_tasks uuids_drawn background].
  rewrite lookup_insert_eq. split; [done|].
  cbn [hotel booking_request].
  split.
  - intros service w result w' Hb.
    unfold try_except, mbind, M_bind, bind. rewrite Hb.
    eexists. split; [reflexivity|].
    cbn [booking_confirmations search_tasks]. by rewrite lookup_insert_eq.
  - intros service w e w' Hb.
    unfold try_except, mbind, M_bind, bind. by rewrite Hb.
Qed.

(** What the shipped service's search does. *)
Lemma search_hotels_sutochno b w :
  svc_search_hotels get_sutochno_service b w
  = (match agent_reply (agent_log w) (search_task b) with
     | Return _ =>
         Return {| hotels := []; total_found := 0; search_params := b |}
     | Raise e => Raise e
     end,
     {| llm_log := llm_log w;
        agent_log := search_task b :: agent_log w;
        heap := heap w |}).
Proof.
  cbn [svc_search_hotels get_sutochno_service].
  unfold mbind, M_bind, bind. rewrite search_hotels_run.
  by destruct (agent_reply (agent_log w) (search_task b)).
Qed.

(** What the shipped service's booking does: nothing. *)
Lemma book_hotel_sutochno h b w :
  ∃ result,
    svc_book_hotel get_sutochno_service h b w = (Return result, w)
    ∧ success result = false.
Proof.
  cbn [svc_book_hotel get_sutochno_service].
  unfold mbind, M_bind, bind, book_hotel, try_except.
  cbn [agent]. unfold raise. by eexists.
Qed.

(** X18. The synchronous search with the service the handlers get never
    raises: it runs the agent once on the search task and answers with a
    list that holds no hotel, or, when the agent raises, with HTTP 500
    and the exception's text. *)
Theorem search_hotels_sync_spec (b : BookingRequest) (w : World) :
  search_hotels_sync b get_sutochno_service w
  = (Return
       match agent_reply (agent_log w) (search_task b) with
       | Return _ =>
           Ok {| hotels := []; total_found := 0; search_params := b |}
       | Raise e => HTTPException 500 (exn_str e)
       end,
     {| llm_log := llm_log w;
        agent_log := search_task b :: agent_log w;
        heap := heap w |}).
Proof.
  unfold search_hotels_sync, try_except, mbind, M_bind, bind.
  rewrite search_hotels_sutochno.
  by destruct (agent_reply (agent_log w) (search_task b)).
Qed.

Lemma handle_world ev p :
  world (handle ev p) = world p
  ∨ ∃ b, world (handle ev p)
         = {| llm_log := llm_log (world p);
              agent_log := search_task b :: agent_log (world p);
              heap := heap (world p) |}.
Proof.
  destruct ev as [b today now|i|i|b|task_id|h t b|confirmation_id];
    cbn [handle].
  - by left.
  - destruct (background (stores p) !! i) as [[task_id b]|]; [|by left].
    destruct (search_tasks (stores p) !! task_id); [|by left].
    rewrite search_hotels_sutochno. cbn [world snd]. right. by exists b.
  - destruct (awaited p !! i) as [[task_id o]|]; by left.
  - unfold search_hotels_sync, try_except, mbind, M_bind, bind.
    rewrite search_hotels_sutochno. cbn [world]. right. exists b.
    by destruct (agent_reply (agent_log (world p)) (search_task b)).
  - by left.
  - by left.
  - left. unfold execute_booking.
    destruct (booking_confirmations (stores p) !! confirmation_id) as [c|];
      [|done].
    unfold try_except, mbind, M_bind, bind.
    destruct (book_hotel_sutochno (hotel c) (booking_request c) (world p))
      as (result & -> & _).
    done.
Qed.

(** X19. Whatever happens to the application, from whatever state, with
    the service the handlers get: the only tasks the browser agent is
    ever given are search tasks. No booking task is run, and the LLM log
    and the list objects are not touched. *)
Theorem the_booking_agent_never_runs (events : list event) (p : Process) :
  ∃ searched : list BookingRequest,
    agent_log (world (run events p))
    = (search_task <$> searched) ++ agent_log (world p)
    ∧ llm_log (world (run events p)) = llm_log (world p)
    ∧ heap (world (run events p)) = heap (world p).
Proof.
  revert p. induction events as [|ev events IH]; intros p.
  - by exists [].
  - unfold run. cbn [foldl]. fold (run events (handle ev p)).
    destruct (IH (handle ev p)) as (searched & Ha & Hl & Hh).
    destruct (handle_world ev p) as [Hw|[b Hw]].
    + exists searched. by rewrite Ha, Hl, Hh, Hw.
    + exists (searched ++ [b]). rewrite Ha, Hl, Hh, Hw.
      cbn [agent_log llm_log heap].
      split; [|done]. rewrite fmap_app. cbn [fmap list_fmap].
      by rewrite <- app_assoc.
Qed.

Lemma perform_search_begin_lookup task_id st :
  search_tasks (perform_search_begin task_id st) !! task_id
  = (set_message (py "Ищем отели на sutochno.ru...")
     ∘ set_progress 30
     ∘ set_message (py "Открываем браузер...")
     ∘ set_progress 10) <$> search_tasks st !! task_id.
Proof.
  unfold perform_search_begin. rewrite !lookup_update_task.
  by destruct (search_tasks st !! task_id).
Qed.

Lemma perform_search_begin_ne task_id other st :
  task_id ≠ other →
  search_tasks (perform_search_begin task_id st) !! other
  = search_tasks st !! other.
Proof.
  intros Hne. unfold perform_search_begin.
  by rewrite !lookup_update_task_ne.
Qed.

Lemma perform_search_end_lookup task_id o st :
  search_tasks (perform_search_end task_id o st) !! task_id
  = match o with
    | Return r =>
        set_result (Some r)
        ∘ set_message (found_message (length (hotels r)))
        ∘ set_progress 100 ∘ set_status (py "completed")
    | Raise e =>
        set_error (Some (exn_str e))
        ∘ set_message (py "Ошибка при поиске: " ++ exn_str e)
        ∘ set_status (py "error")
    end <$> search_tasks st !! task_id.
Proof.
  unfold perform_search_end. destruct o as [r|e];
    rewrite !lookup_update_task; by destruct (search_tasks st !! task_id).
Qed.

Lemma perform_search_end_ne task_id other o st :
  task_id ≠ other →
  search_tasks (perform_search_end task_id o st) !! other
  = search_tasks st !! other.
Proof.
  intros Hne. unfold perform_search_end.
  destruct o; by rewrite !lookup_update_task_ne.
Qed.

Lemma perform_search_rest task_id o st :
  booking_confirmations (perform_search_begin task_id st)
  = booking_confirmations st
  ∧ booking_confirmations (perform_search_end task_id o st)
    = booking_confirmations st.
Proof. by destruct o. Qed.

Lemma handle_nothing_to_book ev p :
  nothing_to_book (stores p) →
  (∀ i task_id r, awaited p !! i = Some (task_id, Return r) → hotels r = []) →
  nothing_to_book (stores (handle ev p))
  ∧ (∀ i task_id r,
       awaited (handle ev p) !! i = Some (task_id, Return r) → hotels r = []).
Proof.
  intros [Hc Ht] Ha.
  destruct ev as [b today now|i|i|b|task_id|h t b|confirmation_id];
    cbn [handle].
  - split; [|done]. cbn [set_stores stores]. unfold start_search.
    destruct (date_leb (check_in b) today); [done|].
    destruct (date_leb (check_out b) (check_in b)); [done|].
    cbn [snd]. split; [done|].
    cbn [search_tasks]. intros task_id t r Hl Hr.
    apply lookup_insert_Some in Hl as [[_ <-]|[_ Hl]]; [done|].
    by eapply Ht.
  - destruct (background (stores p) !! i) as [[task_id b]|]; [|done].
    destruct (search_tasks (stores p) !! task_id) as [t0|] eqn:Ht0;
      [|by split].
    cbn [stores awaited]. split.
    + split; [done|]. intros task_id' t r Hl Hr.
      destruct (decide (task_id = task_id')) as [<-|Hne].
      * rewrite perform_search_begin_lookup in Hl.
        cbn [set_background search_tasks] in Hl. rewrite Ht0 in Hl.
        apply (inj Some) in Hl; subst t.
        cbn [compose set_message set_progress task_result] in Hr.
        by eapply Ht.
      * rewrite perform_search_begin_ne in Hl by done. by eapply Ht.
    + intros j task_id' r Hj.
      apply lookup_app_Some in Hj as [Hj|[_ Hj]]; [by eapply Ha|].
      apply list_lookup_singleton_Some in Hj as [_ Hj].
      rewrite search_hotels_sutochno in Hj. cbn [fst] in Hj.
      destruct (agent_reply (agent_log (world p)) (search_task b));
        [|done].
      by injection Hj as _ <-.
  - destruct (awaited p !! i) as [[task_id o]|] eqn:Hi; [|done].
    cbn [stores awaited]. split.
    + split; [by destruct o|]. intros task_id' t r Hl Hr.
      destruct (decide (task_id = task_id')) as [<-|Hne].
      * rewrite perform_search_end_lookup in Hl.
        destruct (search_tasks (stores p) !! task_id) as [t0|] eqn:Ht0;
          [|done].
        destruct o as [r0|e]; apply (inj Some) in Hl; subst t.
        -- cbn [compose set_result task_result] in Hr.
           apply (inj Some) in Hr. subst r0. by eapply Ha.
        -- cbn [compose set_error set_message set_status task_result] in Hr.
           by eapply Ht.
      * rewrite perform_search_end_ne in Hl by done. by eapply Ht.
    + intros j task_id' r Hj.
      rewrite list_lookup_delete in Hj. by eapply Ha.
  - done.
  - split; [|done]. cbn [set_stores stores]. unfold cancel_search.
    destruct (search_tasks (stores p) !! task_id) as [t0|] eqn:Ht0; [|done].
    cbn [snd]. split; [done|]. intros task_id' t r Hl Hr.
    destruct (decide (task_id = task_id')) as [<-|Hne].
    + rewrite !lookup_update_task, Ht0 in Hl.
      apply (inj Some) in Hl; subst t.
      cbn [set_message set_status task_result] in Hr. by eapply Ht.
    + rewrite !lookup_update_task_ne in Hl by done. by eapply Ht.
  - split; [|done]. cbn [set_stores stores]. unfold confirm_booking.
    destruct (search_tasks (stores p) !! t) as [t0|] eqn:Ht0; [|done].
    destruct (str_eqb (task_status t0) (py "completed")); [|done].
    destruct (task_result t0) as [r|] eqn:Hr0; [|done].
    rewrite (Ht _ _ _ Ht0 Hr0). done.
  - unfold execute_booking. by rewrite Hc, lookup_empty.
Qed.

Lemma run_nothing_to_book events p :
  nothing_to_book (stores p) →
  (∀ i task_id r, awaited p !! i = Some (task_id, Return r) → hotels r = []) →
  nothing_to_book (stores (run events p)).
Proof.
  revert p. induction events as [|ev events IH]; intros p Hs Ha; [done|].
  unfold run. cbn [foldl].
  destruct (handle_nothing_to_book ev p Hs Ha). by apply IH.
Qed.

(** X20. With the service the handlers get, an application that started
    with empty stores never has anything to book, whatever happens to
    it: no stored result holds a hotel, so no confirmation request
    succeeds, no confirmation can be read, and every request to execute
    a booking is answered with HTTP 404. *)
Theorem nothing_is_ever_booked (events : list event) (w : World) :
  nothing_to_book (stores (run events (initial w)))
  ∧ (∀ h t b, ∃ code detail,
       confirm_booking h t b (stores (run events (initial w)))
       = (HTTPException code detail, stores (run events (initial w))))
  ∧ (∀ confirmation_id,
       get_booking_confirmation confirmation_id
         (stores (run events (initial w)))
       = HTTPException 404 (py "Подтверждение бронирования не найдено"))
  ∧ (∀ confirmation_id w',
       execute_booking confirmation_id get_sutochno_service
         (stores (run events (initial w))) w'
       = (Return
            (HTTPException 404 (py "Подтверждение бронирования не найдено"),
             stores (run events (initial w))), w')).
Proof.
  assert (Hn : nothing_to_book (stores (run events (initial w)))).
  { apply run_nothing_to_book.
    - split; [done|]. intros task_id t r Hl. cbn in Hl.
      by rewrite lookup_empty in Hl.
    - by intros i task_id r Hi. }
  split; [done|]. destruct Hn as [Hc Ht].
  set (st := stores (run events (initial w))) in *.
  split; [|split].
  - intros h t b. unfold confirm_booking.
    destruct (search_tasks st !! t) as [t0|] eqn:Ht0; [|by eexists _, _].
    destruct (str_eqb (task_status t0) (py "completed"));
      [|by eexists _, _].
    destruct (task_result t0) as [r|] eqn:Hr0; [|by eexists _, _].
    rewrite (Ht _ _ _ Ht0 Hr0). by eexists _, _.
  - intros confirmation_id. unfold get_booking_confirmation.
    by rewrite Hc, lookup_empty.
  - intros confirmation_id w'. unfold execute_booking.
    by rewrite Hc, lookup_empty.
Qed.

Lemma handle_tasks_written ev p :
  tasks_written (stores p) → tasks_written (stores (handle ev p)).
Proof.
  intros Ht.
  destruct ev as [b today now|i|i|b|task_id|h t b|confirmation_id];
    cbn [handle].
  - cbn [set_stores stores]. unfold start_search.
    destruct (date_leb (check_in b) today); [done|].
    destruct (date_leb (check_out b) (check_in b)); [done|].
    cbn [snd]. intros task_id t Hl. cbn [search_tasks] in Hl.
    apply lookup_insert_Some in Hl as [[_ <-]|[_ Hl]]; [|by eapply Ht].
    cbn [task_status task_progress]. split; [by left|lia].
  - destruct (background (stores p) !! i) as [[task_id b]|]; [|done].
    destruct (search_tasks (stores p) !! task_id) as [t0|] eqn:Ht0; [|done].
    cbn [stores]. intros task_id' t Hl.
    destruct (decide (task_id = task_id')) as [<-|Hne].
    + rewrite perform_search_begin_lookup in Hl.
      cbn [set_background search_tasks] in Hl. rewrite Ht0 in Hl.
      apply (inj Some) in Hl; subst t.
      cbn [compose set_message set_progress task_status task_progress].
      split; [by eapply Ht|lia].
    + rewrite perform_search_begin_ne in Hl by done. by eapply Ht.
  - destruct (awaited p !! i) as [[task_id o]|]; [|done].
    cbn [stores]. intros task_id' t Hl.
    destruct (decide (task_id = task_id')) as [<-|Hne].
    + rewrite perform_search_end_lookup in Hl.
      destruct (search_tasks (stores p) !! task_id) as [t0|] eqn:Ht0;
        [|done].
      destruct o as [r|e]; apply (inj Some) in Hl; subst t.
      * cbn [compose set_result set_message set_status set_progress
             task_status task_progress].
        split; [right; by left|lia].
      * cbn [compose set_error set_message set_status set_progress
             task_status task_progress].
        split; [right; right; by left|by eapply Ht].
    + rewrite perform_search_end_ne in Hl by done. by eapply Ht.
  - done.
  - cbn [set_stores stores]. unfold cancel_search.
    destruct (search_tasks (stores p) !! task_id) as [t0|] eqn:Ht0; [|done].
    cbn [snd]. intros task_id' t Hl.
    destruct (decide (task_id = task_id')) as [<-|Hne].
    + rewrite !lookup_update_task, Ht0 in Hl.
      apply (inj Some) in Hl; subst t.
      cbn [set_message set_status task_status task_progress].
      split; [by do 3 right|]. by eapply Ht.
    + rewrite !lookup_update_task_ne in Hl by done. by eapply Ht.
  - cbn [set_stores stores]. unfold confirm_booking.
    destruct (search_tasks (stores p) !! t) as [t0|]; [|done].
    destruct (str_eqb (task_status t0) (py "completed")); [|done].
    destruct (task_result t0) as [r|]; [|done].
    by destruct (List.find _ (hotels r)).
  - unfold execute_booking.
    destruct (booking_confirmations (stores p) !! confirmation_id) as [c|];
      [|done].
    unfold try_except, mbind, M_bind, bind.
    by destruct (svc_book_hotel get_sutochno_service (hotel c)
                   (booking_request c) (world p)) as [[result|e] w'].
Qed.

Lemma run_tasks_written events p :
  tasks_written (stores p) → tasks_written (stores (run events p)).
Proof.
  revert p. induction events as [|ev events IH]; intros p Hs; [done|].
  unfold run. cbn [foldl]. apply IH. by apply handle_tasks_written.
Qed.

(** X21. In an application that started with empty stores, every stored
    task has one of the four statuses the handlers write and a progress
    between 0 and 100. So the status poll of a stored task answers with
    the task's message and progress, except for a task whose status is
    "cancelled": there, and only there, it fails with a validation
    error. *)
Theorem status_poll_spec
    (events : list event) (w : World) (task_id : str) (t : TaskData) :
  search_tasks (stores (run events (initial w))) !! task_id = Some t →
  written_status (task_status t)
  ∧ 0 ≤ task_progress t ≤ 100
  ∧ (task_status t = py "cancelled" →
     ∃ e, get_search_status task_id (stores (run events (initial w)))
          = Failed e
          ∧ exn_class_of e = ValidationError)
  ∧ (task_status t ≠ py "cancelled" →
     ∃ l, get_search_status task_id (stores (run events (initial w)))
          = Ok {| status := l;
                  status_message := task_message t;
                  progress := Some (task_progress t) |}
          ∧ parse_status (task_status t) = Some l).
Proof.
  intros Hl.
  assert (Hw : tasks_written (stores (run events (initial w)))).
  { apply run_tasks_written. intros i t0 Hi. cbn in Hi.
    by rewrite lookup_empty in Hi. }
  destruct (Hw _ _ Hl) as [Hs Hp].
  split; [done|]. split; [done|].
  unfold get_search_status. rewrite Hl. unfold SearchStatus_new, progress_ok.
  assert (Hok : (0 <=? task_progress t) && (task_progress t <=? 100) = true).
  { apply andb_true_intro. split; apply Z.leb_le; lia. }
  rewrite Hok. split.
  - intros ->. rewrite cancelled_is_no_status. by eexists.
  - intros Hne. destruct Hs as [->|[->|[->|Hs]]]; [| | |done].
    + rewrite parse_status_searching. by eexists.
    + rewrite parse_status_completed. by eexists.
    + rewrite parse_status_error. by eexists.
Qed.

Lemma handle_grows ev p :
  (∀ task_id, is_Some (search_tasks (stores p) !! task_id) →
              is_Some (search_tasks (stores (handle ev p)) !! task_id))
  ∧ (∀ confirmation_id,
       is_Some (booking_confirmations (stores p) !! confirmation_id) →
       is_Some (booking_confirmations (stores (handle ev p))
                  !! confirmation_id)).
Proof.
  destruct ev as [b today now|i|i|b|task_id|h t b|confirmation_id];
    cbn [handle].
  - cbn [set_stores stores]. unfold start_search.
    destruct (date_leb (check_in b) today); [done|].
    destruct (date_leb (check_out b) (check_in b)); [done|].
    cbn [snd search_tasks booking_confirmations]. split; [|done].
    intros task_id Hs. rewrite lookup_insert_is_Some.
    destruct (decide (uuid4 (uuids_drawn (stores p)) = task_id));
      [by left|by right].
  - destruct (background (stores p) !! i) as [[task_id b]|]; [|done].
    destruct (search_tasks (stores p) !! task_id) as [t0|] eqn:Ht0; [|done].
    cbn [stores]. split; [|done].
    intros task_id' Hs.
    destruct (decide (task_id = task_id')) as [<-|Hne].
    + rewrite perform_search_begin_lookup. by apply fmap_is_Some.
    + by rewrite perform_search_begin_ne.
  - destruct (awaited p !! i) as [[task_id o]|]; [|done].
    cbn [stores]. split; [|by destruct o].
    intros task_id' Hs.
    destruct (decide (task_id = task_id')) as [<-|Hne].
    + rewrite perform_search_end_lookup. by apply fmap_is_Some.
    + by rewrite perform_search_end_ne.
  - done.
  - cbn [set_stores stores]. unfold cancel_search.
    destruct (search_tasks (stores p) !! task_id) as [t0|] eqn:Ht0; [|done].
    cbn [snd]. split; [|done]. intros task_id' Hs.
    destruct (decide (task_id = task_id')) as [<-|Hne].
    + rewrite !lookup_update_task. by rewrite !fmap_is_Some.
    + by rewrite !lookup_update_task_ne.
  - cbn [set_stores stores]. unfold confirm_booking.
    destruct (search_tasks (stores p) !! t) as [t0|]; [|done].
    destruct (str_eqb (task_status t0) (py "completed")); [|done].
    destruct (task_result t0) as [r|]; [|done].
    destruct (List.find _ (hotels r)); [|done].
    cbn [snd search_tasks booking_confirmations]. split; [done|].
    intros confirmation_id Hs. rewrite lookup_insert_is_Some.
    destruct (decide (uuid4 (uuids_drawn (stores p)) = confirmation_id));
      [by left|by right].
  - unfold execute_booking.
    destruct (booking_confirmations (stores p) !! confirmation_id)
      as [c|] eqn:Hc; [|done].
    unfold try_except, mbind, M_bind, bind.
    destruct (svc_book_hotel get_sutochno_service (hotel c)
                (booking_request c) (world p)) as [[result|e] w']; [|done].
    cbn [mret M_ret ret fst snd stores search_tasks booking_confirmations].
    split; [done|]. intros confirmation_id' Hs. rewrite lookup_insert_is_Some.
    destruct (decide (confirmation_id = confirmation_id'));
      [by left|by right].
Qed.

(** X22. No handler removes an entry: a task or a confirmation that is
    stored is still stored after anything that happens later, so its
    identifier never starts to be answered with "not found". *)
Theorem stores_only_grow (events : list event) (p : Process) :
  (∀ task_id, is_Some (search_tasks (stores p) !! task_id) →
              is_Some (search_tasks (stores (run events p)) !! task_id))
  ∧ (∀ confirmation_id,
       is_Some (booking_confirmations (stores p) !! confirmation_id) →
       is_Some (booking_confirmations (stores (run events p))
                  !! confirmation_id)).
Proof.
  revert p. induction events as [|ev events IH]; intros p; [done|].
  unfold run. cbn [foldl]. fold (run events (handle ev p)).
  destruct (IH (handle ev p)) as [IH1 IH2].
  destruct (handle_grows ev p) as [H1 H2].
  split; intros i Hi; [apply IH1, H1, Hi|apply IH2, H2, Hi].
Qed.

End StoresRun.

Section StoresRunWitnesses.
Import Py Rt Models Env Api ApiRun Spec2.

#[local] Existing Instance Demo.floats.
#[local] Existing Instance Demo.external.

Lemma start_search_then_poll_witness :
  ∃ st',
    start_search (Demo.booking (Date 2030 5 10) (Date 2030 5 12))
      (Date 2030 1 1) 7 Demo.stores
    = (Ok (uuid4 2, py "Поиск запущен"), st')
    ∧ get_search_results (uuid4 2) st'
      = HTTPException 202 (py "Поиск еще выполняется").
Proof.
  destruct (start_search_then_poll
              (Demo.booking (Date 2030 5 10) (Date 2030 5 12))
              (Date 2030 1 1) 7 Demo.stores)
    as (st' & Hrun & _ & _ & _ & _ & _ & _ & Hres);
    [reflexivity|reflexivity|].
  exists st'. split; [exact Hrun|exact Hres].
Defined.

Lemma perform_search_outcome_witness :
  ∃ st',
    perform_search (py "t1") (Demo.booking (Date 2030 5 10) (Date 2030 5 12))
      Demo.obliging_service Demo.stores Demo.world
    = (Return st', Demo.world)
    ∧ get_search_results (py "t1") st'
      = Ok {| hotels := [Demo.flat];
              total_found := 1;
              search_params :=
                Demo.booking (Date 2030 5 10) (Date 2030 5 12) |}.
Proof.
  destruct (perform_search_outcome (py "t1")
              (Demo.booking (Date 2030 5 10) (Date 2030 5 12))
              Demo.obliging_service Demo.stores Demo.world)
    as (st' & Hrun & _ & _ & _ & Hres).
  exists st'. split; [exact Hrun|exact Hres].
Defined.

Lemma cancel_does_not_stop_the_search_witness :
  ∃ body st1,
    cancel_search (py "t1") (perform_search_begin (py "t1") Demo.stores)
    = (Ok body, st1)
    ∧ get_search_results (py "t1")
        (perform_search_end (py "t1")
           (Return {| hotels := [Demo.flat];
                      total_found := 1;
                      search_params :=
                        Demo.booking (Date 2030 5 10) (Date 2030 5 12) |})
           st1)
      = Ok {| hotels := [Demo.flat];
              total_found := 1;
              search_params :=
                Demo.booking (Date 2030 5 10) (Date 2030 5 12) |}.
Proof.
  destruct (cancel_does_not_stop_the_search (py "t1") Demo.stores Demo.task
              (Return {| hotels := [Demo.flat];
                         total_found := 1;
                         search_params :=
                           Demo.booking (Date 2030 5 10) (Date 2030 5 12) |}))
    as (body & st1 & Hrun & _ & Hres); [reflexivity|].
  exists body, st1. split; [exact Hrun|exact Hres].
Defined.

Lemma cancel_search_frame_witness :
  ∃ st',
    cancel_search (py "t2") Demo2.found_stores
    = (Ok (py "Поиск отменен"), st')
    ∧ get_search_results (py "t2") st'
      = Ok {| hotels := [Demo.flat];
              total_found := 1;
              search_params :=
                Demo.booking (Date 2030 5 10) (Date 2030 5 12) |}.
Proof.
  destruct (cancel_search_frame (py "t2") Demo2.found_stores Demo2.found_task)
    as (st' & t' & Hrun & _ & _ & _ & _ & _ & _ & _ & _ & Hres);
    [reflexivity|].
  exists st'. split; [exact Hrun|exact Hres].
Defined.

Lemma confirm_then_execute_witness :
  ∃ st',
    confirm_booking (py "h1") (py "t2")
      (Demo.booking (Date 2030 6 1) (Date 2030 6 3)) Demo2.found_stores
    = (Ok (uuid4 1,
           {| hotel := Demo.flat;
              booking_request := Demo.booking (Date 2030 6 1) (Date 2030 6 3);
              confirmed := false |}), st')
    ∧ get_booking_confirmation (uuid4 1) st'
      = Ok {| hotel := Demo.flat;
              booking_request := Demo.booking (Date 2030 6 1) (Date 2030 6 3);
              confirmed := false |}.
Proof.
  destruct (confirm_then_execute (py "h1") (py "t2")
              (Demo.booking (Date 2030 6 1) (Date 2030 6 3))
              Demo2.found_stores Demo2.found_task
              {| hotels := [Demo.flat];
                 total_found := 1;
                 search_params :=
                   Demo.booking (Date 2030 5 10) (Date 2030 5 12) |}
              Demo.flat)
    as (st' & Hrun & _ & _ & _ & _ & Hget & _);
    [reflexivity|reflexivity|reflexivity|reflexivity|].
  exists st'. split; [exact Hrun|exact Hget].
Defined.

Lemma status_poll_spec_witness :
  ∃ e,
    get_search_status (uuid4 0)
      (stores
         (run [StartSearch (Demo.booking (Date 2030 5 10) (Date 2030 5 12))
                 (Date 2030 1 1) 7;
               CancelSearch (uuid4 0)]
            (initial Demo.world)))
    = Failed e
    ∧ exn_class_of e = ValidationError.
Proof.
  refine (proj1 (proj2 (proj2
            (status_poll_spec
               [StartSearch (Demo.booking (Date 2030 5 10) (Date 2030 5 12))
                  (Date 2030 1 1) 7;
                CancelSearch (uuid4 0)]
               Demo.world (uuid4 0)
               (set_message (py "Поиск отменен пользователем")
                  (set_status (py "cancelled")
                     (started (Demo.booking (Date 2030 5 10) (Date 2030 5 12))
                        7)))
               _))) _).
  - vm_compute. reflexivity.
  - reflexivity.
Defined.

Lemma stores_only_grow_witness :
  is_Some
    (search_tasks
       (stores
          (run [CancelSearch (py "t1"); BackgroundEnd 0]
             {| stores := Demo.stores; world := Demo.world; awaited := [] |}))
       !! py "t1").
Proof.
  apply (proj1 (stores_only_grow [CancelSearch (py "t1"); BackgroundEnd 0]
                  {| stores := Demo.stores; world := Demo.world;
                     awaited := [] |})).
  exists Demo.task. reflexivity.
Defined.

End StoresRunWitnesses.

(* ===================================================================== *)
(** * Facts: [split] and [join]                                           *)
(* ===================================================================== *)

Section SplitJoin.
Import Py PyStr.

Lemma split_nonempty sep s : split sep s ≠ [].
Proof.
  destruct s as [|c s]; cbn [split]; [done|].
  destruct (c =? sep)%N; [done|]. by destruct (split sep s).
Qed.

Lemma split_no_sep sep s : Forall (λ p, sep ∉ p) (split sep s).
Proof.
  induction s as [|c s IH]; cbn [split].
  - repeat constructor. by intros ?%elem_of_nil.
  - destruct (c =? sep)%N eqn:Hc.
    + constructor; [by intros ?%elem_of_nil|done].
    + apply N.eqb_neq in Hc.
      destruct (split sep s) as [|p ps].
      * repeat constructor. intros ?%list_elem_of_singleton. by subst.
      * apply Forall_cons in IH as [Hp Hps]. constructor; [|done].
        intros [?|?]%elem_of_cons; [by subst|done].
Qed.

Lemma split_app sep s1 s2 :
  split sep (s1 ++ sep :: s2) = split sep s1 ++ split sep s2.
Proof.
  induction s1 as [|c s1 IH]; cbn [app split].
  - by rewrite N.eqb_refl.
  - destruct (c =? sep)%N; [by rewrite IH|].
    rewrite IH. pose proof (split_nonempty sep s1).
    by destruct (split sep s1).
Qed.

Lemma split_sepfree sep s : sep ∉ s → split sep s = [s].
Proof.
  induction s as [|c s IH]; intros Hs; cbn [split]; [done|].
  apply not_elem_of_cons in Hs as [Hc Hs].
  destruct (c =? sep)%N eqn:E; [apply N.eqb_eq in E; by subst|].
  by rewrite IH.
Qed.

Lemma split_two sep a b :
  sep ∉ a → sep ∉ b → split sep (a ++ sep :: b) = [a; b].
Proof.
  intros Ha Hb. by rewrite split_app, !split_sepfree.
Qed.

Lemma join_cons sep p ps :
  ps ≠ [] → join sep (p :: ps) = p ++ sep ++ join sep ps.
Proof. by destruct ps. Qed.

Lemma join_app sep l1 l2 :
  l1 ≠ [] → l2 ≠ [] →
  join sep (l1 ++ l2) = join sep l1 ++ sep ++ join sep l2.
Proof.
  intros H1 H2. induction l1 as [|p l1 IH]; [done|].
  destruct l1 as [|q l1].
  - cbn [app]. by rewrite join_cons.
  - change ((p :: q :: l1) ++ l2) with (p :: ((q :: l1) ++ l2)).
    rewrite join_cons by done. rewrite IH by done.
    rewrite (join_cons sep p (q :: l1)) by done. by rewrite <- !app_assoc.
Qed.

Lemma join_split sep s : join [sep] (split sep s) = s.
Proof.
  induction s as [|c s IH]; cbn [split]; [done|].
  pose proof (split_nonempty sep s) as Hne.
  destruct (c =? sep)%N eqn:E.
  - apply N.eqb_eq in E. subst c. rewrite join_cons by done.
    by rewrite IH.
  - destruct (split sep s) as [|p ps]; [done|].
    destruct ps as [|q ps].
    + cbn [join] in *. by subst.
    + rewrite join_cons by done. rewrite join_cons in IH by done.
      by rewrite <- IH.
Qed.

Lemma last_two_app {A} (l : list A) a b : last_two (l ++ [a; b]) = [a; b].
Proof.
  unfold last_two. rewrite length_app. cbn [length].
  replace (length l + 2 - 2)%nat with (length l) by lia.
  by rewrite drop_app_length.
Qed.

Lemma last_two_split {A} (l : list A) :
  (2 < length l)%nat →
  ∃ front a b, front ≠ [] ∧ l = front ++ [a; b] ∧ last_two l = [a; b].
Proof.
  intros Hl. unfold last_two.
  pose proof (take_drop (length l - 2) l) as Hd.
  pose proof (length_drop l (length l - 2)) as Hn.
  destruct (drop (length l - 2) l) as [|a [|b [|c rest]]] eqn:E;
    cbn [length] in Hn; try lia.
  exists (take (length l - 2) l), a, b. split; [|done].
  intros Ht. apply (f_equal length) in Ht. rewrite length_take in Ht.
  cbn [length] in Ht. lia.
Qed.

End SplitJoin.

(* ===================================================================== *)
(** * Facts: models/search.py and services/search_service.py              *)
(* ===================================================================== *)

Section SearchFacts.
Import Py PyStr Rt Models Env Search.
Context `{SearchExternal}.

Lemma source_of_domain_short domain :
  (length (split DOT domain) ≤ 2)%nat →
  source_of_domain domain = mapping_get marketplace_mapping domain domain.
Proof.
  intros Hl. unfold source_of_domain.
  by destruct (Nat.ltb_spec 2 (length (split DOT domain))); [lia|].
Qed.

(** X23. [_extract_source] looks at the last two labels of the host
    only: whatever stands before them, subdomains of any depth, is
    dropped before the table is consulted, so a host and its subdomains
    have the same source. *)
Theorem source_ignores_subdomains (sub a b : str) :
  DOT ∉ a → DOT ∉ b →
  source_of_domain (sub ++ [DOT] ++ a ++ [DOT] ++ b)
  = source_of_domain (a ++ [DOT] ++ b)
  ∧ source_of_domain (a ++ [DOT] ++ b)
    = mapping_get marketplace_mapping (a ++ [DOT] ++ b) (a ++ [DOT] ++ b).
Proof.
  intros Ha Hb.
  assert (Hshort : source_of_domain (a ++ [DOT] ++ b)
                   = mapping_get marketplace_mapping (a ++ [DOT] ++ b)
                       (a ++ [DOT] ++ b)).
  { apply source_of_domain_short.
    change (a ++ [DOT] ++ b) with (a ++ DOT :: b).
    by rewrite split_two. }
  split; [|done]. rewrite Hshort. unfold source_of_domain.
  change (sub ++ [DOT] ++ a ++ [DOT] ++ b) with (sub ++ DOT :: (a ++ DOT :: b)).
  rewrite split_app, split_two by done.
  rewrite length_app, last_two_app. cbn [length join].
  pose proof (split_nonempty DOT sub) as Hne.
  destruct (Nat.ltb_spec 2 (length (split DOT sub) + 2)) as [_|Hle]; [done|].
  destruct (split DOT sub); [done|]. cbn [length] in Hle. lia.
Qed.

(** The key that is looked up in the table: a piece at the end of the
    host, of two labels at most. *)
Lemma source_of_domain_key domain :
  ∃ key front,
    source_of_domain domain = mapping_get marketplace_mapping key key
    ∧ domain = front ++ key
    ∧ (length (split DOT key) ≤ 2)%nat.
Proof.
  unfold source_of_domain.
  destruct (Nat.ltb_spec 2 (length (split DOT domain))) as [Hlt|Hle].
  - destruct (last_two_split _ Hlt) as (front & a & b & Hf & Hl & ->).
    pose proof (split_no_sep DOT domain) as Hs. rewrite Hl in Hs.
    apply Forall_app in Hs as [_ Hs].
    apply Forall_cons in Hs as [Ha Hs]. apply Forall_cons in Hs as [Hb _].
    exists (join [DOT] [a; b]), (join [DOT] front ++ [DOT]).
    split; [done|]. split.
    + rewrite <- (join_split DOT domain) at 1. rewrite Hl.
      rewrite join_app by done. by rewrite <- app_assoc.
    + cbn [join]. change (a ++ [DOT] ++ b) with (a ++ DOT :: b).
      by rewrite split_two.
  - exists domain, []. done.
Qed.

Lemma table_yandex_market key :
  (length (split DOT key) ≤ 2)%nat →
  mapping_get marketplace_mapping key key = py "Яндекс.Маркет" →
  key = py "Яндекс.Маркет".
Proof.
  intros Hl. unfold marketplace_mapping. cbn [mapping_get].
  repeat
    (match goal with
     | |- context [str_eqb ?k key] =>
         let E := fresh "E" in
         destruct (str_eqb k key) eqn:E;
         [intros Habs; exfalso;
          first [ by (vm_compute in Habs)
                | unfold str_eqb in E; apply bool_decide_eq_true in E;
                  subst key; vm_compute in Hl; lia ]
         |clear E]
     end).
  done.
Qed.

(** X24. The table's entry for [market.yandex.ru] is never used: its key
    has three labels and the key that is looked up has two at most. A
    host is given the source "Яндекс.Маркет" only if the host itself ends
    with that text. *)
Theorem yandex_market_entry_is_dead (domain : str) :
  source_of_domain domain = py "Яндекс.Маркет" →
  ∃ front, domain = front ++ py "Яндекс.Маркет".
Proof.
  destruct (source_of_domain_key domain) as (key & front & -> & -> & Hl).
  intros Hk. apply table_yandex_market in Hk; [|done].
  exists front. by rewrite Hk.
Qed.

Lemma to_search_results_from_spec items :
  ∀ index rs,
    to_search_results_from index items = Return rs →
    length rs = length items
    ∧ ∀ i r,
        rs !! i = Some r →
        ∃ item,
          items !! i = Some item
          ∧ position r = index + Z.of_nat i + 1
          ∧ as_str (dict_get item (py "title") (JStr [])) = Some (result_title r)
          ∧ as_str (dict_get item (py "link") (JStr [])) = Some (link r)
          ∧ as_optional_str (dict_get item (py "snippet") JNull)
            = Some (snippet r)
          ∧ source_of (dict_get item (py "link") (JStr [])) = Return (source r).
Proof.
  induction items as [|item rest IH]; intros index rs.
  - intros [= <-]. split; [done|]. intros i r Hi. by rewrite lookup_nil in Hi.
  - cbn [to_search_results_from]. unfold mbind, outcome_bind.
    destruct (source_of (dict_get item (py "link") (JStr [])))
      as [a_source|e] eqn:Hsrc; [|done].
    unfold SearchResult_new.
    destruct (as_str (dict_get item (py "title") (JStr [])))
      as [t|] eqn:Htitle; [|done].
    destruct (as_str (dict_get item (py "link") (JStr [])))
      as [l|] eqn:Hlink; [|done].
    destruct (as_optional_str (dict_get item (py "snippet") JNull))
      as [s|] eqn:Hsnippet; [|done].
    destruct (to_search_results_from (index + 1) rest) as [rs'|e] eqn:Hrest;
      [|done].
    intros [= <-]. destruct (IH _ _ Hrest) as [Hlen Hall].
    split; [cbn [length]; by rewrite Hlen|].
    intros [|i] r Hr.
    + injection Hr as <-. exists item.
      cbn [position result_title link snippet source].
      repeat split; try done. cbn. lia.
    + destruct (Hall i r Hr) as (item' & Hi & Hp & Hrest').
      exists item'. split; [done|]. split; [|done]. lia.
Qed.

(** X25. [to_search_results] gives one result for each shopping item, in
    the order of the response and numbered from 1; title and link are
    the item's (the empty text when the key is absent), the snippet is
    the item's or [None], and the source is computed from the link. *)
Theorem to_search_results_numbered
    (self : SerperSearchResponse) (rs : list SearchResult) :
  to_search_results self = Return rs →
  length rs = length (shopping self)
  ∧ ∀ i r,
      rs !! i = Some r →
      ∃ item,
        shopping self !! i = Some item
        ∧ position r = Z.of_nat i + 1
        ∧ as_str (dict_get item (py "title") (JStr [])) = Some (result_title r)
        ∧ as_str (dict_get item (py "link") (JStr [])) = Some (link r)
        ∧ as_optional_str (dict_get item (py "snippet") JNull)
          = Some (snippet r)
        ∧ source_of (dict_get item (py "link") (JStr [])) = Return (source r).
Proof.
  intros Hrs. by apply (to_search_results_from_spec _ 0).
Qed.

(** X26. One item that cannot be made into a [SearchResult] (a title or
    a link that is not a text, a snippet that is neither a text nor
    absent, a link [_extract_source] fails on) makes the whole
    conversion raise: the results of the other items are lost. *)
Theorem to_search_results_all_or_nothing
    (self : SerperSearchResponse) (item : list (str * json)) :
  item ∈ shopping self →
  as_str (dict_get item (py "title") (JStr [])) = None
  ∨ as_str (dict_get item (py "link") (JStr [])) = None
  ∨ as_optional_str (dict_get item (py "snippet") JNull) = None
  ∨ (∃ e, source_of (dict_get item (py "link") (JStr [])) = Raise e) →
  ∃ e, to_search_results self = Raise e.
Proof.
  unfold to_search_results. generalize 0. generalize (shopping self).
  intros items. induction items as [|item' rest IH]; intros index Hin Hbad.
  - by apply elem_of_nil in Hin.
  - cbn [to_search_results_from]. unfold mbind, outcome_bind.
    destruct (source_of (dict_get item' (py "link") (JStr [])))
      as [a_source|e] eqn:Hsrc; [|by eexists].
    unfold SearchResult_new.
    destruct (as_str (dict_get item' (py "title") (JStr [])))
      as [t|] eqn:Htitle; [|by eexists].
    destruct (as_str (dict_get item' (py "link") (JStr [])))
      as [l|] eqn:Hlink; [|by eexists].
    destruct (as_optional_str (dict_get item' (py "snippet") JNull))
      as [s|] eqn:Hsnippet; [|by eexists].
    apply elem_of_cons in Hin as [->|Hin].
    + exfalso. rewrite Htitle, Hlink, Hsnippet, Hsrc in Hbad.
      destruct Hbad as [?|[?|[?|[e ?]]]]; done.
    + destruct (IH (index + 1) Hin Hbad) as [e ->]. by eexists.
Qed.

Lemma search_steady search_request w : (search search_request w).2 = w.
Proof. unfold search, try_except, raise. by destruct (_ ≫= _). Qed.

(** X27. [SearchService.search] leaves the world as it is and does not
    look at the marketplace hints. A response body without the key
    [shopping] is a validation error, and so the search raises. *)
Theorem search_spec (search_request : SearchRequest) (w : World) :
  (search search_request w).2 = w
  ∧ (∀ hints,
       search {| search_query := search_query search_request;
                 marketplace_hints := hints;
                 num_results := num_results search_request |} w
       = search search_request w)
  ∧ (∀ d,
       serper_post w (search_query search_request)
         (num_results search_request) = Return (JDict d) →
       dict_find d (py "shopping") = None →
       ∃ e, search search_request w = (Raise e, w)
            ∧ exn_class_of e = ValidationError).
Proof.
  split; [apply search_steady|].
  unfold search, try_except, raise. cbn [search_query num_results].
  split.
  - done.
  - intros d -> Hd. unfold mbind, outcome_bind, SerperSearchResponse_new.
    rewrite Hd. by eexists.
Qed.

End SearchFacts.

Section ProductSearch.
Import Py Rt Models Env Search.
Context `{SearchExternal} `{!External}.

(** X28. [ProductService.search_products] asks the LLM for a query once.
    When the LLM raises, so does the call. Otherwise the result is that
    of the search for the cleaned answer with [MAX_SEARCH_RESULTS]
    results asked for, in the world after the LLM call: the marketplaces
    of the request reach the search only through the prompt. *)
Theorem product_search_products_spec (request : ProductRequest) (w : World) :
  let prompt := get_generate_search_query_prompt request in
  let w1 := {| llm_log := prompt :: llm_log w;
               agent_log := agent_log w;
               heap := heap w |} in
  (product_search_products request w).2 = w1
  ∧ match llm_reply (llm_log w) prompt with
    | Raise e => (product_search_products request w).1 = Raise e
    | Return content =>
        (product_search_products request w).1
        = (search_products
             (strip (strip_chars [SQUOTE] (strip_chars [DQUOTE] (strip content))))
             None MAX_SEARCH_RESULTS w1).1
    end.
Proof.
  intros prompt w1.
  unfold product_search_products, ProductService.generate_search_query,
    search_products, mbind, M_bind, bind, ainvoke.
  fold prompt. fold w1.
  destruct (llm_reply (llm_log w) prompt) as [content|e]; [|done].
  cbn [mret M_ret ret].
  split; [|done].
  apply search_steady.
Qed.

End ProductSearch.

Section SearchWitnesses.
Import Py PyStr Rt Models Env Search.

#[local] Existing Instance Demo.floats.
#[local] Existing Instance Demo.external.

Lemma source_ignores_subdomains_witness :
  source_of_domain (py "market" ++ [DOT] ++ py "yandex" ++ [DOT] ++ py "ru")
  = source_of_domain (py "yandex" ++ [DOT] ++ py "ru").
Proof.
  apply (proj1 (source_ignores_subdomains (py "market") (py "yandex")
                  (py "ru")
                  ltac:(apply (bool_decide_unpack _); vm_compute; exact I)
                  ltac:(apply (bool_decide_unpack _); vm_compute; exact I))).
Defined.

Lemma yandex_market_entry_is_dead_witness :
  ∃ front, py "Яндекс.Маркет" = front ++ py "Яндекс.Маркет".
Proof.
  apply (yandex_market_entry_is_dead (py "Яндекс.Маркет")).
  vm_compute. reflexivity.
Defined.

Lemma to_search_results_numbered_witness :
  length
    [ {| result_title := py "tea"; link := py "market.yandex.ru";
         snippet := None; position := 1; source := py "yandex.ru" |};
      {| result_title := []; link := []; snippet := None; position := 2;
         source := [] |} ]
  = length (shopping Demo2.two_items).
Proof.
  apply (proj1 (@to_search_results_numbered _ Demo2.search_external
                  Demo2.two_items _ ltac:(vm_compute; reflexivity))).
Defined.

Lemma to_search_results_all_or_nothing_witness :
  ∃ e, @to_search_results _ Demo2.search_external Demo2.untitled_item
       = Raise e.
Proof.
  apply (@to_search_results_all_or_nothing _ Demo2.search_external
           Demo2.untitled_item [(py "title", JNull)]).
  - right. left.
  - left. reflexivity.
Defined.

Lemma search_spec_witness :
  ∃ e,
    @search _ Demo2.empty_search_external
      {| search_query := py "tea"; marketplace_hints := None;
         num_results := 3 |} Demo.world
    = (Raise e, Demo.world)
    ∧ exn_class_of e = ValidationError.
Proof.
  apply (proj2 (proj2 (@search_spec _ Demo2.empty_search_external
                         {| search_query := py "tea";
                            marketplace_hints := None;
                            num_results := 3 |} Demo.world)) []);
    reflexivity.
Defined.

End SearchWitnesses.
